(** * Campaign dispatch, quota guard and tracking ingest of Emailscraper-backend

    A shallow embedding of
      - [EmailService]    (src/email/email.service.ts),
      - [CampaignService] (campaign.service.ts),
      - [TrackingService] and [TrackingController] (tracking/),
    over an explicit world: the three Mongoose collections, the process-wide
    maps of [EmailService], the pending [setTimeout] callbacks, the logger
    and the SMTP transport.  Asynchronous methods become computations in a
    state-and-exception monad; a value read from a collection is a snapshot
    that later writes to the collection do not change, as with documents
    returned by [findById]. *)

From Stdlib Require Import String Ascii ZArith Lia.
From stdpp Require Import gmap strings list fin_maps pretty.

Open Scope string_scope.
Open Scope Z_scope.

(** ** JavaScript strings *)

Module Js.

(** [s.split(sep)] for a one-character separator: always at least one part. *)
Fixpoint split (sep : ascii) (s : string) : list string :=
  match s with
  | EmptyString => [EmptyString]
  | String c s' =>
      if Ascii.eqb c sep then EmptyString :: split sep s'
      else match split sep s' with
           | p :: ps => String c p :: ps
           | [] => [String c EmptyString]
           end
  end.

(** Whether character [c] occurs in [s]. *)
Fixpoint has_char (c : ascii) (s : string) : bool :=
  match s with
  | EmptyString => false
  | String a s' => Ascii.eqb a c || has_char c s'
  end.

(** [s.substring(n)]: what is left after the first [n] characters. *)
Fixpoint drop (n : nat) (s : string) : string :=
  match n, s with
  | O, _ => s
  | S k, EmptyString => EmptyString
  | S k, String _ s' => drop k s'
  end.

(** Whether [pat] occurs in [s] as a substring. *)
Fixpoint occurs (pat s : string) : bool :=
  String.prefix pat s
  || match s with
     | EmptyString => false
     | String _ s' => occurs pat s'
     end.

(** ECMAScript GetSubstitution for a pattern without capture groups:
    [$$] is a dollar sign, [$&] the matched text, [$`] the text before the
    match, [$'] the text after it; any other [$] is literal.  [dollar] tells
    that the previous character was an unconsumed [$]. *)
Fixpoint getSubstitution (matched before after : string) (dollar : bool)
    (repl : string) : string :=
  match repl with
  | EmptyString => if dollar then "$" else EmptyString
  | String c r =>
      if dollar then
        if Ascii.eqb c "$" then
          String "$" (getSubstitution matched before after false r)
        else if Ascii.eqb c "&" then
          matched +:+ getSubstitution matched before after false r
        else if Ascii.eqb c "`" then
          before +:+ getSubstitution matched before after false r
        else if Ascii.eqb c "'" then
          after +:+ getSubstitution matched before after false r
        else String "$" (String c (getSubstitution matched before after false r))
      else if Ascii.eqb c "$" then getSubstitution matched before after true r
      else String c (getSubstitution matched before after false r)
  end.

(** [s.replace(new RegExp(escapeRegExp(pat), 'g'), repl)] for a non-empty
    [pat]: the escaped pattern matches [pat] literally, matches are taken left
    to right without overlap.  [before] is the part of the subject already
    passed, [skip] the number of characters of the current match still to
    pass. *)
Fixpoint replace_go (pat repl before : string) (skip : nat) (s : string)
    : string :=
  match s with
  | EmptyString => EmptyString
  | String c s' =>
      match skip with
      | S k => replace_go pat repl (before +:+ String c EmptyString) k s'
      | O =>
          if String.prefix pat s then
            getSubstitution pat before (drop (String.length pat) s) false repl
            +:+ replace_go pat repl (before +:+ String c EmptyString)
                  (String.length pat - 1) s'
          else
            String c (replace_go pat repl (before +:+ String c EmptyString) O s')
      end
  end.

Definition replaceAll (pat repl s : string) : string :=
  replace_go pat repl EmptyString O s.

(** The one-character string holding a double quote. *)
Definition dquote : string := String (Ascii.ascii_of_nat 34) EmptyString.

(** [a || b] on strings: the empty string is the only falsy string. *)
Definition or_string (a b : string) : string :=
  if String.eqb a EmptyString then b else a.

(** [a || b] on optional numbers: [undefined] and [0] are falsy. *)
Definition or_number (a : option Z) (b : Z) : Z :=
  match a with
  | Some n => if Z.eqb n 0 then b else n
  | None => b
  end.

(** Number of occurrences of character [c] in [s]. *)
Fixpoint count_char (c : ascii) (s : string) : nat :=
  match s with
  | EmptyString => O
  | String a s' => (if Ascii.eqb a c then 1 else 0) + count_char c s'
  end.

(** The class [\w]: letters, digits and the underscore. *)
Definition isWordChar (c : ascii) : bool :=
  let n := nat_of_ascii c in
  ((48 <=? n) && (n <=? 57) || (65 <=? n) && (n <=? 90)
   || (97 <=? n) && (n <=? 122) || (n =? 95))%nat.

(** The longest run of word characters at the start of [s], and what
    follows it: what a greedy [\w*] takes. *)
Fixpoint wordPrefix (s : string) : string * string :=
  match s with
  | EmptyString => (EmptyString, EmptyString)
  | String c s' =>
      if isWordChar c then (String c (wordPrefix s').1, (wordPrefix s').2)
      else (EmptyString, s)
  end.

(** The class [[.*+?^${}()|[\]\\]] of [escapeRegExp]. *)
Definition isRegExpSpecial (c : ascii) : bool :=
  existsb (Ascii.eqb c)
    ["."; "*"; "+"; "?"; "^"; "$"; "{"; "}"; "("; ")"; "|"; "["; "]"; "\"]%char.

(** [string.replace(/[.*+?^${}()|[\]\\]/g, '\\$&')]: a backslash before
    every character of the class. *)
Fixpoint escapeSpecials (s : string) : string :=
  match s with
  | EmptyString => EmptyString
  | String c s' =>
      if isRegExpSpecial c then String "\" (String c (escapeSpecials s'))
      else String c (escapeSpecials s')
  end.

(** The text a regular expression source matches, when the source is made
    only of characters that stand for themselves and of class characters
    behind a backslash; [None] for any other source.  [escaped] tells that
    the previous character was the backslash. *)
Fixpoint literalOf (escaped : bool) (source : string) : option string :=
  match source with
  | EmptyString => if escaped then None else Some EmptyString
  | String c r =>
      if escaped then
        if isRegExpSpecial c then String c <$> literalOf false r else None
      else if Ascii.eqb c "\" then literalOf true r
      else if isRegExpSpecial c then None
      else String c <$> literalOf false r
  end.

(** A non-empty string of word characters: what [\w+] matches in full. *)
Fixpoint allWordChars (s : string) : bool :=
  match s with
  | EmptyString => true
  | String c s' => isWordChar c && allWordChars s'
  end.

Definition isWord (s : string) : bool :=
  match s with
  | EmptyString => false
  | String _ _ => allWordChars s
  end.

End Js.

(** ** Dates

    A [Date] is a number of milliseconds since the epoch; calendar fields are
    read in UTC. *)

Definition Date := Z.

Definition msPerHour : Z := 3600000.
Definition msPerDay : Z := 86400000.

(** Two dates have equal [toDateString()] iff they have the same day number. *)
Definition toDateString (d : Date) : Z := d / msPerDay.

Definition getHours (d : Date) : Z := (d / msPerHour) mod 24.

(** [new Date(y, m, d)] of [now]: midnight of the same day. *)
Definition startOfDay (now : Date) : Date := (now / msPerDay) * msPerDay.

(** [nextHour.setHours(nextHour.getHours() + 1, 0, 0, 0)]. *)
Definition startOfNextHour (now : Date) : Date := (now / msPerHour + 1) * msPerHour.

(** ** Documents (schemas/campaign.schema.ts, smtp-config, email-template)

    Status fields are strings, as in the schemas.  Fields that no modelled
    method reads or writes (descriptions, DNS records, bounce data) are left
    out. *)

Module CampaignEmail.
Record t := mk {
  email : string;
  name : string;
  variables : list (string * string);   (* Object.entries order *)
  status : string;
  messageId : option string;
  sentAt : option Date;
  openedAt : option Date;
  clickedAt : option Date;
  error : option string;
  openCount : Z;
  clickCount : Z
}.

Definition set_status (v : string) (e : t) : t :=
  mk (email e) (name e) (variables e) v (messageId e) (sentAt e)
     (openedAt e) (clickedAt e) (error e) (openCount e) (clickCount e).
Definition set_messageId (v : option string) (e : t) : t :=
  mk (email e) (name e) (variables e) (status e) v (sentAt e)
     (openedAt e) (clickedAt e) (error e) (openCount e) (clickCount e).
Definition set_sentAt (v : option Date) (e : t) : t :=
  mk (email e) (name e) (variables e) (status e) (messageId e) v
     (openedAt e) (clickedAt e) (error e) (openCount e) (clickCount e).
Definition set_openedAt (v : option Date) (e : t) : t :=
  mk (email e) (name e) (variables e) (status e) (messageId e) (sentAt e)
     v (clickedAt e) (error e) (openCount e) (clickCount e).
Definition set_clickedAt (v : option Date) (e : t) : t :=
  mk (email e) (name e) (variables e) (status e) (messageId e) (sentAt e)
     (openedAt e) v (error e) (openCount e) (clickCount e).
Definition set_error (v : option string) (e : t) : t :=
  mk (email e) (name e) (variables e) (status e) (messageId e) (sentAt e)
     (openedAt e) (clickedAt e) v (openCount e) (clickCount e).
Definition set_openCount (v : Z) (e : t) : t :=
  mk (email e) (name e) (variables e) (status e) (messageId e) (sentAt e)
     (openedAt e) (clickedAt e) (error e) v (clickCount e).
Definition set_clickCount (v : Z) (e : t) : t :=
  mk (email e) (name e) (variables e) (status e) (messageId e) (sentAt e)
     (openedAt e) (clickedAt e) (error e) (openCount e) v.
End CampaignEmail.

Module Settings.
Record t := mk {
  delayBetweenEmails : option Z;
  maxEmailsPerHour : option Z
}.
(** [campaign.settings || {}] *)
Definition empty : t := mk None None.
End Settings.

Module Campaign.
Record t := mk {
  _id : string;
  userId : string;
  name : string;
  smtpConfigId : string;
  templateId : option string;
  emails : list CampaignEmail.t;
  status : string;
  startedAt : option Date;
  completedAt : option Date;
  totalEmails : Z;
  emailsSent : Z;
  emailsDelivered : Z;
  emailsOpened : Z;
  emailsClicked : Z;
  emailsReplied : Z;
  emailsBounced : Z;
  emailsFailed : Z;
  settings : option Settings.t;
  lastEmailSentAt : option Date
}.

Definition set_emails (v : list CampaignEmail.t) (c : t) : t :=
  mk (_id c) (userId c) (name c) (smtpConfigId c) (templateId c) v
     (status c) (startedAt c) (completedAt c) (totalEmails c) (emailsSent c)
     (emailsDelivered c) (emailsOpened c) (emailsClicked c) (emailsReplied c)
     (emailsBounced c) (emailsFailed c) (settings c) (lastEmailSentAt c).
Definition set_status (v : string) (c : t) : t :=
  mk (_id c) (userId c) (name c) (smtpConfigId c) (templateId c) (emails c)
     v (startedAt c) (completedAt c) (totalEmails c) (emailsSent c)
     (emailsDelivered c) (emailsOpened c) (emailsClicked c) (emailsReplied c)
     (emailsBounced c) (emailsFailed c) (settings c) (lastEmailSentAt c).
Definition set_startedAt (v : option Date) (c : t) : t :=
  mk (_id c) (userId c) (name c) (smtpConfigId c) (templateId c) (emails c)
     (status c) v (completedAt c) (totalEmails c) (emailsSent c)
     (emailsDelivered c) (emailsOpened c) (emailsClicked c) (emailsReplied c)
     (emailsBounced c) (emailsFailed c) (settings c) (lastEmailSentAt c).
Definition set_completedAt (v : option Date) (c : t) : t :=
  mk (_id c) (userId c) (name c) (smtpConfigId c) (templateId c) (emails c)
     (status c) (startedAt c) v (totalEmails c) (emailsSent c)
     (emailsDelivered c) (emailsOpened c) (emailsClicked c) (emailsReplied c)
     (emailsBounced c) (emailsFailed c) (settings c) (lastEmailSentAt c).
Definition set_lastEmailSentAt (v : option Date) (c : t) : t :=
  mk (_id c) (userId c) (name c) (smtpConfigId c) (templateId c) (emails c)
     (status c) (startedAt c) (completedAt c) (totalEmails c) (emailsSent c)
     (emailsDelivered c) (emailsOpened c) (emailsClicked c) (emailsReplied c)
     (emailsBounced c) (emailsFailed c) (settings c) v.
(** The seven aggregate counters are rewritten together. *)
Definition set_counters (sent delivered opened clicked replied bounced failed : Z)
    (c : t) : t :=
  mk (_id c) (userId c) (name c) (smtpConfigId c) (templateId c) (emails c)
     (status c) (startedAt c) (completedAt c) (totalEmails c) sent
     delivered opened clicked replied bounced failed (settings c)
     (lastEmailSentAt c).
End Campaign.

Module SMTPConfig.
Record t := mk {
  _id : string;
  name : string;
  host : string;
  port : Z;
  username : string;
  fromEmail : string;
  fromName : string;
  dailyLimit : Z;
  emailsSentToday : Z;
  lastResetDate : option Date;
  totalEmailsSent : Z;
  emailsFailed : Z;
  isActive : bool;
  hourlyRateLimit : Z
}.

Definition set_emailsSentToday (v : Z) (c : t) : t :=
  mk (_id c) (name c) (host c) (port c) (username c) (fromEmail c)
     (fromName c) (dailyLimit c) v (lastResetDate c) (totalEmailsSent c)
     (emailsFailed c) (isActive c) (hourlyRateLimit c).
Definition set_lastResetDate (v : option Date) (c : t) : t :=
  mk (_id c) (name c) (host c) (port c) (username c) (fromEmail c)
     (fromName c) (dailyLimit c) (emailsSentToday c) v (totalEmailsSent c)
     (emailsFailed c) (isActive c) (hourlyRateLimit c).
Definition set_totalEmailsSent (v : Z) (c : t) : t :=
  mk (_id c) (name c) (host c) (port c) (username c) (fromEmail c)
     (fromName c) (dailyLimit c) (emailsSentToday c) (lastResetDate c) v
     (emailsFailed c) (isActive c) (hourlyRateLimit c).
Definition set_emailsFailed (v : Z) (c : t) : t :=
  mk (_id c) (name c) (host c) (port c) (username c) (fromEmail c)
     (fromName c) (dailyLimit c) (emailsSentToday c) (lastResetDate c)
     (totalEmailsSent c) v (isActive c) (hourlyRateLimit c).
End SMTPConfig.

Module EmailTemplate.
Record t := mk {
  _id : string;
  subject : string;
  body : string;
  type : string;
  trackOpens : bool
}.
End EmailTemplate.

(** ** Exceptions and results *)

Inductive Exn :=
  | JsError (msg : string)                      (* new Error(msg) *)
  | HttpException (msg : string) (code : Z)     (* incl. BadRequestException *)
  | MongoServerError (msg : string)
  | CastError (msg : string).                   (* a string that is no ObjectId *)

Definition message (e : Exn) : string :=
  match e with
  | JsError m | HttpException m _ | MongoServerError m | CastError m => m
  end.

Definition BadRequestException (msg : string) : Exn := HttpException msg 400.
Definition NOT_FOUND : Z := 404.

Inductive Result (A : Type) :=
  | Ok (a : A)
  | Throw (e : Exn).
Arguments Ok {A} a.
Arguments Throw {A} e.

(** ** Update documents

    An update document is kept as written in the source: modifier names and
    paths are strings.  Mongoose moves top-level keys without [$] into
    [$set], drops [undefined] values and, the schemas being strict, drops
    paths the schema does not have.  A key that starts with [$] and is no
    update modifier either reaches the server, which then rejects the whole
    update, or is dropped by the caster like an unknown path: which of the
    two depends on the installed Mongoose and is a parameter of the world. *)

Module Mongo.

Inductive Value :=
  | VNum (n : Z)
  | VStr (s : string)
  | VDate (d : Date)
  | VUndefined.

Definition optStr (o : option string) : Value :=
  match o with Some s => VStr s | None => VUndefined end.

Inductive Entry :=
  | Modifier (op : string) (fields : list (string * Value))
  | Plain (path : string) (v : Value).

Definition Update := list Entry.

(** What a collection's schema does with one path; [pos] is the array index
    the positional operator [$] stands for. *)
Class Schema (D : Type) := {
  setPath : option nat -> string -> Value -> D -> D;
  incPath : option nat -> string -> Z -> D -> D
}.

Definition knownModifier (op : string) : bool :=
  String.eqb op "$set" || String.eqb op "$inc" || String.eqb op "$addToSet".

Fixpoint unknownModifier (u : Update) : option string :=
  match u with
  | [] => None
  | Modifier op _ :: u' =>
      if knownModifier op then unknownModifier u' else Some op
  | Plain _ _ :: u' => unknownModifier u'
  end.

Definition applySet {D} `{Schema D} (pos : option nat) (d : D)
    (f : string * Value) : D :=
  match f.2 with
  | VUndefined => d
  | v => setPath pos f.1 v d
  end.

Definition applyInc {D} `{Schema D} (pos : option nat) (d : D)
    (f : string * Value) : D :=
  match f.2 with
  | VNum n => incPath pos f.1 n d
  | _ => d
  end.

(** No modelled schema has an array of scalars, so every [$addToSet] path
    is one the schema does not have. *)
Definition applyEntry {D} `{Schema D} (pos : option nat) (d : D) (e : Entry) : D :=
  match e with
  | Plain p v => applySet pos d (p, v)
  | Modifier op fields =>
      if String.eqb op "$set" then fold_left (applySet pos) fields d
      else if String.eqb op "$inc" then fold_left (applyInc pos) fields d
      else d
  end.

Definition applyUpdate {D} `{Schema D} (pos : option nat) (u : Update) (d : D) : D :=
  fold_left (applyEntry pos) u d.

(** The server parses the update before it looks for a document. *)
Definition checkUpdate (rejects : bool) (u : Update) : Result unit :=
  match unknownModifier u with
  | Some op =>
      if rejects then
        Throw (MongoServerError
          ("Unknown modifier: " +:+ op +:+
           ". Expected a valid update modifier or pipeline-style update specified as an array"))
      else Ok tt
  | None => Ok tt
  end.

End Mongo.

Import Mongo.

(** Index of the first array element whose [email] is [addr]: what [$]
    stands for under the filter ['emails.email': addr]. *)
Fixpoint positionOf (addr : string) (es : list CampaignEmail.t) : option nat :=
  match es with
  | [] => None
  | e :: es' =>
      if String.eqb (CampaignEmail.email e) addr then Some O
      else S <$> positionOf addr es'
  end.

Definition setEmailPath (field : string) (v : Value) (e : CampaignEmail.t)
    : CampaignEmail.t :=
  if String.eqb field "status" then
    match v with VStr s => CampaignEmail.set_status s e | _ => e end
  else if String.eqb field "sentAt" then
    match v with VDate d => CampaignEmail.set_sentAt (Some d) e | _ => e end
  else if String.eqb field "messageId" then
    match v with VStr s => CampaignEmail.set_messageId (Some s) e | _ => e end
  else if String.eqb field "error" then
    match v with VStr s => CampaignEmail.set_error (Some s) e | _ => e end
  else if String.eqb field "openedAt" then
    match v with VDate d => CampaignEmail.set_openedAt (Some d) e | _ => e end
  else if String.eqb field "clickedAt" then
    match v with VDate d => CampaignEmail.set_clickedAt (Some d) e | _ => e end
  else e.

Definition incEmailPath (field : string) (n : Z) (e : CampaignEmail.t)
    : CampaignEmail.t :=
  if String.eqb field "openCount" then
    CampaignEmail.set_openCount (CampaignEmail.openCount e + n) e
  else if String.eqb field "clickCount" then
    CampaignEmail.set_clickCount (CampaignEmail.clickCount e + n) e
  else e.

(** ["emails.$.field"] gives [Some "field"]. *)
Definition positional (path : string) : option string :=
  if String.prefix "emails.$." path then Some (Js.drop 9 path) else None.

Definition onEmail (pos : option nat) (f : CampaignEmail.t -> CampaignEmail.t)
    (c : Campaign.t) : Campaign.t :=
  match pos with
  | Some i => Campaign.set_emails (alter f i (Campaign.emails c)) c
  | None => c
  end.

Definition setCampaignPath (pos : option nat) (path : string) (v : Value)
    (c : Campaign.t) : Campaign.t :=
  match positional path with
  | Some field => onEmail pos (setEmailPath field v) c
  | None =>
      if String.eqb path "status" then
        match v with VStr s => Campaign.set_status s c | _ => c end
      else if String.eqb path "startedAt" then
        match v with VDate d => Campaign.set_startedAt (Some d) c | _ => c end
      else if String.eqb path "completedAt" then
        match v with VDate d => Campaign.set_completedAt (Some d) c | _ => c end
      else if String.eqb path "lastEmailSentAt" then
        match v with VDate d => Campaign.set_lastEmailSentAt (Some d) c | _ => c end
      else c
  end.

Definition incCampaignPath (pos : option nat) (path : string) (n : Z)
    (c : Campaign.t) : Campaign.t :=
  let k (p : string) : Z := if String.eqb path p then n else 0 in
  match positional path with
  | Some field => onEmail pos (incEmailPath field n) c
  | None =>
      Campaign.set_counters
        (Campaign.emailsSent c + k "emailsSent")
        (Campaign.emailsDelivered c + k "emailsDelivered")
        (Campaign.emailsOpened c + k "emailsOpened")
        (Campaign.emailsClicked c + k "emailsClicked")
        (Campaign.emailsReplied c + k "emailsReplied")
        (Campaign.emailsBounced c + k "emailsBounced")
        (Campaign.emailsFailed c + k "emailsFailed") c
  end.

#[export] Instance campaignSchema : Schema Campaign.t :=
  {| setPath := setCampaignPath; incPath := incCampaignPath |}.

Definition setConfigPath (pos : option nat) (path : string) (v : Value)
    (c : SMTPConfig.t) : SMTPConfig.t :=
  if String.eqb path "emailsSentToday" then
    match v with VNum n => SMTPConfig.set_emailsSentToday n c | _ => c end
  else if String.eqb path "lastResetDate" then
    match v with VDate d => SMTPConfig.set_lastResetDate (Some d) c | _ => c end
  else c.

Definition incConfigPath (pos : option nat) (path : string) (n : Z)
    (c : SMTPConfig.t) : SMTPConfig.t :=
  if String.eqb path "emailsSentToday" then
    SMTPConfig.set_emailsSentToday (SMTPConfig.emailsSentToday c + n) c
  else if String.eqb path "totalEmailsSent" then
    SMTPConfig.set_totalEmailsSent (SMTPConfig.totalEmailsSent c + n) c
  else if String.eqb path "emailsFailed" then
    SMTPConfig.set_emailsFailed (SMTPConfig.emailsFailed c + n) c
  else c.

#[export] Instance configSchema : Schema SMTPConfig.t :=
  {| setPath := setConfigPath; incPath := incConfigPath |}.

(** ** The world *)

(** Entries of [dailyStats]. *)
Record Stats := mkStats { sent : Z; failed : Z }.

(** nodemailer's [SendMailOptions], headers included. *)
Record MailOptions := mkMailOptions {
  mo_from : string;
  mo_to : string;
  mo_subject : string;
  mo_html : option string;
  mo_text : option string;
  mo_replyTo : option string;
  mo_trackingId : option string;     (* X-Tracking-ID *)
  mo_campaignId : option string      (* X-Campaign-ID *)
}.

Inductive SendMailOutcome :=
  | Accepted (messageId response : string)
  | Rejected (msg : string).

(** The SMTP server: [verify] answers the handshake (an error message when it
    fails), [sendMail] answers a message handed over at a given time. *)
Record Transport := mkTransport {
  verify : SMTPConfig.t -> option string;
  sendMail : Date -> MailOptions -> SendMailOutcome
}.

(** One constructor per logging statement of the three services. *)
Inductive LogEntry :=
  | SmtpVerified (host : string)
  | SmtpConnectionFailed (host msg : string)
  | EmailSent (to : string) (executionTime : Z) (messageId : string)
  | EmailSendFailed (to msg : string)
  | ProcessEmailFailed (email msg : string)
  | ProcessCampaignEmailFailed (email msg : string)
  | EmailOpened (email campaignId : string)
  | OpenTrackingFailed (msg : string)
  | LinkClicked (link email campaignId : string)
  | ClickTrackingFailed (msg : string).

Record World := mkWorld {
  campaignModel : gmap string Campaign.t;
  smtpConfigModel : gmap string SMTPConfig.t;
  emailTemplateModel : gmap string EmailTemplate.t;
  transportCache : gset string;              (* EmailService.transportCache keys *)
  dailyStats : gmap string Stats;            (* EmailService.dailyStats *)
  timers : list (Date * Campaign.t);         (* setTimeout: due time, captured campaign *)
  logger : list LogEntry;                    (* oldest first *)
  smtp : Transport;
  delivered : list MailOptions;              (* messages the server accepted, oldest first *)
  now : Date;
  rejectsUnknownModifier : bool              (* see Update documents *)
}.

Definition set_campaignModel (v : gmap string Campaign.t) (w : World) : World :=
  mkWorld v (smtpConfigModel w) (emailTemplateModel w) (transportCache w)
    (dailyStats w) (timers w) (logger w) (smtp w) (delivered w) (now w)
    (rejectsUnknownModifier w).
Definition set_smtpConfigModel (v : gmap string SMTPConfig.t) (w : World) : World :=
  mkWorld (campaignModel w) v (emailTemplateModel w) (transportCache w)
    (dailyStats w) (timers w) (logger w) (smtp w) (delivered w) (now w)
    (rejectsUnknownModifier w).
Definition set_transportCache (v : gset string) (w : World) : World :=
  mkWorld (campaignModel w) (smtpConfigModel w) (emailTemplateModel w) v
    (dailyStats w) (timers w) (logger w) (smtp w) (delivered w) (now w)
    (rejectsUnknownModifier w).
Definition set_dailyStats (v : gmap string Stats) (w : World) : World :=
  mkWorld (campaignModel w) (smtpConfigModel w) (emailTemplateModel w)
    (transportCache w) v (timers w) (logger w) (smtp w) (delivered w) (now w)
    (rejectsUnknownModifier w).
Definition set_timers (v : list (Date * Campaign.t)) (w : World) : World :=
  mkWorld (campaignModel w) (smtpConfigModel w) (emailTemplateModel w)
    (transportCache w) (dailyStats w) v (logger w) (smtp w) (delivered w) (now w)
    (rejectsUnknownModifier w).
Definition set_logger (v : list LogEntry) (w : World) : World :=
  mkWorld (campaignModel w) (smtpConfigModel w) (emailTemplateModel w)
    (transportCache w) (dailyStats w) (timers w) v (smtp w) (delivered w) (now w)
    (rejectsUnknownModifier w).
Definition set_delivered (v : list MailOptions) (w : World) : World :=
  mkWorld (campaignModel w) (smtpConfigModel w) (emailTemplateModel w)
    (transportCache w) (dailyStats w) (timers w) (logger w) (smtp w) v (now w)
    (rejectsUnknownModifier w).
Definition set_now (v : Date) (w : World) : World :=
  mkWorld (campaignModel w) (smtpConfigModel w) (emailTemplateModel w)
    (transportCache w) (dailyStats w) (timers w) (logger w) (smtp w)
    (delivered w) v (rejectsUnknownModifier w).

(** ** Computations: state and exceptions

    A thrown exception keeps the writes made before it.  The database always
    answers; only [sleep] and a timer that comes due move the clock. *)

Definition M (A : Type) : Type := World -> Result A * World.

Definition ret {A} (a : A) : M A := fun w => (Ok a, w).

Definition bind {A B} (m : M A) (k : A -> M B) : M B :=
  fun w =>
    match m w with
    | (Ok a, w') => k a w'
    | (Throw e, w') => (Throw e, w')
    end.

Definition throw {A} (e : Exn) : M A := fun w => (Throw e, w).

(** [try { body } catch (error) { handler(error) }] *)
Definition tryCatch {A} (body : M A) (handler : Exn -> M A) : M A :=
  fun w =>
    match body w with
    | (Ok a, w') => (Ok a, w')
    | (Throw e, w') => handler e w'
    end.

Definition gets {A} (f : World -> A) : M A := fun w => (Ok (f w), w).
Definition modify (f : World -> World) : M unit := fun w => (Ok tt, f w).
Definition liftResult {A} (r : Result A) : M A := fun w => (r, w).

(** The world a computation leaves, whether it returned or threw. *)
Definition exec {A} (m : M A) (w : World) : World := (m w).2.

Notation "x <- m ;; k" := (bind m (fun x => k))
  (at level 100, m at next level, k at level 200, right associativity).
Notation "m ;; k" := (bind m (fun _ => k))
  (at level 100, k at level 200, right associativity).

Definition Date_now : M Date := gets now.
Definition log (e : LogEntry) : M unit :=
  modify (fun w => set_logger (logger w ++ [e]) w).
(** [await new Promise(resolve => setTimeout(resolve, ms))] *)
Definition sleep (ms : Z) : M unit := modify (fun w => set_now (now w + ms) w).

(** ** ObjectIds

    Ids are kept as their 24-digit hexadecimal strings.  [new
    Types.ObjectId(s)] and the cast of a string in a query filter throw on any
    other string. *)

Definition isHexDigit (c : ascii) : bool :=
  let n := nat_of_ascii c in
  ((48 <=? n) && (n <=? 57) || (65 <=? n) && (n <=? 70)
   || (97 <=? n) && (n <=? 102))%nat.

Fixpoint allHex (s : string) : bool :=
  match s with
  | EmptyString => true
  | String c s' => isHexDigit c && allHex s'
  end.

Definition isObjectId (s : string) : bool :=
  (String.length s =? 24)%nat && allHex s.

Definition checkUpdateM (u : Update) : M unit :=
  rejects <- gets rejectsUnknownModifier ;;
  liftResult (checkUpdate rejects u).

Definition castObjectId (s : string) : M unit :=
  if isObjectId s then ret tt
  else throw (CastError ("Cast to ObjectId failed for value " +:+ s)).

(** ** Mongoose models

    Every query of the modelled methods selects by [_id]; a collection is a
    map from [_id] to document. *)

Module SmtpConfigModel.
Definition findById (id : string) : M (option SMTPConfig.t) :=
  gets (fun w => smtpConfigModel w !! id).

(** [updateOne({ _id: id }, u)] *)
Definition updateOne (id : string) (u : Update) : M unit :=
  checkUpdateM u ;;
  modify (fun w =>
    set_smtpConfigModel (alter (applyUpdate None u) id (smtpConfigModel w)) w).
End SmtpConfigModel.

Module EmailTemplateModel.
Definition findById (id : string) : M (option EmailTemplate.t) :=
  gets (fun w => emailTemplateModel w !! id).
End EmailTemplateModel.

Module CampaignModel.
(** [{ _id, userId?, status?, 'emails.email'? }] *)
Record Filter := mkFilter {
  by_id : string;
  by_userId : option string;
  by_status : option string;
  by_email : option string
}.

Definition byId (id : string) : Filter := mkFilter id None None None.

Definition holds (o : option string) (actual : string) : bool :=
  match o with Some v => String.eqb actual v | None => true end.

Definition matches (f : Filter) (c : Campaign.t) : bool :=
  holds (by_userId f) (Campaign.userId c)
  && holds (by_status f) (Campaign.status c)
  && match by_email f with
     | Some addr => bool_decide (is_Some (positionOf addr (Campaign.emails c)))
     | None => true
     end.

Definition position (f : Filter) (c : Campaign.t) : option nat :=
  match by_email f with
  | Some addr => positionOf addr (Campaign.emails c)
  | None => None
  end.

Definition select (f : Filter) (w : World) : option Campaign.t :=
  match campaignModel w !! by_id f with
  | Some c => if matches f c then Some c else None
  | None => None
  end.

Definition findOne (f : Filter) : M (option Campaign.t) := gets (select f).
Definition findById (id : string) : M (option Campaign.t) := findOne (byId id).

(** The matched document after the update, and the collection holding it. *)
Definition findOneAndUpdate (f : Filter) (u : Update) : M (option Campaign.t) :=
  checkUpdateM u ;;
  found <- findOne f ;;
  match found with
  | Some c =>
      let c' := applyUpdate (position f c) u c in
      modify (fun w => set_campaignModel (<[by_id f := c']> (campaignModel w)) w) ;;
      ret (Some c')
  | None => ret None
  end.

Definition findByIdAndUpdate (id : string) (u : Update) : M (option Campaign.t) :=
  findOneAndUpdate (byId id) u.

Definition updateOne (f : Filter) (u : Update) : M unit :=
  findOneAndUpdate f u ;; ret tt.
End CampaignModel.

(** ** EmailService (src/email/email.service.ts) *)

Record EmailOptions := mkEmailOptions {
  to : string;
  subject : string;
  html : option string;
  text : option string;
  from : option string;
  replyTo : option string;
  trackingId : option string
}.

Record SendEmailResult := mkSendEmailResult {
  success : bool;
  messageId : option string;
  error : option string;
  status : string;
  response : option string
}.

Module EmailService.

Definition cacheKey (config : SMTPConfig.t) : string :=
  SMTPConfig.host config +:+ ":" +:+ pretty (SMTPConfig.port config) +:+ ":"
  +:+ SMTPConfig.username config.

(** The transporter is the server reached with [config]; only the cache
    entry is state. *)
Definition getTransporter (config : SMTPConfig.t) : M unit :=
  cached <- gets (fun w => bool_decide (cacheKey config ∈ transportCache w)) ;;
  if cached then ret tt
  else
    answer <- gets (fun w => verify (smtp w) config) ;;
    match answer with
    | None =>
        log (SmtpVerified (SMTPConfig.host config)) ;;
        modify (fun w => set_transportCache ({[cacheKey config]} ∪ transportCache w) w)
    | Some msg =>
        log (SmtpConnectionFailed (SMTPConfig.host config) msg) ;;
        throw (JsError msg)
    end.

(** The ['close'] handler registered by [getTransporter]. *)
Definition onClose (config : SMTPConfig.t) (w : World) : World :=
  set_transportCache (transportCache w ∖ {[cacheKey config]}) w.

Definition hourlyKey (configId : string) (d : Date) : string :=
  configId +:+ ":" +:+ pretty (getHours d).

(** [lastReset.toDateString() !== now.toDateString()] *)
Definition isNewDay (config : SMTPConfig.t) (now : Date) : bool :=
  let lastReset := default (startOfDay now) (SMTPConfig.lastResetDate config) in
  negb (toDateString lastReset =? toDateString now).

(** [this.dailyStats.get(hourlyKey)?.sent || 0] *)
Definition hourlyCount (configId : string) (w : World) : Z :=
  Js.or_number (sent <$> dailyStats w !! hourlyKey configId (now w)) 0.

Definition dailyLimitReached (config : SMTPConfig.t) : bool :=
  (0 <? SMTPConfig.dailyLimit config)
  && (SMTPConfig.dailyLimit config <=? SMTPConfig.emailsSentToday config).

Definition dailyLimitMessage (config : SMTPConfig.t) : string :=
  "Daily email limit (" +:+ pretty (SMTPConfig.dailyLimit config)
  +:+ ") exceeded for " +:+ SMTPConfig.name config.

Definition hourlyLimitMessage (config : SMTPConfig.t) : string :=
  "Hourly rate limit (" +:+ pretty (SMTPConfig.hourlyRateLimit config)
  +:+ ") exceeded for " +:+ SMTPConfig.name config.

Definition resetUpdate (now : Date) : Update :=
  [Plain "emailsSentToday" (VNum 0); Plain "lastResetDate" (VDate now)].

Definition checkAndUpdateRateLimit (config : SMTPConfig.t) : M unit :=
  now <- Date_now ;;
  (* Reset daily counter if it's a new day *)
  (if isNewDay config now then
     SmtpConfigModel.updateOne (SMTPConfig._id config) (resetUpdate now)
   else ret tt) ;;
  (* Check daily limit *)
  if dailyLimitReached config then throw (JsError (dailyLimitMessage config))
  else
    (* Check hourly rate limit *)
    hourlyCount <- gets (hourlyCount (SMTPConfig._id config)) ;;
    if (0 <? SMTPConfig.hourlyRateLimit config)
       && (SMTPConfig.hourlyRateLimit config <=? hourlyCount)
    then throw (JsError (hourlyLimitMessage config))
    else ret tt.

Definition statsUpdate (success : bool) : Update :=
  [Modifier "$inc"
     ([("emailsSentToday", VNum 1); ("totalEmailsSent", VNum 1)]
      ++ if success then [] else [("emailsFailed", VNum 1)])].

Definition updateSMTPStats (configId : string) (success : bool) : M unit :=
  castObjectId configId ;;
  SmtpConfigModel.updateOne configId (statsUpdate success).

Definition updateDailyStats (configId : string) (success : bool) : M unit :=
  modify (fun w =>
    let key := hourlyKey configId (now w) in
    let stats := default (mkStats 0 0) (dailyStats w !! key) in
    let stats' :=
      if success then mkStats (sent stats + 1) (failed stats)
      else mkStats (sent stats) (failed stats + 1) in
    set_dailyStats (<[key := stats']> (dailyStats w)) w).

(** The callback of [scheduleDailyReset], run at midnight. *)
Definition dailyReset (w : World) : World := set_dailyStats ∅ w.

Definition mailOptions (config : SMTPConfig.t) (o : EmailOptions) : MailOptions :=
  mkMailOptions
    (Js.or_string (default EmptyString (from o))
       (Js.dquote +:+ SMTPConfig.fromName config +:+ Js.dquote +:+ " <"
        +:+ SMTPConfig.fromEmail config +:+ ">"))
    (to o) (subject o) (html o) (text o) (replyTo o)
    (match trackingId o with
     | Some t => if String.eqb t EmptyString then None else Some t
     | None => None
     end)
    (match trackingId o with
     | Some t => if String.eqb t EmptyString then None else head (Js.split "_" t)
     | None => None
     end).

(** [transporter.sendMail(mailOptions)] *)
Definition transporterSendMail (m : MailOptions) : M (string * string) :=
  answer <- gets (fun w => sendMail (smtp w) (now w) m) ;;
  match answer with
  | Accepted messageId response =>
      modify (fun w => set_delivered (delivered w ++ [m]) w) ;;
      ret (messageId, response)
  | Rejected msg => throw (JsError msg)
  end.

(** The [try] block of [sendEmail]. *)
Definition sendEmail_try (startTime : Date) (smtpConfigId : string)
    (emailOptions : EmailOptions) : M SendEmailResult :=
  castObjectId smtpConfigId ;;     (* the id arrives as a string *)
  config <- SmtpConfigModel.findById smtpConfigId ;;
  match config with
  | None => throw (JsError "SMTP configuration not found or inactive")
  | Some config =>
      if negb (SMTPConfig.isActive config) then
        throw (JsError "SMTP configuration not found or inactive")
      else
        (* Rate limiting check *)
        checkAndUpdateRateLimit config ;;
        getTransporter config ;;
        info <- transporterSendMail (mailOptions config emailOptions) ;;
        finished <- Date_now ;;
        (* Update statistics *)
        updateSMTPStats (SMTPConfig._id config) true ;;
        updateDailyStats (SMTPConfig._id config) true ;;
        log (EmailSent (to emailOptions) (finished - startTime) info.1) ;;
        ret (mkSendEmailResult true (Some info.1) None "sent" (Some info.2))
  end.

(** The [catch] block of [sendEmail]: every exception of the [try] block,
    a refused admission included, ends here. *)
Definition sendEmail_catch (smtpConfigId : string) (emailOptions : EmailOptions)
    (error : Exn) : M SendEmailResult :=
  log (EmailSendFailed (to emailOptions) (message error)) ;;
  (* Update failure statistics *)
  (if String.eqb smtpConfigId EmptyString then ret tt
   else updateSMTPStats smtpConfigId false ;;
        updateDailyStats smtpConfigId false) ;;
  ret (mkSendEmailResult false None (Some (message error)) "failed" None).

Definition sendEmail (smtpConfigId : string) (emailOptions : EmailOptions)
    : M SendEmailResult :=
  startTime <- Date_now ;;
  tryCatch (sendEmail_try startTime smtpConfigId emailOptions)
    (sendEmail_catch smtpConfigId emailOptions).

(** The stored daily counter of a configuration. *)
Definition sentToday (configId : string) (w : World) : option Z :=
  SMTPConfig.emailsSentToday <$> smtpConfigModel w !! configId.

(** [escapeRegExp] makes the pattern match the placeholder literally. *)
Definition placeholder (key : string) : string := "{{" +:+ key +:+ "}}".

(** [personalizeTemplate]: subject and body.  [pixel] is what
    [generateTrackingPixel] returns (an [img] tag around an MD5 digest); the
    derived plain text is not modelled. *)
Definition personalizeTemplate (template : EmailTemplate.t)
    (variables : list (string * string)) (pixel : string) : string * string :=
  let replaced :=
    fold_left
      (fun (sb : string * string) (kv : string * string) =>
         let value := Js.or_string kv.2 EmptyString in
         (Js.replaceAll (placeholder kv.1) value sb.1,
          Js.replaceAll (placeholder kv.1) value sb.2))
      variables (EmailTemplate.subject template, EmailTemplate.body template) in
  (* Add tracking for HTML emails *)
  if String.eqb (EmailTemplate.type template) "html" && EmailTemplate.trackOpens template
  then (replaced.1, replaced.2 +:+ pixel)
  else replaced.

Definition trackingIdOf (campaignId email : string) (now : Date) : string :=
  campaignId +:+ "_" +:+ email +:+ "_" +:+ pretty now.

Definition updateCampaignEmailStatus (campaignId email status : string)
    (messageId error : option string) : M unit :=
  castObjectId campaignId ;;
  let nonEmpty (o : option string) :=
    match o with
    | Some s => if String.eqb s EmptyString then VUndefined else VStr s
    | None => VUndefined
    end in
  now <- Date_now ;;
  CampaignModel.updateOne
    (CampaignModel.mkFilter campaignId None None (Some email))
    [Modifier "$set"
       ([("emails.$.status", VStr status);
         ("emails.$.messageId", nonEmpty messageId);
         ("emails.$.error", nonEmpty error)]
        ++ if String.eqb status "sent" then [("emails.$.sentAt", VDate now)] else []);
     Modifier "$inc"
       (if String.eqb status "sent" then [("emailsSent", VNum 1)]
        else if String.eqb status "failed" then [("emailsFailed", VNum 1)]
        else [])].

Definition processCampaignEmail (campaignId : string) (emailData : CampaignEmail.t)
    (template : EmailTemplate.t) (smtpConfig : SMTPConfig.t) (pixel : string)
    : M SendEmailResult :=
  tryCatch
    (let content :=
       personalizeTemplate template (CampaignEmail.variables emailData) pixel in
     now <- Date_now ;;
     result <- sendEmail (SMTPConfig._id smtpConfig)
       (mkEmailOptions (CampaignEmail.email emailData) content.1 (Some content.2)
          None None None
          (Some (trackingIdOf campaignId (CampaignEmail.email emailData) now))) ;;
     updateCampaignEmailStatus campaignId (CampaignEmail.email emailData)
       (if success result then "sent" else "failed")
       (messageId result) (error result) ;;
     ret result)
    (fun err =>
       log (ProcessCampaignEmailFailed (CampaignEmail.email emailData) (message err)) ;;
       updateCampaignEmailStatus campaignId (CampaignEmail.email emailData)
         "failed" None (Some (message err)) ;;
       ret (mkSendEmailResult false None (Some (message err)) "failed" None)).

Definition escapeRegExp (s : string) : string := Js.escapeSpecials s.

(** One attempt of [/{{(\w+)}}/] at the start of [s]: the captured name and
    the length of the match.  The greedy [\w+] takes the whole run of word
    characters; giving characters back cannot help, since a closing brace
    is no word character. *)
Definition matchVariable (s : string) : option (string * nat) :=
  match s with
  | String "{" (String "{" r) =>
      let run := Js.wordPrefix r in
      match run.1, run.2 with
      | String _ _, String "}" (String "}" _) =>
          Some (run.1, (4 + String.length run.1)%nat)
      | _, _ => None
      end
  | _ => None
  end.

(** The [while ((match = variableRegex.exec(text)) !== null)] loop: the
    captures of the successive matches, left to right.  [skip] is the number
    of characters of the current match still to pass. *)
Fixpoint variableMatches (skip : nat) (s : string) : list string :=
  match s with
  | EmptyString => []
  | String _ s' =>
      match skip with
      | S k => variableMatches k s'
      | O =>
          match matchVariable s with
          | Some (name, n) => name :: variableMatches (n - 1) s'
          | None => variableMatches O s'
          end
      end
  end.

(** [variables.add(name)] on a [Set] kept in insertion order. *)
Definition setAdd (seen : list string) (name : string) : list string :=
  if bool_decide (name ∈ seen) then seen else seen ++ [name].

Definition extractVariablesFromTemplate (body subject : string) : list string :=
  fold_left setAdd (variableMatches O (body +:+ subject)) [].

End EmailService.

(** ** CampaignService (campaign.service.ts) *)

Module CampaignService.

Definition personalizeTemplate (template : string)
    (variables : list (string * string)) : string :=
  fold_left
    (fun (result : string) (kv : string * string) =>
       Js.replaceAll (EmailService.placeholder kv.1)
         (Js.or_string kv.2 EmptyString) result)
    variables template.

Definition isPending (e : CampaignEmail.t) : bool :=
  String.eqb (CampaignEmail.status e) "pending".

Definition recipientFilter (campaign : Campaign.t) (email : CampaignEmail.t)
    : CampaignModel.Filter :=
  CampaignModel.mkFilter (Campaign._id campaign) None None
    (Some (CampaignEmail.email email)).

(** The options object handed to [sendEmail] for one recipient. *)
Definition emailOptionsFor (campaign : Campaign.t) (template : option EmailTemplate.t)
    (email : CampaignEmail.t) (issued : Date) : EmailOptions :=
  let content :=
    match template with
    | Some t =>
        (* Personalize template *)
        (personalizeTemplate (EmailTemplate.subject t) (CampaignEmail.variables email),
         personalizeTemplate (EmailTemplate.body t) (CampaignEmail.variables email))
    | None => ("Default Subject", "Default email body")
    end in
  mkEmailOptions (CampaignEmail.email email) content.1 (Some content.2)
    None None None
    (Some (EmailService.trackingIdOf (Campaign._id campaign)
             (CampaignEmail.email email) issued)).

(** The update that records the result of a send. *)
Definition resultUpdate (result : SendEmailResult) (now : Date) : Update :=
  [Modifier "$set"
     [("emails.$.status", VStr (if success result then "sent" else "failed"));
      ("emails.$.sentAt", VDate now);
      ("emails.$.messageId", optStr (messageId result));
      ("emails.$.error", optStr (error result))];
   Modifier "$inc"
     (("emailsSent", VNum 1)
      :: if success result then [("emailsDelivered", VNum 1)]
         else [("emailsFailed", VNum 1)]);
   Plain "lastEmailSentAt" (VDate now)].

(** The update of the [catch] block. *)
Definition failureUpdate (err : Exn) : Update :=
  [Modifier "$set"
     [("emails.$.status", VStr "failed"); ("emails.$.error", VStr (message err))];
   Modifier "$inc" [("emailsFailed", VNum 1)]].

(** The [try]/[catch] of one loop iteration; returns [emailsSentThisHour]
    as the iteration leaves it. *)
Definition processOne (campaign : Campaign.t) (template : option EmailTemplate.t)
    (smtpConfig : SMTPConfig.t) (delay emailsSentThisHour : Z)
    (email : CampaignEmail.t) : M Z :=
  tryCatch
    (issued <- Date_now ;;
     result <- EmailService.sendEmail (SMTPConfig._id smtpConfig)
                 (emailOptionsFor campaign template email issued) ;;
     (* Update email status *)
     now <- Date_now ;;
     CampaignModel.updateOne (recipientFilter campaign email)
       (resultUpdate result now) ;;
     (* Rate limiting delay *)
     (if 0 <? delay then sleep delay else ret tt) ;;
     ret (emailsSentThisHour + 1))
    (fun err =>
       log (ProcessEmailFailed (CampaignEmail.email email) (message err)) ;;
       CampaignModel.updateOne (recipientFilter campaign email)
         (failureUpdate err) ;;
       ret emailsSentThisHour).

(** [for (const email of pendingEmails)].  The loop awaits inside every
    iteration; [others] lists, iteration by iteration, what other request
    handlers do to the world meanwhile. *)
Fixpoint dispatch (others : list (World -> World)) (campaign : Campaign.t)
    (template : option EmailTemplate.t) (smtpConfig : SMTPConfig.t)
    (delay maxPerHour emailsSentThisHour : Z)
    (pendingEmails : list CampaignEmail.t) : M unit :=
  match pendingEmails with
  | [] => ret tt
  | email :: rest =>
      (* Check hourly limit *)
      if maxPerHour <=? emailsSentThisHour then
        (* Schedule next batch for next hour *)
        modify (fun w =>
          let delayMs := startOfNextHour (now w) - now w in
          set_timers (timers w ++ [(now w + delayMs, campaign)]) w)
      else
        n <- processOne campaign template smtpConfig delay emailsSentThisHour email ;;
        modify (hd id others) ;;
        dispatch (tl others) campaign template smtpConfig delay maxPerHour n rest
  end.

Definition complete (campaignId : string) : M unit :=
  now <- Date_now ;;
  CampaignModel.findByIdAndUpdate campaignId
    [Plain "status" (VStr "completed"); Plain "completedAt" (VDate now)] ;;
  ret tt.

Definition processCampaignEmails (others : list (World -> World))
    (campaign : Campaign.t) : M unit :=
  (* Get pending emails *)
  let pendingEmails := List.filter isPending (Campaign.emails campaign) in
  match pendingEmails with
  | [] => complete (Campaign._id campaign)
  | _ :: _ =>
      (* Get template and SMTP config *)
      template <- match Campaign.templateId campaign with
                  | Some id => EmailTemplateModel.findById id
                  | None => ret None
                  end ;;
      smtpConfig <- SmtpConfigModel.findById (Campaign.smtpConfigId campaign) ;;
      match smtpConfig with
      | None => throw (BadRequestException "SMTP configuration not found")
      | Some smtpConfig =>
          (* Process emails with rate limiting *)
          let settings := default Settings.empty (Campaign.settings campaign) in
          let delay := Js.or_number (Settings.delayBetweenEmails settings) 1000 in
          let maxPerHour := Js.or_number (Settings.maxEmailsPerHour settings) 100 in
          dispatch others campaign template smtpConfig delay maxPerHour 0
            pendingEmails ;;
          (* Check if all emails are processed *)
          updatedCampaign <- CampaignModel.findById (Campaign._id campaign) ;;
          match updatedCampaign with
          | Some updated =>
              match List.filter isPending (Campaign.emails updated) with
              | [] => complete (Campaign._id campaign)
              | _ :: _ => ret tt
              end
          | None => ret tt
          end
      end
  end.

(** The oldest pending [setTimeout] callback comes due and runs. *)
Definition fireTimer (others : list (World -> World)) : M unit :=
  pending <- gets timers ;;
  match pending with
  | [] => ret tt
  | (due, campaign) :: rest =>
      modify (fun w => set_now (Z.max (now w) due) (set_timers rest w)) ;;
      processCampaignEmails others campaign
  end.

Definition startCampaign (others : list (World -> World))
    (campaignId userId : string) : M unit :=
  castObjectId campaignId ;;
  castObjectId userId ;;
  campaign <- CampaignModel.findOne
                (CampaignModel.mkFilter campaignId (Some userId) None None) ;;
  match campaign with
  | None => throw (HttpException "Campaign not found" NOT_FOUND)
  | Some campaign =>
      if negb (String.eqb (Campaign.status campaign) "draft")
         && negb (String.eqb (Campaign.status campaign) "paused")
      then
        throw (BadRequestException
                 ("Campaign cannot be started from " +:+ Campaign.status campaign
                  +:+ " status"))
      else
        (* Update campaign status *)
        now <- Date_now ;;
        updatedCampaign <- CampaignModel.findByIdAndUpdate campaignId
          [Plain "status" (VStr "running"); Plain "startedAt" (VDate now)] ;;
        match updatedCampaign with
        | None => throw (HttpException "Campaign not found after update" NOT_FOUND)
        | Some updatedCampaign =>
            (* Start sending emails *)
            processCampaignEmails others updatedCampaign
        end
  end.

Definition pauseCampaign (campaignId userId : string) : M unit :=
  castObjectId campaignId ;;
  castObjectId userId ;;
  campaign <- CampaignModel.findOneAndUpdate
                (CampaignModel.mkFilter campaignId (Some userId) (Some "running") None)
                [Plain "status" (VStr "paused")] ;;
  match campaign with
  | None => throw (HttpException "Campaign not found or not running" NOT_FOUND)
  | Some _ => ret tt
  end.

Definition resumeCampaign (others : list (World -> World))
    (campaignId userId : string) : M unit :=
  castObjectId campaignId ;;
  castObjectId userId ;;
  campaign <- CampaignModel.findOneAndUpdate
                (CampaignModel.mkFilter campaignId (Some userId) (Some "paused") None)
                [Plain "status" (VStr "running")] ;;
  match campaign with
  | None => throw (HttpException "Campaign not found or not paused" NOT_FOUND)
  | Some campaign =>
      (* Resume processing *)
      processCampaignEmails others campaign
  end.

Definition escapeRegExp (s : string) : string := Js.escapeSpecials s.

(** [updateCampaign]; [set] is what [{ $set: updates }] makes of the
    document, and the answer is the document the response is built from. *)
Definition updateCampaign (campaignId userId : string)
    (set : Campaign.t -> Campaign.t) : M Campaign.t :=
  (* Don't allow updates to running campaigns *)
  castObjectId campaignId ;;
  castObjectId userId ;;
  current <- CampaignModel.findOne
               (CampaignModel.mkFilter campaignId (Some userId) None None) ;;
  match current with
  | None => throw (HttpException "Campaign not found" NOT_FOUND)
  | Some current =>
      if String.eqb (Campaign.status current) "running" then
        throw (BadRequestException "Cannot update a running campaign")
      else
        campaign <- CampaignModel.findOne
                      (CampaignModel.mkFilter campaignId (Some userId) None None) ;;
        match campaign with
        | None => throw (HttpException "Campaign not found" NOT_FOUND)
        | Some campaign =>
            modify (fun w =>
              set_campaignModel (<[campaignId := set campaign]> (campaignModel w)) w) ;;
            ret (set campaign)
        end
  end.

Definition deleteCampaign (campaignId userId : string) : M unit :=
  castObjectId campaignId ;;
  castObjectId userId ;;
  found <- CampaignModel.findOne
             (CampaignModel.mkFilter campaignId (Some userId) None None) ;;
  match found with
  | Some _ =>
      modify (fun w => set_campaignModel (delete campaignId (campaignModel w)) w)
  | None => throw (HttpException "Campaign not found" NOT_FOUND)
  end.

End CampaignService.

(** ** TrackingService and TrackingController (src/tracking) *)

Record TrackResult := mkTrackResult { ok : bool }.   (* { success: boolean } *)

Module TrackingService.

Definition parseTrackingId (trackingId : string) : Result (string * string) :=
  match Js.split "_" trackingId with
  | campaignId :: email :: _ :: _ => Ok (campaignId, email)
  | _ => Throw (JsError "invalid id format")
  end.

Definition recipientFilter (campaignId email : string) : CampaignModel.Filter :=
  CampaignModel.mkFilter campaignId None None (Some email).

Definition trackOpen (trackingId : string) : M TrackResult :=
  tryCatch
    (ids <- liftResult (parseTrackingId trackingId) ;;
     now <- Date_now ;;
     castObjectId ids.1 ;;
     CampaignModel.updateOne (recipientFilter ids.1 ids.2)
       [Modifier "$Inc"
          [("emailsOpened", VNum 1); ("emails.$.openCount", VNum 1)];
        Modifier "$set"
          [("emails.$.openedAt", VDate now); ("emails.$.status", VStr "opened")]] ;;
     log (EmailOpened ids.2 ids.1) ;;
     ret (mkTrackResult true))
    (fun error =>
       log (OpenTrackingFailed (message error)) ;;
       ret (mkTrackResult false)).

Definition trackingClick (trackingId link : string) : M TrackResult :=
  tryCatch
    (ids <- liftResult (parseTrackingId trackingId) ;;
     now <- Date_now ;;
     castObjectId ids.1 ;;
     CampaignModel.updateOne (recipientFilter ids.1 ids.2)
       [Modifier "$inc" [("emailsClicked", VNum 1)];
        Modifier "$set"
          [("emails.$.clickedAt", VDate now); ("emails.$.clickLinks", VStr link)];
        Modifier "$addToSet" [("email.$.clickLinks", VStr link)]] ;;
     log (LinkClicked link ids.2 ids.1) ;;
     ret (mkTrackResult true))
    (fun error =>
       log (ClickTrackingFailed (message error)) ;;
       ret (mkTrackResult false)).

Definition trackReply (email campaignId : string) : M unit :=
  now <- Date_now ;;
  castObjectId campaignId ;;
  CampaignModel.updateOne (recipientFilter campaignId email)
    [Modifier "$inc" [("emailsReplied", VNum 1)];
     Modifier "$set"
       [("emails.$,repliedAt", VDate now); ("emails.$.status", VStr "replied")]].

End TrackingService.

Module TrackingController.

Definition trackOpen (trackingId : string) : M TrackResult :=
  TrackingService.trackOpen trackingId.

Definition trackClick (trackingId link : string) : M TrackResult :=
  TrackingService.trackingClick trackingId link.

Definition trackReply (email campaignId : string) : M TrackResult :=
  TrackingService.trackReply email campaignId ;;
  ret (mkTrackResult true).

End TrackingController.

(** ** Observations *)

(** The recipients of the [sendEmail] calls a log records, oldest first:
    [sendEmail] logs each call exactly once, as sent or as failed. *)
Definition attempted (entry : LogEntry) : option string :=
  match entry with
  | EmailSent to _ _ | EmailSendFailed to _ => Some to
  | _ => None
  end.

Definition attempts (entries : list LogEntry) : list string :=
  omap attempted entries.

(** A handler that writes nothing to the log. *)
Definition keepsLog (f : World -> World) : Prop :=
  forall w, logger (f w) = logger w.

(** A handler that schedules and cancels nothing. *)
Definition keepsTimers (f : World -> World) : Prop :=
  forall w, timers (f w) = timers w.

(** A handler that leaves the clock. *)
Definition keepsClock (f : World -> World) : Prop :=
  forall w, now (f w) = now w.

(** A handler that writes no campaign. *)
Definition keepsCampaigns (f : World -> World) : Prop :=
  forall w, campaignModel (f w) = campaignModel w.

(** A handler that writes no SMTP configuration. *)
Definition keepsConfigs (f : World -> World) : Prop :=
  forall w, smtpConfigModel (f w) = smtpConfigModel w.

(** The campaigns after [updateOne({ _id: cid, 'emails.email': addr }, u)]
    for an update [u] of known modifiers: the campaign [cid], when it has a
    recipient with the address, is updated at the first such recipient. *)
Definition writeRecipient (cid addr : string) (u : Update)
    (m : gmap string Campaign.t) : gmap string Campaign.t :=
  match m !! cid with
  | Some c =>
      match positionOf addr (Campaign.emails c) with
      | Some p => <[cid := applyUpdate (Some p) u c]> m
      | None => m
      end
  | None => m
  end.

(** The campaigns after [findByIdAndUpdate(cid, { status: 'completed',
    completedAt: d })]. *)
Definition writeCompleted (cid : string) (d : Date)
    (m : gmap string Campaign.t) : gmap string Campaign.t :=
  match m !! cid with
  | Some c =>
      <[cid := Campaign.set_completedAt (Some d) (Campaign.set_status "completed" c)]> m
  | None => m
  end.

(** The pause of the loop after a send. *)
Definition pauseAfterSend (delay : Z) : Z := if 0 <? delay then delay else 0.

(** What [sendEmail] never writes. *)
Definition untouchedBySend (w w' : World) : Prop :=
  campaignModel w' = campaignModel w
  /\ emailTemplateModel w' = emailTemplateModel w
  /\ timers w' = timers w
  /\ smtp w' = smtp w
  /\ rejectsUnknownModifier w' = rejectsUnknownModifier w
  /\ now w' = now w.

(** ** Sample worlds

    Concrete documents on which the methods are run below. *)

Module Sample.

Definition campaignId : string := "64b0000000000000000000c1".
Definition userId : string := "64b0000000000000000000a1".
Definition smtpConfigId : string := "64b0000000000000000000f1".

Definition recipient (address status : string) : CampaignEmail.t :=
  CampaignEmail.mk address EmptyString [] status None None None None None 0 0.

(** What [createCampaign] stores for the given addresses. *)
Definition draft (settings : option Settings.t) (addresses : list string)
    : Campaign.t :=
  Campaign.mk campaignId userId "launch" smtpConfigId None
    (map (fun a => recipient a "pending") addresses)
    "draft" None None (Z.of_nat (length addresses)) 0 0 0 0 0 0 0 settings None.

Definition config (dailyLimit emailsSentToday : Z) (lastResetDate : option Date)
    : SMTPConfig.t :=
  SMTPConfig.mk smtpConfigId "main" "smtp.example.com" 587 "mailer"
    "news@example.com" "News" dailyLimit emailsSentToday lastResetDate
    0 0 true 100.

(** A server that accepts every message. *)
Definition accepting : Transport :=
  mkTransport (fun _ => None)
    (fun _ m => Accepted ("<" +:+ mo_to m +:+ ">") "250 OK").

(** A server that refuses every message. *)
Definition refusing : Transport :=
  mkTransport (fun _ => None) (fun _ _ => Rejected "550 mailbox unavailable").

Definition world (campaign : Campaign.t) (cfg : SMTPConfig.t)
    (server : Transport) (now : Date) (rejects : bool) : World :=
  mkWorld {[campaignId := campaign]} {[smtpConfigId := cfg]} ∅ ∅ ∅ [] []
    server [] now rejects.

(** The same campaign once started. *)
Definition running (settings : option Settings.t) (addresses : list string)
    : Campaign.t :=
  Campaign.set_startedAt (Some 0)
    (Campaign.set_status "running" (draft settings addresses)).


Definition statuses (w : World) : option (list string) :=
  (fun c => map CampaignEmail.status (Campaign.emails c))
    <$> campaignModel w !! campaignId.

Definition campaignStatus (w : World) : option string :=
  Campaign.status <$> campaignModel w !! campaignId.

End Sample.

(** * Properties *)

(** ** Strings *)

Lemma append_nil_l (b : string) : EmptyString +:+ b = b.
Proof. reflexivity. Qed.

Lemma append_cons (x : ascii) (a b : string) :
  String x a +:+ b = String x (a +:+ b).
Proof. reflexivity. Qed.

Ltac push_append := rewrite ?append_cons, ?append_nil_l.

Lemma append_assoc (a b c : string) : (a +:+ b) +:+ c = a +:+ (b +:+ c).
Proof.
  induction a as [|x a IH]; push_append; [reflexivity | now rewrite IH].
Qed.


Lemma split_not_nil (sep : ascii) (s : string) : Js.split sep s <> [].
Proof.
  induction s as [|c s IH]; simpl; [discriminate |].
  destruct (Ascii.eqb c sep); [discriminate |].
  destruct (Js.split sep s); discriminate.
Qed.

(** A part free of the separator, followed by the separator, is the first
    part of the split. *)
Lemma split_first_part (sep : ascii) (a rest : string) :
  Js.has_char sep a = false ->
  Js.split sep (a +:+ String sep rest) = a :: Js.split sep rest.
Proof.
  induction a as [|c a IH]; push_append; simpl; intros Hfree.
  - now rewrite Ascii.eqb_refl.
  - apply orb_false_iff in Hfree as [Hc Ha].
    rewrite Hc, (IH Ha). reflexivity.
Qed.

Lemma parse_of_three_parts (campaignId email rest : string) :
  Js.has_char "_" campaignId = false ->
  Js.has_char "_" email = false ->
  TrackingService.parseTrackingId
    (campaignId +:+ "_" +:+ email +:+ "_" +:+ rest) = Ok (campaignId, email).
Proof.
  intros Hc He. unfold TrackingService.parseTrackingId.
  push_append.
  rewrite (split_first_part _ _ _ Hc), (split_first_part _ _ _ He).
  pose proof (split_not_nil "_" rest) as Hne.
  destruct (Js.split "_" rest); [contradiction | reflexivity].
Qed.

(** C7: a token built from a campaign id and an address that hold no
    underscore parses back to that campaign id and address, for the
    timestamp the dispatch loop appends and for any other third segment. *)
Theorem tracking_token_round_trip (campaignId email : string) :
  Js.has_char "_" campaignId = false ->
  Js.has_char "_" email = false ->
  (forall issuedAt : Date,
     TrackingService.parseTrackingId
       (EmailService.trackingIdOf campaignId email issuedAt)
     = Ok (campaignId, email))
  /\ (forall third : string,
        TrackingService.parseTrackingId
          (campaignId +:+ "_" +:+ email +:+ "_" +:+ third)
        = Ok (campaignId, email)).
Proof.
  intros Hc He. split.
  - intros issuedAt. unfold EmailService.trackingIdOf.
    now apply parse_of_three_parts.
  - intros third. now apply parse_of_three_parts.
Qed.

Lemma tracking_token_round_trip_witness :
  TrackingService.parseTrackingId
    (EmailService.trackingIdOf "64b0000000000000000000c1" "ann@example.com"
       1730000000000)
  = Ok ("64b0000000000000000000c1", "ann@example.com").
Proof.
  apply (tracking_token_round_trip "64b0000000000000000000c1" "ann@example.com");
    reflexivity.
Defined.

(** ** Personalization *)



Lemma prefix_append (a b : string) : String.prefix a (a +:+ b) = true.
Proof.
  induction a as [|c a IH]; push_append; simpl; [now destruct b |].
  destruct (ascii_dec c c); [exact IH | contradiction].
Qed.













(** ** Tracking ingest *)

Lemma tryCatch_returns {A} (body : M A) (handler : Exn -> M A) (w : World) :
  (forall e w1, exists a w2, handler e w1 = (Ok a, w2)) ->
  exists a w', tryCatch body handler w = (Ok a, w').
Proof.
  intros Hh. unfold tryCatch. destruct (body w) as [[a|e] w1]; eauto.
Qed.

Lemma trackOpen_returns (t : string) (w : World) :
  exists r w', TrackingService.trackOpen t w = (Ok r, w').
Proof.
  unfold TrackingService.trackOpen. apply tryCatch_returns.
  intros e w1. eexists _, _. reflexivity.
Qed.

Lemma trackingClick_returns (t link : string) (w : World) :
  exists r w', TrackingService.trackingClick t link w = (Ok r, w').
Proof.
  unfold TrackingService.trackingClick. apply tryCatch_returns.
  intros e w1. eexists _, _. reflexivity.
Qed.

Lemma castObjectId_ok (s : string) (w : World) :
  isObjectId s = true -> castObjectId s w = (Ok tt, w).
Proof. intros H. unfold castObjectId. now rewrite H. Qed.

(** An update whose modifiers are all known passes the check under either
    treatment of unknown ones. *)
Lemma checkUpdateM_known (u : Update) (w : World) :
  unknownModifier u = None -> checkUpdateM u w = (Ok tt, w).
Proof.
  intros H. unfold checkUpdateM, checkUpdate, bind, gets, liftResult.
  now rewrite H.
Qed.

Lemma updateOne_returns (f : CampaignModel.Filter) (u : Update) (w : World) :
  unknownModifier u = None ->
  exists w', CampaignModel.updateOne f u w = (Ok tt, w').
Proof.
  intros H. unfold CampaignModel.updateOne, CampaignModel.findOneAndUpdate, bind.
  rewrite (checkUpdateM_known _ _ H).
  unfold CampaignModel.findOne, gets.
  destruct (CampaignModel.select f w); eexists; reflexivity.
Qed.

(** C10, as the code has it: the open and click operations never raise, and
    on a token that does not parse they log the format error, write nothing
    and answer [{ success: false }]; the reply operation answers
    [{ success: true }] for any campaign id that is an ObjectId. *)
Theorem tracking_ingest_results (w : World)
    (trackingId link email campaignId : string) (e : Exn) :
  TrackingService.parseTrackingId trackingId = Throw e ->
  isObjectId campaignId = true ->
  TrackingController.trackOpen trackingId w
  = (Ok (mkTrackResult false),
     set_logger (logger w ++ [OpenTrackingFailed (message e)]) w)
  /\ TrackingController.trackClick trackingId link w
     = (Ok (mkTrackResult false),
        set_logger (logger w ++ [ClickTrackingFailed (message e)]) w)
  /\ (forall t, exists r w', TrackingController.trackOpen t w = (Ok r, w'))
  /\ (forall t l, exists r w', TrackingController.trackClick t l w = (Ok r, w'))
  /\ (TrackingController.trackReply email campaignId w).1 = Ok (mkTrackResult true).
Proof.
  intros Hparse Hid. repeat split.
  - unfold TrackingController.trackOpen, TrackingService.trackOpen,
      tryCatch, bind, liftResult. now rewrite Hparse.
  - unfold TrackingController.trackClick, TrackingService.trackingClick,
      tryCatch, bind, liftResult. now rewrite Hparse.
  - intros t. apply trackOpen_returns.
  - intros t l. apply trackingClick_returns.
  - unfold TrackingController.trackReply, TrackingService.trackReply, bind,
      Date_now, gets.
    rewrite (castObjectId_ok _ _ Hid).
    edestruct updateOne_returns as [w' ->]; reflexivity.
Qed.

Lemma tracking_ingest_results_witness :
  TrackingController.trackOpen "no-separator"
    (Sample.world (Sample.draft None ["ann@example.com"])
       (Sample.config 500 0 None) Sample.accepting 0 true)
  = (Ok (mkTrackResult false),
     set_logger [OpenTrackingFailed "invalid id format"]
       (Sample.world (Sample.draft None ["ann@example.com"])
          (Sample.config 500 0 None) Sample.accepting 0 true)).
Proof.
  pose proof (tracking_ingest_results
                (Sample.world (Sample.draft None ["ann@example.com"])
                   (Sample.config 500 0 None) Sample.accepting 0 true)
                "no-separator" EmptyString EmptyString
                Sample.campaignId (JsError "invalid id format")
                eq_refl eq_refl) as [Hopen _].
  exact Hopen.
Defined.

(** C10 as stated fails: on a token that does not parse the caller is
    answered [{ success: false }]. *)
Lemma trackOpen_unparsed_answers_false :
  (TrackingController.trackOpen "no-separator"
     (Sample.world (Sample.draft None ["ann@example.com"])
        (Sample.config 500 0 None) Sample.accepting 0 true)).1
  = Ok (mkTrackResult false)
  /\ (TrackingController.trackOpen "no-separator"
        (Sample.world (Sample.draft None ["ann@example.com"])
           (Sample.config 500 0 None) Sample.accepting 0 true)).1
     <> Ok (mkTrackResult true).
Proof. split; [reflexivity | discriminate]. Qed.

(** ** Running computations *)

Ltac mrun :=
  repeat progress
    (unfold tryCatch, bind, ret, throw, gets, modify, liftResult, Date_now, log,
       sleep, checkUpdateM, exec;
     cbv beta iota zeta; cbn [fst snd]).

Ltac world_fields :=
  cbn [campaignModel smtpConfigModel emailTemplateModel transportCache
       dailyStats timers logger smtp delivered now rejectsUnknownModifier
       set_campaignModel set_smtpConfigModel set_transportCache set_dailyStats
       set_timers set_logger set_delivered set_now].

Lemma positionOf_lookup (addr : string) (es : list CampaignEmail.t) (i : nat) :
  positionOf addr es = Some i ->
  exists e, es !! i = Some e /\ CampaignEmail.email e = addr.
Proof.
  revert i. induction es as [|e es IH]; intros i; simpl; [discriminate |].
  destruct (String.eqb (CampaignEmail.email e) addr) eqn:He.
  - intros [= <-]. exists e. split; [reflexivity | now apply String.eqb_eq].
  - destruct (positionOf addr es) as [k|]; [| discriminate].
    intros [= <-]. destruct (IH k eq_refl) as (e' & Hl & Ha). now exists e'.
Qed.

Lemma positionOf_alter (f : CampaignEmail.t -> CampaignEmail.t) (addr : string)
    (es : list CampaignEmail.t) (i : nat) :
  (forall e, CampaignEmail.email (f e) = CampaignEmail.email e) ->
  positionOf addr (alter f i es) = positionOf addr es.
Proof.
  intros Hf. revert i. induction es as [|e es IH]; intros [|i]; simpl;
    try reflexivity.
  - now rewrite Hf.
  - destruct (String.eqb (CampaignEmail.email e) addr); [reflexivity |].
    exact (f_equal (fmap S) (IH i)).
Qed.

Lemma select_recipient (w : World) (cid addr : string) (c : Campaign.t) (i : nat) :
  campaignModel w !! cid = Some c ->
  positionOf addr (Campaign.emails c) = Some i ->
  CampaignModel.select (CampaignModel.mkFilter cid None None (Some addr)) w = Some c.
Proof.
  intros Hc Hi. unfold CampaignModel.select, CampaignModel.matches. simpl.
  rewrite Hc, Hi. reflexivity.
Qed.

(** What the update document of [trackOpen] does to the recipients when the
    [$Inc] key is dropped. *)
Lemma trackOpen_update_emails (i : nat) (d : Date) (c : Campaign.t) :
  Campaign.emails
    (applyUpdate (Some i)
       [Modifier "$Inc" [("emailsOpened", VNum 1); ("emails.$.openCount", VNum 1)];
        Modifier "$set"
          [("emails.$.openedAt", VDate d); ("emails.$.status", VStr "opened")]] c)
  = alter (CampaignEmail.set_status "opened") i
      (alter (CampaignEmail.set_openedAt (Some d)) i (Campaign.emails c)).
Proof. reflexivity. Qed.

(** An open that is recorded with success. *)
Lemma trackOpen_recorded (w : World) (trackingId cid addr : string)
    (c : Campaign.t) (i : nat) :
  TrackingService.parseTrackingId trackingId = Ok (cid, addr) ->
  campaignModel w !! cid = Some c ->
  positionOf addr (Campaign.emails c) = Some i ->
  (TrackingService.trackOpen trackingId w).1 = Ok (mkTrackResult true) ->
  exists c',
    campaignModel (exec (TrackingService.trackOpen trackingId) w) !! cid = Some c'
    /\ CampaignEmail.status <$> Campaign.emails c' !! i = Some "opened"
    /\ (forall j, j <> i -> Campaign.emails c' !! j = Campaign.emails c !! j)
    /\ positionOf addr (Campaign.emails c') = Some i.
Proof.
  intros Hparse Hc Hi.
  unfold TrackingService.trackOpen, castObjectId, CampaignModel.updateOne,
    CampaignModel.findOneAndUpdate, CampaignModel.findOne.
  mrun. rewrite Hparse. mrun.
  destruct (isObjectId cid); mrun; [| discriminate].
  destruct (rejectsUnknownModifier w) eqn:Hrej; [discriminate |].
  cbn [checkUpdate unknownModifier knownModifier String.eqb Ascii.eqb Bool.eqb orb].
  mrun. unfold TrackingService.recipientFilter.
  rewrite (select_recipient _ _ _ _ _ Hc Hi). mrun.
  unfold CampaignModel.position. cbn [CampaignModel.by_email CampaignModel.by_id].
  rewrite Hi. intros _. world_fields.
  eexists. split; [apply lookup_insert_eq |].
  rewrite trackOpen_update_emails.
  destruct (positionOf_lookup _ _ _ Hi) as (e & He & _).
  repeat split.
  - rewrite !list_lookup_alter_eq, He. reflexivity.
  - intros j Hj. now rewrite !list_lookup_alter_ne by congruence.
  - now rewrite !positionOf_alter by reflexivity.
Qed.

(** C8, as the code has it: an open that is recorded with success sets the
    recipient that the token names to [opened] whatever its status was and
    leaves every other recipient as it was; a second recorded open for the
    same token leaves the status at [opened]. *)
Theorem trackOpen_sets_opened (w : World) (trackingId cid addr : string)
    (c : Campaign.t) (i : nat) :
  TrackingService.parseTrackingId trackingId = Ok (cid, addr) ->
  campaignModel w !! cid = Some c ->
  positionOf addr (Campaign.emails c) = Some i ->
  (TrackingService.trackOpen trackingId w).1 = Ok (mkTrackResult true) ->
  (exists c',
     campaignModel (exec (TrackingService.trackOpen trackingId) w) !! cid = Some c'
     /\ CampaignEmail.status <$> Campaign.emails c' !! i = Some "opened"
     /\ (forall j, j <> i -> Campaign.emails c' !! j = Campaign.emails c !! j))
  /\ ((TrackingService.trackOpen trackingId
         (exec (TrackingService.trackOpen trackingId) w)).1
      = Ok (mkTrackResult true) ->
      exists c'',
        campaignModel
          (exec (TrackingService.trackOpen trackingId)
             (exec (TrackingService.trackOpen trackingId) w)) !! cid = Some c''
        /\ CampaignEmail.status <$> Campaign.emails c'' !! i = Some "opened").
Proof.
  intros Hparse Hc Hi Hok.
  destruct (trackOpen_recorded w trackingId cid addr c i Hparse Hc Hi Hok)
    as (c' & Hc' & Hst & Hothers & Hi').
  split; [exists c'; repeat split; assumption |].
  intros Hok2.
  destruct (trackOpen_recorded _ trackingId cid addr c' i Hparse Hc' Hi' Hok2)
    as (c'' & Hc'' & Hst'' & _).
  exists c''. split; assumption.
Qed.

Lemma trackOpen_sets_opened_witness :
  exists c',
    campaignModel
      (exec (TrackingService.trackOpen "64b0000000000000000000c1_ann@example.com_5000")
         (Sample.world
            (Campaign.set_emails [Sample.recipient "ann@example.com" "clicked"]
               (Sample.draft None []))
            (Sample.config 500 0 None) Sample.accepting 7000 false))
    !! Sample.campaignId = Some c'
    /\ CampaignEmail.status <$> Campaign.emails c' !! O = Some "opened".
Proof.
  destruct (trackOpen_sets_opened
              (Sample.world
                 (Campaign.set_emails [Sample.recipient "ann@example.com" "clicked"]
                    (Sample.draft None []))
                 (Sample.config 500 0 None) Sample.accepting 7000 false)
              "64b0000000000000000000c1_ann@example.com_5000"
              Sample.campaignId "ann@example.com"
              (Campaign.set_emails [Sample.recipient "ann@example.com" "clicked"]
                 (Sample.draft None []))
              O eq_refl eq_refl eq_refl eq_refl) as [(c' & Hc' & Hst & _) _].
  exists c'. split; [exact Hc' | exact Hst].
Defined.

(** C8 as stated fails: whether the store rejects the update or drops its
    [$Inc] key, an open leaves the open counters at 0, and two opens leave
    them at 0; where the update is applied, a recipient already at [clicked]
    is set back to [opened]. *)
Lemma trackOpen_counts_nothing :
  let token := "64b0000000000000000000c1_ann@example.com_5000" in
  let start (status : string) (rejects : bool) :=
    Sample.world
      (Campaign.set_emails [Sample.recipient "ann@example.com" status]
         (Sample.draft None []))
      (Sample.config 500 0 None) Sample.accepting 7000 rejects in
  let seen (w : World) :=
    (fun c => (Campaign.emailsOpened c,
               map (fun e => (CampaignEmail.status e, CampaignEmail.openCount e))
                 (Campaign.emails c)))
      <$> campaignModel w !! Sample.campaignId in
  seen (exec (TrackingService.trackOpen token) (start "sent" true))
    = Some (0, [("sent", 0)])
  /\ seen (exec (TrackingService.trackOpen token) (start "sent" false))
     = Some (0, [("opened", 0)])
  /\ seen (exec (TrackingService.trackOpen token)
             (exec (TrackingService.trackOpen token) (start "sent" false)))
     = Some (0, [("opened", 0)])
  /\ seen (exec (TrackingService.trackOpen token) (start "clicked" false))
     = Some (0, [("opened", 0)]).
Proof. vm_compute. repeat split. Qed.

(** ** Sending one message *)

Lemma checkUpdate_known (r : bool) (u : Update) :
  unknownModifier u = None -> checkUpdate r u = Ok tt.
Proof. intros H. unfold checkUpdate. now rewrite H. Qed.

Lemma objectId_not_empty (id : string) :
  isObjectId id = true -> String.eqb id EmptyString = false.
Proof. destruct id; [discriminate | reflexivity]. Qed.

Lemma stats_sentToday (b : bool) (c : SMTPConfig.t) :
  SMTPConfig.emailsSentToday (applyUpdate None (EmailService.statsUpdate b) c)
  = SMTPConfig.emailsSentToday c + 1.
Proof. destruct b; reflexivity. Qed.

(** The catch block on a stored configuration. *)
Lemma sendEmail_catch_run (id : string) (opts : EmailOptions) (e : Exn) (w : World) :
  isObjectId id = true ->
  exists w',
    EmailService.sendEmail_catch id opts e w
    = (Ok (mkSendEmailResult false None (Some (message e)) "failed" None), w')
    /\ EmailService.sentToday id w' = Z.succ <$> EmailService.sentToday id w
    /\ EmailService.hourlyCount id w' = EmailService.hourlyCount id w
    /\ now w' = now w
    /\ campaignModel w' = campaignModel w.
Proof.
  intros Hoid. unfold EmailService.sendEmail_catch, EmailService.updateSMTPStats,
    SmtpConfigModel.updateOne, castObjectId.
  rewrite (objectId_not_empty _ Hoid), Hoid. mrun.
  rewrite checkUpdate_known by reflexivity.
  eexists. split; [reflexivity |]. repeat split.
  - unfold EmailService.sentToday, EmailService.updateDailyStats. mrun. world_fields.
    rewrite lookup_alter_eq.
    destruct (smtpConfigModel w !! id) as [c|]; [| reflexivity].
    cbn [fmap option_fmap option_map]. now rewrite stats_sentToday.
  - unfold EmailService.hourlyCount, EmailService.updateDailyStats. mrun. world_fields.
    rewrite lookup_insert_eq. cbn [fmap option_fmap option_map sent].
    destruct (dailyStats w !! EmailService.hourlyKey id (now w)) as [st|];
      reflexivity.
Qed.

(** What the admission check decides on a configuration snapshot. *)
Lemma checkAndUpdateRateLimit_run (cfg : SMTPConfig.t) (w : World) :
  exists w',
    EmailService.checkAndUpdateRateLimit cfg w
    = (if EmailService.dailyLimitReached cfg
       then Throw (JsError (EmailService.dailyLimitMessage cfg))
       else if (0 <? SMTPConfig.hourlyRateLimit cfg)
               && (SMTPConfig.hourlyRateLimit cfg
                   <=? EmailService.hourlyCount (SMTPConfig._id cfg) w)
            then Throw (JsError (EmailService.hourlyLimitMessage cfg))
            else Ok tt, w')
    /\ EmailService.sentToday (SMTPConfig._id cfg) w'
       = (if EmailService.isNewDay cfg (now w) then (fun _ => 0) else (fun n => n))
           <$> EmailService.sentToday (SMTPConfig._id cfg) w
    /\ dailyStats w' = dailyStats w /\ now w' = now w
    /\ campaignModel w' = campaignModel w /\ logger w' = logger w
    /\ delivered w' = delivered w /\ smtp w' = smtp w
    /\ transportCache w' = transportCache w.
Proof.
  unfold EmailService.checkAndUpdateRateLimit, SmtpConfigModel.updateOne. mrun.
  destruct (EmailService.isNewDay cfg (now w)); mrun;
    rewrite ?checkUpdate_known by reflexivity; mrun.
  - eexists. split.
    + destruct (EmailService.dailyLimitReached cfg); mrun; [reflexivity |].
      unfold EmailService.hourlyCount. world_fields.
      destruct (_ && _); reflexivity.
    + unfold EmailService.sentToday. world_fields. rewrite lookup_alter_eq.
      destruct (smtpConfigModel w !! SMTPConfig._id cfg); repeat split.
  - exists w. split.
    + destruct (EmailService.dailyLimitReached cfg); mrun; [reflexivity |].
      destruct (_ && _); reflexivity.
    + destruct (EmailService.sentToday (SMTPConfig._id cfg) w); repeat split.
Qed.

Lemma attempts_app (a b : list LogEntry) : attempts (a ++ b) = (attempts a ++ attempts b)%list.
Proof. apply omap_app. Qed.

Ltac case_step :=
  match goal with
  | |- context [if ?b then _ else _] => destruct b eqn:?
  | |- context [match ?x with Some _ => _ | None => _ end] => destruct x eqn:?
  | |- context [match ?x with Accepted _ _ => _ | Rejected _ => _ end] =>
      destruct x eqn:?
  end.

Ltac run_cases :=
  repeat (mrun; rewrite ?checkUpdate_known by reflexivity; mrun; try case_step).

Ltac unfold_send :=
  unfold EmailService.sendEmail, EmailService.sendEmail_try,
    EmailService.sendEmail_catch, SmtpConfigModel.findById, castObjectId,
    EmailService.checkAndUpdateRateLimit, EmailService.getTransporter,
    EmailService.transporterSendMail, EmailService.updateSMTPStats,
    EmailService.updateDailyStats, SmtpConfigModel.updateOne, castObjectId.

Lemma sendEmail_try_frame (t : Date) (id : string) (opts : EmailOptions) (w : World) :
  exists r w1 l,
    EmailService.sendEmail_try t id opts w = (r, w1)
    /\ untouchedBySend w w1
    /\ logger w1 = (logger w ++ l)%list
    /\ attempts l = match r with Ok _ => [to opts] | Throw _ => [] end.
Proof.
  unfold_send. run_cases.
  all: eexists _, _, _; split; [reflexivity |]; split; [repeat split |].
  all: world_fields; rewrite <- ?app_assoc.
  all: try (split; [reflexivity | reflexivity]).
  all: try (split; [symmetry; apply app_nil_r | reflexivity]).
Qed.

(** Every call of [sendEmail] leaves exactly one attempt in the log, and
    writes neither campaigns nor timers nor the clock. *)
Lemma sendEmail_attempt (id : string) (opts : EmailOptions) (w : World) :
  exists r w',
    EmailService.sendEmail id opts w = (r, w')
    /\ untouchedBySend w w'
    /\ attempts (logger w') = (attempts (logger w) ++ [to opts])%list.
Proof.
  unfold EmailService.sendEmail. mrun.
  destruct (sendEmail_try_frame (now w) id opts w)
    as (r & w1 & l & -> & Hsame & Hlog & Hatt).
  destruct r as [res|e].
  - eexists _, _. split; [reflexivity |]. split; [exact Hsame |].
    now rewrite Hlog, attempts_app, Hatt.
  - unfold_send. run_cases.
    all: eexists _, _; split; [reflexivity |]; world_fields.
    all: (split; [exact Hsame |]).
    all: rewrite Hlog, !attempts_app, Hatt, app_nil_r; reflexivity.
Qed.

Lemma reset_sentToday (d : Date) (c : SMTPConfig.t) :
  SMTPConfig.emailsSentToday (applyUpdate None (EmailService.resetUpdate d) c) = 0.
Proof. reflexivity. Qed.

Lemma hourlyCount_insert_sent (id : string) (w : World) (m : gmap string Stats) :
  m = dailyStats w ->
  Js.or_number
    (sent <$> <[EmailService.hourlyKey id (now w) :=
                  mkStats (sent (default (mkStats 0 0)
                                   (m !! EmailService.hourlyKey id (now w))) + 1)
                          (failed (default (mkStats 0 0)
                                     (m !! EmailService.hourlyKey id (now w))))]> m
              !! EmailService.hourlyKey id (now w)) 0
  = EmailService.hourlyCount id w + 1.
Proof.
  intros ->. unfold EmailService.hourlyCount. rewrite lookup_insert_eq.
  cbn [fmap option_fmap option_map sent].
  destruct (dailyStats w !! EmailService.hourlyKey id (now w)) as [st|];
    cbn [default from_option Datatypes.id sent Js.or_number fmap option_fmap option_map].
  - destruct (Z.eqb_spec (sent st) 0); destruct (Z.eqb_spec (sent st + 1) 0); lia.
  - reflexivity.
Qed.

Lemma hourlyCount_insert_failed (id : string) (w : World) (m : gmap string Stats) :
  m = dailyStats w ->
  Js.or_number
    (sent <$> <[EmailService.hourlyKey id (now w) :=
                  mkStats (sent (default (mkStats 0 0)
                                   (m !! EmailService.hourlyKey id (now w))))
                          (failed (default (mkStats 0 0)
                                     (m !! EmailService.hourlyKey id (now w))) + 1)]> m
              !! EmailService.hourlyKey id (now w)) 0
  = EmailService.hourlyCount id w.
Proof.
  intros ->. unfold EmailService.hourlyCount. rewrite lookup_insert_eq.
  cbn [fmap option_fmap option_map sent].
  destruct (dailyStats w !! EmailService.hourlyKey id (now w)) as [st|];
    reflexivity.
Qed.

Lemma stats_lastResetDate (b : bool) (c : SMTPConfig.t) :
  SMTPConfig.lastResetDate (applyUpdate None (EmailService.statsUpdate b) c)
  = SMTPConfig.lastResetDate c.
Proof. destruct b; reflexivity. Qed.

Lemma reset_lastResetDate (d : Date) (c : SMTPConfig.t) :
  SMTPConfig.lastResetDate (applyUpdate None (EmailService.resetUpdate d) c) = Some d.
Proof. reflexivity. Qed.

(** [sendEmail] on a stored configuration: it returns a result, and the
    counters move as follows. *)
Lemma sendEmail_on_stored (w : World) (id : string) (opts : EmailOptions)
    (cfg : SMTPConfig.t) :
  smtpConfigModel w !! id = Some cfg ->
  SMTPConfig._id cfg = id ->
  isObjectId id = true ->
  exists res w',
    EmailService.sendEmail id opts w = (Ok res, w')
    /\ EmailService.sentToday id w'
       = Some ((if SMTPConfig.isActive cfg && EmailService.isNewDay cfg (now w)
                then 0 else SMTPConfig.emailsSentToday cfg) + 1)
    /\ EmailService.hourlyCount id w'
       = EmailService.hourlyCount id w + (if success res then 1 else 0)
    /\ (SMTPConfig.isActive cfg && EmailService.dailyLimitReached cfg = true ->
        res = mkSendEmailResult false None
                (Some (EmailService.dailyLimitMessage cfg)) "failed" None)
    /\ SMTPConfig.lastResetDate <$> smtpConfigModel w' !! id
       = Some (if SMTPConfig.isActive cfg && EmailService.isNewDay cfg (now w)
               then Some (now w) else SMTPConfig.lastResetDate cfg)
    /\ delivered w'
       = (delivered w
          ++ if success res then [EmailService.mailOptions cfg opts] else [])%list.
Proof.
  intros Hcfg Hid Hoid. pose proof (objectId_not_empty _ Hoid) as Hne.
  unfold_send. rewrite Hne. mrun. rewrite Hoid. mrun. rewrite Hcfg. mrun.
  rewrite Hid, Hoid.
  destruct (SMTPConfig.isActive cfg); cbn [negb andb].
  - run_cases.
    all: eexists _, _; split; [reflexivity |].
    all: unfold EmailService.sentToday, EmailService.hourlyCount at 1; world_fields.
    all: rewrite ?lookup_alter_eq, Hcfg; cbn [fmap option_fmap option_map success].
    all: rewrite ?stats_sentToday, ?reset_sentToday, ?stats_lastResetDate,
      ?reset_lastResetDate.
    all: rewrite ?hourlyCount_insert_sent, ?hourlyCount_insert_failed by reflexivity.
    all: rewrite ?Z.add_0_r, ?app_nil_r.
    all: repeat split; try reflexivity; discriminate.
  - run_cases.
    eexists _, _; split; [reflexivity |].
    unfold EmailService.sentToday, EmailService.hourlyCount at 1; world_fields.
    rewrite ?lookup_alter_eq, Hcfg; cbn [fmap option_fmap option_map success].
    rewrite ?stats_sentToday, ?stats_lastResetDate.
    rewrite ?hourlyCount_insert_failed by reflexivity.
    rewrite ?Z.add_0_r, ?app_nil_r.
    repeat split; try reflexivity; discriminate.
Qed.

(** C6, as the code has it: every call of [sendEmail] for a stored
    configuration returns a result and adds exactly 1 to the daily counter
    (counted from 0 when the call resets the day), whether the message was
    sent, the transport failed, or the admission was refused; a refused
    admission for the daily limit is returned as a failed result; the hourly
    bucket read by the hourly check grows by 1 on success and not
    otherwise. *)
Theorem sendEmail_counts_every_call (w : World) (id : string)
    (opts : EmailOptions) (cfg : SMTPConfig.t) :
  smtpConfigModel w !! id = Some cfg ->
  SMTPConfig._id cfg = id ->
  isObjectId id = true ->
  exists res w',
    EmailService.sendEmail id opts w = (Ok res, w')
    /\ EmailService.sentToday id w'
       = Some ((if SMTPConfig.isActive cfg && EmailService.isNewDay cfg (now w)
                then 0 else SMTPConfig.emailsSentToday cfg) + 1)
    /\ EmailService.hourlyCount id w'
       = EmailService.hourlyCount id w + (if success res then 1 else 0)
    /\ (SMTPConfig.isActive cfg && EmailService.dailyLimitReached cfg = true ->
        success res = false
        /\ error res = Some (EmailService.dailyLimitMessage cfg)).
Proof.
  intros Hcfg Hid Hoid.
  destruct (sendEmail_on_stored w id opts cfg Hcfg Hid Hoid)
    as (res & w' & Hrun & Hsent & Hhour & Hdenied & _ & _).
  exists res, w'. split; [exact Hrun |]. split; [exact Hsent |].
  split; [exact Hhour |].
  intros Hlim. rewrite (Hdenied Hlim). split; reflexivity.
Qed.

Lemma sendEmail_counts_every_call_witness :
  exists res w',
    EmailService.sendEmail Sample.smtpConfigId
      (mkEmailOptions "ann@example.com" "Hello" None None None None None)
      (Sample.world (Sample.draft None ["ann@example.com"])
         (Sample.config 500 7 (Some 1000)) Sample.accepting 5000 true)
    = (Ok res, w')
    /\ EmailService.sentToday Sample.smtpConfigId w' = Some 8
    /\ success res = true.
Proof.
  destruct (sendEmail_counts_every_call
              (Sample.world (Sample.draft None ["ann@example.com"])
                 (Sample.config 500 7 (Some 1000)) Sample.accepting 5000 true)
              Sample.smtpConfigId
              (mkEmailOptions "ann@example.com" "Hello" None None None None None)
              (Sample.config 500 7 (Some 1000)) eq_refl eq_refl eq_refl)
    as (res & w' & Hrun & Hsent & _).
  exists res, w'. split; [exact Hrun |]. split; [exact Hsent |].
  vm_compute in Hrun. now inversion Hrun.
Defined.

(** C6 as stated fails: a refused admission is counted.  With the daily
    limit of 1 already reached, the call is refused and the stored daily
    counter goes from 1 to 2. *)
Lemma refused_admission_is_counted :
  let w := Sample.world (Sample.draft None ["ann@example.com"])
             (Sample.config 1 1 (Some 1000)) Sample.accepting 5000 true in
  let call := EmailService.sendEmail Sample.smtpConfigId
                (mkEmailOptions "ann@example.com" "Hello" None None None None None) in
  (call w).1
  = Ok (mkSendEmailResult false None
          (Some "Daily email limit (1) exceeded for main") "failed" None)
  /\ delivered (exec call w) = []
  /\ EmailService.sentToday Sample.smtpConfigId w = Some 1
  /\ EmailService.sentToday Sample.smtpConfigId (exec call w) = Some 2.
Proof. vm_compute. repeat split. Qed.

(** C5: the code resets the stored counter on the first call of a new day
    but compares the limit with the count it read before the reset.  When
    the last reset is of another day and that count has reached the limit,
    the call is refused for the daily limit, while the store is left with a
    counter of 1 (reset to 0, then counted as a failure) and today's reset
    date. *)
Theorem first_call_of_new_day_refused (w : World) (id : string)
    (opts : EmailOptions) (cfg : SMTPConfig.t) (lastReset : Date) :
  smtpConfigModel w !! id = Some cfg ->
  SMTPConfig._id cfg = id ->
  isObjectId id = true ->
  SMTPConfig.isActive cfg = true ->
  SMTPConfig.lastResetDate cfg = Some lastReset ->
  toDateString lastReset < toDateString (now w) ->
  0 < SMTPConfig.dailyLimit cfg <= SMTPConfig.emailsSentToday cfg ->
  exists w',
    EmailService.sendEmail id opts w
    = (Ok (mkSendEmailResult false None
             (Some (EmailService.dailyLimitMessage cfg)) "failed" None), w')
    /\ EmailService.sentToday id w' = Some 1
    /\ SMTPConfig.lastResetDate <$> smtpConfigModel w' !! id = Some (Some (now w)).
Proof.
  intros Hcfg Hid Hoid Hact Hlast Hday [Hpos Hreached].
  destruct (sendEmail_on_stored w id opts cfg Hcfg Hid Hoid)
    as (res & w' & Hrun & Hsent & _ & Hdenied & Hreset & _).
  assert (Hnew : EmailService.isNewDay cfg (now w) = true).
  { unfold EmailService.isNewDay. rewrite Hlast.
    cbn [default from_option Datatypes.id].
    apply negb_true_iff, Z.eqb_neq. intros Heq. rewrite Heq in Hday.
    exact (Z.lt_irrefl _ Hday). }
  assert (Hlim : EmailService.dailyLimitReached cfg = true).
  { unfold EmailService.dailyLimitReached.
    apply andb_true_iff. split; [now apply Z.ltb_lt | now apply Z.leb_le]. }
  rewrite Hact, Hnew in Hsent, Hreset. rewrite Hact, Hlim in Hdenied.
  exists w'. rewrite <- (Hdenied eq_refl). repeat split; assumption.
Qed.

Lemma first_call_of_new_day_refused_witness :
  exists w',
    EmailService.sendEmail Sample.smtpConfigId
      (mkEmailOptions "ann@example.com" "Hello" None None None None None)
      (Sample.world (Sample.draft None ["ann@example.com"])
         (Sample.config 2 2 (Some 1000)) Sample.accepting (msPerDay + 5000) true)
    = (Ok (mkSendEmailResult false None
             (Some "Daily email limit (2) exceeded for main") "failed" None), w')
    /\ EmailService.sentToday Sample.smtpConfigId w' = Some 1.
Proof.
  destruct (first_call_of_new_day_refused
              (Sample.world (Sample.draft None ["ann@example.com"])
                 (Sample.config 2 2 (Some 1000)) Sample.accepting
                 (msPerDay + 5000) true)
              Sample.smtpConfigId
              (mkEmailOptions "ann@example.com" "Hello" None None None None None)
              (Sample.config 2 2 (Some 1000)) 1000
              eq_refl eq_refl eq_refl eq_refl eq_refl)
    as (w' & Hrun & Hsent & _).
  - reflexivity.
  - split; [reflexivity | discriminate].
  - exists w'. split; [exact Hrun | exact Hsent].
Defined.

(** ** The dispatch pass *)

Lemma resultUpdate_known (res : SendEmailResult) (d : Date) :
  unknownModifier (CampaignService.resultUpdate res d) = None.
Proof. reflexivity. Qed.

Lemma failureUpdate_known (e : Exn) :
  unknownModifier (CampaignService.failureUpdate e) = None.
Proof. reflexivity. Qed.

(** An update of known modifiers writes the campaigns only. *)
Lemma updateOne_frame (f : CampaignModel.Filter) (u : Update) (w : World) :
  unknownModifier u = None ->
  exists w',
    CampaignModel.updateOne f u w = (Ok tt, w')
    /\ logger w' = logger w /\ timers w' = timers w /\ now w' = now w
    /\ smtpConfigModel w' = smtpConfigModel w /\ delivered w' = delivered w.
Proof.
  intros Hu. unfold CampaignModel.updateOne, CampaignModel.findOneAndUpdate,
    CampaignModel.findOne. mrun. rewrite (checkUpdate_known _ _ Hu). mrun.
  destruct (CampaignModel.select f w); mrun; eexists; repeat split.
Qed.

(** One iteration always returns, and leaves exactly one attempt in the
    log: the recipient's. *)
Lemma processOne_attempt (campaign : Campaign.t) (template : option EmailTemplate.t)
    (smtpConfig : SMTPConfig.t) (delay k : Z) (email : CampaignEmail.t) (w : World) :
  exists n w',
    CampaignService.processOne campaign template smtpConfig delay k email w
    = (Ok n, w')
    /\ k <= n <= k + 1
    /\ attempts (logger w')
       = (attempts (logger w) ++ [CampaignEmail.email email])%list.
Proof.
  unfold CampaignService.processOne. mrun.
  destruct (sendEmail_attempt (SMTPConfig._id smtpConfig)
              (CampaignService.emailOptionsFor campaign template email (now w)) w)
    as (r & w1 & -> & Hsame & Hatt).
  destruct r as [res|e].
  - destruct (updateOne_frame (CampaignService.recipientFilter campaign email)
                (CampaignService.resultUpdate res (now w1)) w1
                (resultUpdate_known _ _)) as (w2 & -> & Hlog & _).
    destruct (0 <? delay); mrun; eexists _, _; (split; [reflexivity |]);
      world_fields; rewrite Hlog; (split; [lia | exact Hatt]).
  - destruct (updateOne_frame (CampaignService.recipientFilter campaign email)
                (CampaignService.failureUpdate e)
                (set_logger
                   (logger w1 ++ [ProcessEmailFailed (CampaignEmail.email email)
                                    (message e)]) w1)
                (failureUpdate_known _)) as (w2 & -> & Hlog & _).
    eexists _, _. split; [reflexivity |]. split; [lia |].
    rewrite Hlog. world_fields. rewrite attempts_app, Hatt.
    apply app_nil_r.
Qed.


Lemma complete_frame (campaignId : string) (w : World) :
  exists w', CampaignService.complete campaignId w = (Ok tt, w')
             /\ logger w' = logger w.
Proof.
  unfold CampaignService.complete, CampaignModel.findByIdAndUpdate,
    CampaignModel.findOneAndUpdate, CampaignModel.findOne. mrun.
  rewrite checkUpdate_known by reflexivity. mrun.
  destruct (CampaignModel.select _ w); mrun; eexists; split; reflexivity.
Qed.









(** ** Recording a result *)

(** What the update of the loop does to the stored campaign. *)
Lemma resultUpdate_effect (i : nat) (res : SendEmailResult) (d : Date)
    (c : Campaign.t) (e : CampaignEmail.t) :
  Campaign.emails c !! i = Some e ->
  let c' := applyUpdate (Some i) (CampaignService.resultUpdate res d) c in
  (exists e', Campaign.emails c' !! i = Some e'
              /\ CampaignEmail.status e' = (if success res then "sent" else "failed")
              /\ CampaignEmail.error e'
                 = match error res with Some s => Some s | None => CampaignEmail.error e end
              /\ CampaignEmail.email e' = CampaignEmail.email e)
  /\ (forall j, j <> i -> Campaign.emails c' !! j = Campaign.emails c !! j)
  /\ Campaign.status c' = Campaign.status c
  /\ Campaign.totalEmails c' = Campaign.totalEmails c
  /\ Campaign.emailsSent c' = Campaign.emailsSent c + 1
  /\ Campaign.emailsDelivered c'
     = Campaign.emailsDelivered c + (if success res then 1 else 0)
  /\ Campaign.emailsFailed c'
     = Campaign.emailsFailed c + (if success res then 0 else 1).
Proof.
  intros He. destruct res as [ok mid err st resp].
  destruct ok, mid, err; cbn.
  all: rewrite ?list_lookup_alter_eq, He; cbn.
  all: split; [eexists; repeat split; reflexivity |].
  all: split; [intros j Hj; now rewrite !list_lookup_alter_ne by congruence |].
  all: repeat split; lia.
Qed.

(** One iteration on a stored campaign and a stored configuration: the
    result of [sendEmail] is written to the first recipient with the
    address, and the loop goes on. *)
Lemma processOne_records (campaign stored : Campaign.t)
    (template : option EmailTemplate.t) (smtpConfig cfg : SMTPConfig.t)
    (delay k : Z) (email : CampaignEmail.t) (i : nat) (w : World) :
  campaignModel w !! Campaign._id campaign = Some stored ->
  positionOf (CampaignEmail.email email) (Campaign.emails stored) = Some i ->
  smtpConfigModel w !! SMTPConfig._id smtpConfig = Some cfg ->
  SMTPConfig._id cfg = SMTPConfig._id smtpConfig ->
  isObjectId (SMTPConfig._id smtpConfig) = true ->
  exists res w1 w',
    EmailService.sendEmail (SMTPConfig._id smtpConfig)
      (CampaignService.emailOptionsFor campaign template email (now w)) w
    = (Ok res, w1)
    /\ CampaignService.processOne campaign template smtpConfig delay k email w
       = (Ok (k + 1), w')
    /\ campaignModel w'
       = <[Campaign._id campaign :=
             applyUpdate (Some i) (CampaignService.resultUpdate res (now w)) stored]>
           (campaignModel w)
    /\ smtpConfigModel w' = smtpConfigModel w1
    /\ delivered w' = delivered w1
    /\ logger w' = logger w1
    /\ timers w' = timers w.
Proof.
  intros Hstored Hpos Hcfg Hid Hoid.
  destruct (sendEmail_on_stored w _
              (CampaignService.emailOptionsFor campaign template email (now w))
              cfg Hcfg Hid Hoid) as (res & w1 & Hrun & _).
  destruct (sendEmail_attempt (SMTPConfig._id smtpConfig)
              (CampaignService.emailOptionsFor campaign template email (now w)) w)
    as (r & w1' & Hrun' & (Hcm & _ & Htim & _ & Hrej & Hnow) & _).
  rewrite Hrun in Hrun'. injection Hrun' as <- <-.
  exists res, w1. unfold CampaignService.processOne. mrun. rewrite Hrun.
  unfold CampaignModel.updateOne, CampaignModel.findOneAndUpdate,
    CampaignModel.findOne. mrun.
  rewrite checkUpdate_known by reflexivity. mrun.
  unfold CampaignService.recipientFilter.
  rewrite (select_recipient w1 _ _ stored i) by (rewrite ?Hcm; assumption).
  mrun. unfold CampaignModel.position.
  cbn [CampaignModel.by_email CampaignModel.by_id]. rewrite Hpos, Hnow, Hcm.
  destruct (0 <? delay); mrun; world_fields;
    (eexists; split; [reflexivity |]; split; [reflexivity |]; repeat split;
     assumption).
Qed.




(** C4: the loop adds 1 to [emailsSent] for every recipient it processes,
    also when the send failed and the recipient is marked [failed] and
    counted in [emailsFailed].  One recipient, a server that refuses the
    message: the pass completes the campaign with [emailsSent = 1] and
    [emailsFailed = 1] for [totalEmails = 1] and no recipient in status
    [sent]; [EmailService.updateCampaignEmailStatus], which records the same
    result for [EmailService.processCampaignEmail], counts the failed
    recipient in [emailsFailed] only. *)
Theorem failed_send_counted_as_sent (campaign stored : Campaign.t)
    (template : option EmailTemplate.t) (smtpConfig cfg : SMTPConfig.t)
    (delay k : Z) (email : CampaignEmail.t) (i : nat) (w : World) :
  campaignModel w !! Campaign._id campaign = Some stored ->
  positionOf (CampaignEmail.email email) (Campaign.emails stored) = Some i ->
  smtpConfigModel w !! SMTPConfig._id smtpConfig = Some cfg ->
  SMTPConfig._id cfg = SMTPConfig._id smtpConfig ->
  isObjectId (SMTPConfig._id smtpConfig) = true ->
  (exists res w' stored',
     (EmailService.sendEmail (SMTPConfig._id smtpConfig)
        (CampaignService.emailOptionsFor campaign template email (now w)) w).1
     = Ok res
     /\ CampaignService.processOne campaign template smtpConfig delay k email w
        = (Ok (k + 1), w')
     /\ campaignModel w' !! Campaign._id campaign = Some stored'
     /\ CampaignEmail.status <$> Campaign.emails stored' !! i
        = Some (if success res then "sent" else "failed")
     /\ Campaign.totalEmails stored' = Campaign.totalEmails stored
     /\ Campaign.emailsSent stored' = Campaign.emailsSent stored + 1
     /\ Campaign.emailsFailed stored'
        = Campaign.emailsFailed stored + (if success res then 0 else 1))
  /\ (let w :=
        Sample.world (Sample.draft None ["ann@example.com"])
          (Sample.config 500 0 (Some 1000)) Sample.refusing 5000 true in
      let counters (w' : World) :=
        (fun c => (Campaign.totalEmails c, Campaign.emailsSent c,
                   Campaign.emailsDelivered c, Campaign.emailsFailed c))
          <$> campaignModel w' !! Sample.campaignId in
      let pass :=
        exec (CampaignService.startCampaign [] Sample.campaignId Sample.userId) w in
      let sibling :=
        exec (EmailService.processCampaignEmail Sample.campaignId
                (Sample.recipient "ann@example.com" "pending")
                (EmailTemplate.mk "64b0000000000000000000e1" "Hello" "Body" "text" false)
                (Sample.config 500 0 (Some 1000)) EmptyString) w in
      Sample.statuses pass = Some ["failed"]
      /\ Sample.campaignStatus pass = Some "completed"
      /\ (Campaign.completedAt <$> campaignModel pass !! Sample.campaignId)
         = Some (Some 6000)
      /\ counters pass = Some (1, 1, 0, 1)
      /\ Sample.statuses sibling = Some ["failed"]
      /\ counters sibling = Some (1, 0, 0, 1)).
Proof.
  intros Hstored Hpos Hcfg Hid Hoid. split; [| vm_compute; repeat split].
  destruct (processOne_records campaign stored template smtpConfig cfg delay k
              email i w Hstored Hpos Hcfg Hid Hoid)
    as (res & w1 & w' & Hsend & Hrun & Hcm & _).
  destruct (positionOf_lookup _ _ _ Hpos) as (e & He & _).
  destruct (resultUpdate_effect i res (now w) stored e He)
    as ((e' & He' & Hst & _) & _ & _ & Htotal & Hsent & _ & Hfailed).
  eexists res, w', _. split; [now rewrite Hsend |]. split; [exact Hrun |].
  split; [rewrite Hcm; apply lookup_insert_eq |].
  split; [rewrite He'; cbn; now rewrite Hst |].
  split; [exact Htotal |]. split; [exact Hsent | exact Hfailed].
Qed.

Lemma failed_send_counted_as_sent_witness :
  let campaign := Sample.running None ["ann@example.com"] in
  let cfg := Sample.config 500 0 (Some 1000) in
  let w := Sample.world campaign cfg Sample.refusing 5000 true in
  exists res w' stored',
    (EmailService.sendEmail Sample.smtpConfigId
       (CampaignService.emailOptionsFor campaign None
          (Sample.recipient "ann@example.com" "pending") 5000) w).1 = Ok res
    /\ CampaignService.processOne campaign None cfg 1000 0
         (Sample.recipient "ann@example.com" "pending") w = (Ok (0 + 1), w')
    /\ campaignModel w' !! Sample.campaignId = Some stored'
    /\ Campaign.emailsSent stored' = 0 + 1.
Proof.
  intros campaign cfg w.
  destruct (failed_send_counted_as_sent campaign campaign None cfg cfg 1000 0
              (Sample.recipient "ann@example.com" "pending") O w
              eq_refl eq_refl eq_refl eq_refl eq_refl)
    as [(res & w' & stored' & Hsend & Hrun & Hstored & _ & _ & Hsent & _) _].
  exists res, w', stored'. repeat split; assumption.
Defined.

(** ** The continuation *)

Lemma sendEmail_returns (id : string) (opts : EmailOptions) (w : World) :
  isObjectId id = true ->
  exists res w', EmailService.sendEmail id opts w = (Ok res, w').
Proof.
  intros Hoid. pose proof (objectId_not_empty _ Hoid) as Hne.
  unfold_send. rewrite Hne, Hoid. run_cases.
  all: eexists _, _; reflexivity.
Qed.

(** With a configuration id that is an ObjectId, one iteration counts one
    more message for the hour. *)
Lemma processOne_counts (campaign : Campaign.t) (template : option EmailTemplate.t)
    (smtpConfig : SMTPConfig.t) (delay k : Z) (email : CampaignEmail.t) (w : World) :
  isObjectId (SMTPConfig._id smtpConfig) = true ->
  exists w',
    CampaignService.processOne campaign template smtpConfig delay k email w
    = (Ok (k + 1), w')
    /\ attempts (logger w')
       = (attempts (logger w) ++ [CampaignEmail.email email])%list.
Proof.
  intros Hoid.
  destruct (processOne_attempt campaign template smtpConfig delay k email w)
    as (n & w' & Hrun & _ & Hatt).
  assert (Hn : exists w2,
    CampaignService.processOne campaign template smtpConfig delay k email w
    = (Ok (k + 1), w2)).
  { unfold CampaignService.processOne. mrun.
    destruct (sendEmail_returns (SMTPConfig._id smtpConfig)
                (CampaignService.emailOptionsFor campaign template email (now w))
                w Hoid) as (res & w1 & ->).
    destruct (updateOne_frame (CampaignService.recipientFilter campaign email)
                (CampaignService.resultUpdate res (now w1)) w1
                (resultUpdate_known _ _)) as (w2 & -> & _).
    destruct (0 <? delay); eexists; reflexivity. }
  destruct Hn as (w2 & Hrun2). rewrite Hrun2 in Hrun. injection Hrun as <- <-.
  exists w2. split; [exact Hrun2 | exact Hatt].
Qed.

(** The loop attempts the recipients it was given, in order, up to its
    hourly cap. *)
Lemma dispatch_attempts_capped (campaign : Campaign.t)
    (template : option EmailTemplate.t) (smtpConfig : SMTPConfig.t)
    (delay maxPerHour : Z) (pendingEmails : list CampaignEmail.t) :
  isObjectId (SMTPConfig._id smtpConfig) = true ->
  forall (others : list (World -> World)) (k : Z) (w : World),
    Forall keepsLog others ->
    k <= maxPerHour ->
    exists w',
      CampaignService.dispatch others campaign template smtpConfig delay
        maxPerHour k pendingEmails w = (Ok tt, w')
      /\ attempts (logger w')
         = (attempts (logger w)
            ++ map CampaignEmail.email
                 (take (Z.to_nat (maxPerHour - k)) pendingEmails))%list.
Proof.
  intros Hoid.
  induction pendingEmails as [|email rest IH]; intros others k w Hquiet Hcap.
  - exists w. split; [reflexivity |]. rewrite take_nil. now rewrite app_nil_r.
  - cbn [CampaignService.dispatch].
    destruct (Z.leb_spec maxPerHour k) as [Hle|Hlt].
    + mrun. eexists. split; [reflexivity |]. world_fields.
      replace (maxPerHour - k) with 0 by lia. now rewrite app_nil_r.
    + mrun.
      destruct (processOne_counts campaign template smtpConfig delay k email w Hoid)
        as (w1 & -> & Hatt).
      assert (Hhd : keepsLog (hd id others)).
      { destruct Hquiet; [intros ?; reflexivity | assumption]. }
      assert (Htl : Forall keepsLog (tl others)).
      { destruct Hquiet; [constructor | assumption]. }
      destruct (IH (tl others) (k + 1) (hd id others w1) Htl) as (w2 & Hrun & Hatt2);
        [lia |].
      exists w2. split; [exact Hrun |].
      rewrite Hatt2, (Hhd w1), Hatt, <- app_assoc.
      replace (Z.to_nat (maxPerHour - k)) with (S (Z.to_nat (maxPerHour - (k + 1))))
        by lia.
      reflexivity.
Qed.

Lemma pass_attempts_capped (others : list (World -> World)) (campaign : Campaign.t)
    (cfg : SMTPConfig.t) (w : World) :
  Forall keepsLog others ->
  smtpConfigModel w !! Campaign.smtpConfigId campaign = Some cfg ->
  isObjectId (SMTPConfig._id cfg) = true ->
  0 <= Js.or_number
         (Settings.maxEmailsPerHour
            (default Settings.empty (Campaign.settings campaign))) 100 ->
  exists w',
    CampaignService.processCampaignEmails others campaign w = (Ok tt, w')
    /\ attempts (logger w')
       = (attempts (logger w)
          ++ map CampaignEmail.email
               (take (Z.to_nat
                        (Js.or_number
                           (Settings.maxEmailsPerHour
                              (default Settings.empty (Campaign.settings campaign)))
                           100))
                  (List.filter CampaignService.isPending (Campaign.emails campaign))))%list.
Proof.
  intros Hquiet Hcfg Hoid Hcap. unfold CampaignService.processCampaignEmails.
  destruct (List.filter CampaignService.isPending (Campaign.emails campaign))
    as [|e1 rest] eqn:Hpending.
  - destruct (complete_frame (Campaign._id campaign) w) as (w' & -> & Hlog).
    exists w'. split; [reflexivity |]. rewrite Hlog, take_nil. now rewrite app_nil_r.
  - unfold SmtpConfigModel.findById, EmailTemplateModel.findById. mrun.
    destruct (Campaign.templateId campaign) as [tid|]; mrun; rewrite Hcfg.
    1: destruct (dispatch_attempts_capped campaign (emailTemplateModel w !! tid) cfg
                   (Js.or_number (Settings.delayBetweenEmails
                      (default Settings.empty (Campaign.settings campaign))) 1000)
                   _ (e1 :: rest) Hoid others 0 w Hquiet Hcap) as (w1 & -> & Hatt).
    2: destruct (dispatch_attempts_capped campaign None cfg
                   (Js.or_number (Settings.delayBetweenEmails
                      (default Settings.empty (Campaign.settings campaign))) 1000)
                   _ (e1 :: rest) Hoid others 0 w Hquiet Hcap) as (w1 & -> & Hatt).
    all: rewrite Z.sub_0_r in Hatt.
    all: unfold CampaignModel.findById, CampaignModel.findOne; mrun.
    all: destruct (CampaignModel.select _ w1) as [updated|];
      [| exists w1; split; [reflexivity | exact Hatt]].
    all: destruct (List.filter CampaignService.isPending (Campaign.emails updated));
      [| exists w1; split; [reflexivity | exact Hatt]].
    all: destruct (complete_frame (Campaign._id campaign) w1) as (w' & -> & Hlog).
    all: exists w'; split; [reflexivity | now rewrite Hlog].
Qed.

(** C2: the continuation scheduled at the hourly cap runs on the campaign
    document captured when the pass began, not on the stored one: whatever
    the stored statuses are, it attempts the first pending recipients of the
    captured document, up to the cap.  Two recipients, at most one message
    per hour: the first pass sends to the first recipient and schedules the
    continuation; each continuation finds both recipients pending in the
    captured document, sends to the first recipient again and schedules
    itself again; the second recipient is never reached. *)
Theorem continuation_resends_first_batch (others : list (World -> World))
    (captured : Campaign.t) (cfg : SMTPConfig.t) (due : Date)
    (later : list (Date * Campaign.t)) (w : World) :
  timers w = (due, captured) :: later ->
  Forall keepsLog others ->
  smtpConfigModel w !! Campaign.smtpConfigId captured = Some cfg ->
  isObjectId (SMTPConfig._id cfg) = true ->
  0 <= Js.or_number
         (Settings.maxEmailsPerHour
            (default Settings.empty (Campaign.settings captured))) 100 ->
  (exists w',
     CampaignService.fireTimer others w = (Ok tt, w')
     /\ attempts (logger w')
        = (attempts (logger w)
           ++ map CampaignEmail.email
                (take (Z.to_nat
                         (Js.or_number
                            (Settings.maxEmailsPerHour
                               (default Settings.empty (Campaign.settings captured)))
                            100))
                   (List.filter CampaignService.isPending (Campaign.emails captured))))%list)
  /\ (let w0 :=
        Sample.world
          (Sample.draft (Some (Settings.mk None (Some 1)))
             ["ann@example.com"; "bob@example.com"])
          (Sample.config 500 0 (Some 1000)) Sample.accepting 5000 true in
      let w1 :=
        exec (CampaignService.startCampaign [] Sample.campaignId Sample.userId) w0 in
      let w2 := exec (CampaignService.fireTimer []) w1 in
      let w3 := exec (CampaignService.fireTimer []) w2 in
      let seen (w : World) :=
        (Sample.statuses w, map mo_to (delivered w), length (timers w)) in
      seen w1 = (Some ["sent"; "pending"], ["ann@example.com"], 1%nat)
      /\ seen w2 = (Some ["sent"; "pending"],
                    ["ann@example.com"; "ann@example.com"], 1%nat)
      /\ seen w3 = (Some ["sent"; "pending"],
                    ["ann@example.com"; "ann@example.com"; "ann@example.com"],
                    1%nat)
      /\ (Campaign.emailsSent <$> campaignModel w3 !! Sample.campaignId) = Some 3).
Proof.
  intros Htimers Hquiet Hcfg Hoid Hcap. split; [| vm_compute; repeat split].
  unfold CampaignService.fireTimer. mrun. rewrite Htimers. mrun.
  destruct (pass_attempts_capped others captured cfg
              (set_now (Z.max (now w) due) (set_timers later w))
              Hquiet Hcfg Hoid Hcap) as (w' & Hrun & Hatt).
  exists w'. split; [exact Hrun | exact Hatt].
Qed.

Lemma continuation_resends_first_batch_witness :
  let captured :=
    Sample.running (Some (Settings.mk None (Some 1)))
      ["ann@example.com"; "bob@example.com"] in
  let stored :=
    Campaign.set_emails
      [Sample.recipient "ann@example.com" "sent";
       Sample.recipient "bob@example.com" "pending"] captured in
  let w :=
    set_timers [(3600000, captured)]
      (Sample.world stored (Sample.config 500 1 (Some 1000)) Sample.accepting
         6000 true) in
  exists w',
    CampaignService.fireTimer [] w = (Ok tt, w')
    /\ attempts (logger w') = ["ann@example.com"].
Proof.
  intros captured stored w.
  destruct (continuation_resends_first_batch [] captured
              (Sample.config 500 1 (Some 1000)) 3600000 [] w
              eq_refl (Forall_nil_2 _) eq_refl eq_refl) as [Hfire _].
  - vm_compute. discriminate.
  - exact Hfire.
Defined.

(** * Further properties *)

(** ** Tracking tokens *)

Lemma split_length (sep : ascii) (s : string) :
  length (Js.split sep s) = S (Js.count_char sep s).
Proof.
  induction s as [|c s IH]; [reflexivity |].
  cbn [Js.split Js.count_char].
  destruct (Ascii.eqb c sep); cbn [length]; [now rewrite IH |].
  destruct (Js.split sep s) as [|p ps]; cbn [length] in *; [discriminate | exact IH].
Qed.

(** The first part of a split holds no separator; when there is a second
    part, the string is the first part, the separator, and the string the
    other parts are split from. *)
Lemma split_first_inv (sep : ascii) (s p : string) (ps : list string) :
  Js.split sep s = p :: ps ->
  Js.has_char sep p = false
  /\ match ps with
     | [] => s = p
     | _ :: _ => exists s', s = p +:+ String sep s' /\ Js.split sep s' = ps
     end.
Proof.
  revert p ps. induction s as [|c s IH]; intros p ps; cbn [Js.split].
  - intros [= <- <-]. split; reflexivity.
  - destruct (Ascii.eqb c sep) eqn:Hc.
    + intros [= <- <-]. split; [reflexivity |].
      apply Ascii.eqb_eq in Hc as ->.
      pose proof (split_not_nil sep s) as Hne.
      destruct (Js.split sep s) eqn:Hs; [contradiction |].
      exists s. split; [reflexivity | exact Hs].
    + destruct (Js.split sep s) as [|q qs] eqn:Hs.
      * now destruct (split_not_nil sep s).
      * intros [= <- <-]. destruct (IH q qs eq_refl) as [Hq Hrest].
        split; [cbn [Js.has_char]; now rewrite Hc |].
        destruct qs as [|q' qs'].
        -- now rewrite Hrest.
        -- destruct Hrest as (s' & -> & Hs'). exists s'. split; [reflexivity | exact Hs'].
Qed.

(** A token decodes to a campaign id and an address exactly when it is the
    two, free of underscores, each followed by an underscore, and anything
    after. *)
Theorem parseTrackingId_ok_iff (trackingId campaignId email : string) :
  TrackingService.parseTrackingId trackingId = Ok (campaignId, email)
  <-> Js.has_char "_" campaignId = false
      /\ Js.has_char "_" email = false
      /\ exists rest, trackingId = campaignId +:+ "_" +:+ email +:+ "_" +:+ rest.
Proof.
  split.
  - unfold TrackingService.parseTrackingId.
    destruct (Js.split "_" trackingId) as [|p [|q [|r rs]]] eqn:Hs; try discriminate.
    intros [= <- <-].
    destruct (split_first_inv _ _ _ _ Hs) as [Hp (s1 & -> & Hs1)].
    destruct (split_first_inv _ _ _ _ Hs1) as [Hq (s2 & -> & _)].
    split; [exact Hp |]. split; [exact Hq |]. exists s2. reflexivity.
  - intros (Hc & He & rest & ->). now apply parse_of_three_parts.
Qed.

(** A token is refused, with the format error, exactly when it holds fewer
    than two underscores. *)
Theorem parseTrackingId_throws_iff (trackingId : string) :
  TrackingService.parseTrackingId trackingId = Throw (JsError "invalid id format")
  <-> (Js.count_char "_" trackingId < 2)%nat.
Proof.
  pose proof (split_length "_" trackingId) as Hlen.
  unfold TrackingService.parseTrackingId.
  destruct (Js.split "_" trackingId) as [|p [|q [|r rs]]]; cbn [length] in Hlen;
    (split; [intros H; try discriminate H; lia | intros H; try reflexivity; lia]).
Qed.

(** An address that holds an underscore does not survive the token: the
    token built by the dispatch loop decodes to the part of the address
    before its first underscore. *)
Theorem token_truncates_address (campaignId before after : string) (issued : Date) :
  Js.has_char "_" campaignId = false ->
  Js.has_char "_" before = false ->
  TrackingService.parseTrackingId
    (EmailService.trackingIdOf campaignId (before +:+ "_" +:+ after) issued)
  = Ok (campaignId, before).
Proof.
  intros Hc Hb. unfold EmailService.trackingIdOf.
  rewrite !append_assoc. now apply parse_of_three_parts.
Qed.

Lemma token_truncates_address_witness :
  TrackingService.parseTrackingId
    (EmailService.trackingIdOf "64b0000000000000000000c1" "ann_lee@example.com"
       1730000000000)
  = Ok ("64b0000000000000000000c1", "ann").
Proof.
  apply (token_truncates_address "64b0000000000000000000c1" "ann" "lee@example.com");
    reflexivity.
Defined.

(** ** Patterns and template variables *)

Lemma special_backslash (c : ascii) :
  Js.isRegExpSpecial c = false -> Ascii.eqb c "\" = false.
Proof.
  intros H. destruct (Ascii.eqb c "\") eqn:Hc; [| reflexivity].
  apply Ascii.eqb_eq in Hc as ->. discriminate H.
Qed.

Lemma escapeSpecials_literal (s : string) :
  Js.literalOf false (Js.escapeSpecials s) = Some s.
Proof.
  induction s as [|c s IH]; [reflexivity |].
  cbn [Js.escapeSpecials]. destruct (Js.isRegExpSpecial c) eqn:Hc.
  - cbn [Js.literalOf]. rewrite Ascii.eqb_refl, Hc, IH. reflexivity.
  - cbn [Js.literalOf]. rewrite (special_backslash _ Hc), Hc, IH. reflexivity.
Qed.

(** The pattern [escapeRegExp] builds from a string is a pattern of literal
    characters, and the text it matches is that string: no character of the
    placeholder acts as an operator. *)
Theorem escapeRegExp_matches_literally (s : string) :
  Js.literalOf false (EmailService.escapeRegExp s) = Some s
  /\ Js.literalOf false (CampaignService.escapeRegExp s) = Some s.
Proof. split; apply escapeSpecials_literal. Qed.

Lemma prefix_inv (a s : string) :
  String.prefix a s = true -> exists r, s = a +:+ r.
Proof.
  revert s. induction a as [|x a IH]; intros s; [exists s; reflexivity |].
  destruct s as [|y s]; cbn [String.prefix]; [discriminate |].
  destruct (ascii_dec x y) as [<-|]; [| discriminate].
  intros H. destruct (IH s H) as [r ->]. exists r. reflexivity.
Qed.

Lemma occurs_here (a r : string) : Js.occurs a (a +:+ r) = true.
Proof.
  destruct (a +:+ r) eqn:E; cbn [Js.occurs]; rewrite <- E, prefix_append;
    reflexivity.
Qed.

Lemma occurs_later (a : string) (c : ascii) (s : string) :
  Js.occurs a s = true -> Js.occurs a (String c s) = true.
Proof. intros H. cbn [Js.occurs]. rewrite H. apply orb_true_r. Qed.

Lemma wordPrefix_split (s : string) :
  s = (Js.wordPrefix s).1 +:+ (Js.wordPrefix s).2
  /\ Js.allWordChars (Js.wordPrefix s).1 = true.
Proof.
  induction s as [|c s [IH1 IH2]]; [split; reflexivity |].
  cbn [Js.wordPrefix]. destruct (Js.isWordChar c) eqn:Hc; cbn [fst snd].
  - push_append. split; [now rewrite <- IH1 |].
    cbn [Js.allWordChars]. now rewrite Hc, IH2.
  - split; reflexivity.
Qed.

Lemma wordPrefix_app (w t : string) :
  Js.allWordChars w = true ->
  match t with String c _ => Js.isWordChar c = false | EmptyString => True end ->
  Js.wordPrefix (w +:+ t) = (w, t).
Proof.
  intros Hw Ht. induction w as [|c w IH]; push_append.
  - destruct t as [|c t]; [reflexivity |]. cbn [Js.wordPrefix]. now rewrite Ht.
  - cbn [Js.allWordChars] in Hw. apply andb_true_iff in Hw as [Hc Hw].
    cbn [Js.wordPrefix]. rewrite Hc, (IH Hw). reflexivity.
Qed.

Lemma matchVariable_inv (s name : string) (n : nat) :
  EmailService.matchVariable s = Some (name, n) ->
  Js.isWord name = true
  /\ n = (4 + String.length name)%nat
  /\ exists rest, s = "{{" +:+ name +:+ "}}" +:+ rest.
Proof.
  unfold EmailService.matchVariable.
  destruct s as [|a s]; [discriminate |].
  destruct (ascii_dec a "{") as [->|Ha].
  2: { destruct a as [[] [] [] [] [] [] [] []]; try discriminate; now destruct Ha. }
  destruct s as [|b r]; [discriminate |].
  destruct (ascii_dec b "{") as [->|Hb].
  2: { destruct b as [[] [] [] [] [] [] [] []]; try discriminate; now destruct Hb. }
  destruct (wordPrefix_split r) as [Hr Hw].
  destruct (Js.wordPrefix r) as [w t]; cbn [fst snd] in *.
  destruct w as [|c w]; [discriminate |].
  destruct t as [|x t]; [discriminate |].
  destruct (ascii_dec x "}") as [->|Hx].
  2: { destruct x as [[] [] [] [] [] [] [] []]; try discriminate; now destruct Hx. }
  destruct t as [|y t]; [discriminate |].
  destruct (ascii_dec y "}") as [->|Hy].
  2: { destruct y as [[] [] [] [] [] [] [] []]; try discriminate; now destruct Hy. }
  intros [= <- <-]. split; [exact Hw |]. split; [reflexivity |].
  exists t. push_append. now rewrite Hr.
Qed.

Lemma matchVariable_at (name rest : string) :
  Js.isWord name = true ->
  EmailService.matchVariable ("{{" +:+ name +:+ "}}" +:+ rest)
  = Some (name, (4 + String.length name)%nat).
Proof.
  intros Hw. destruct name as [|c name]; [discriminate |].
  pose proof (wordPrefix_app (String c name) ("}}" +:+ rest) Hw eq_refl) as Hrun.
  revert Hrun. push_append. intros Hrun.
  unfold EmailService.matchVariable. rewrite Hrun. reflexivity.
Qed.

Lemma variableMatches_skip (skip : nat) (s : string) :
  EmailService.variableMatches skip s
  = EmailService.variableMatches O (Js.drop skip s).
Proof.
  revert skip. induction s as [|c s IH]; intros [|k]; try reflexivity.
  cbn [EmailService.variableMatches Js.drop]. apply IH.
Qed.

(** Every capture is a word whose placeholder occurs in the text. *)
Lemma variableMatches_sound (name : string) (s : string) :
  forall skip,
    name ∈ EmailService.variableMatches skip s ->
    Js.isWord name = true /\ Js.occurs (EmailService.placeholder name) s = true.
Proof.
  induction s as [|c s IH]; intros skip; [intros H; inversion H |].
  destruct skip as [|k]; cbn [EmailService.variableMatches].
  - destruct (EmailService.matchVariable (String c s)) as [[nm n]|] eqn:Hm.
    + intros [->|Hin]%elem_of_cons.
      * destruct (matchVariable_inv _ _ _ Hm) as (Hw & _ & rest & Hs).
        split; [exact Hw |]. rewrite Hs. unfold EmailService.placeholder.
        rewrite <- !append_assoc. apply occurs_here.
      * destruct (IH _ Hin) as [Hw Hocc]. split; [exact Hw | now apply occurs_later].
    + intros Hin. destruct (IH _ Hin) as [Hw Hocc].
      split; [exact Hw | now apply occurs_later].
  - intros Hin. destruct (IH _ Hin) as [Hw Hocc].
    split; [exact Hw | now apply occurs_later].
Qed.

(** No placeholder starts inside a run of word characters. *)
Lemma occurs_past_word (name w t : string) :
  Js.allWordChars w = true ->
  Js.occurs (EmailService.placeholder name) (w +:+ t) = true ->
  Js.occurs (EmailService.placeholder name) t = true.
Proof.
  intros Hw. induction w as [|c w IH]; push_append; [trivial |].
  cbn [Js.allWordChars] in Hw. apply andb_true_iff in Hw as [Hc Hw].
  cbn [Js.occurs]. intros [Hpre|Hocc]%orb_true_iff; [| now apply IH].
  unfold EmailService.placeholder in Hpre. revert Hpre. push_append.
  cbn [String.prefix]. destruct (ascii_dec "{" c) as [<-|]; discriminate.
Qed.

(** Nor inside a match of the variable pattern, past its first character. *)
Lemma occurs_past_match (name nm rest : string) :
  Js.isWord nm = true ->
  Js.occurs (EmailService.placeholder name) ("{" +:+ nm +:+ "}}" +:+ rest) = true ->
  Js.occurs (EmailService.placeholder name) rest = true.
Proof.
  intros Hw. destruct nm as [|c nm]; [discriminate |]. cbn [Js.isWord] in Hw.
  push_append. cbn [Js.occurs]. intros [Hpre|Hocc]%orb_true_iff.
  { exfalso. revert Hpre. unfold EmailService.placeholder. push_append.
    cbn [String.prefix]. cbn [Js.allWordChars] in Hw.
    apply andb_true_iff in Hw as [Hc _].
    destruct (ascii_dec "{" "{"); [| discriminate].
    destruct (ascii_dec "{" c) as [<-|]; discriminate. }
  change (String c (nm +:+ String "}" (String "}" rest)))
    with (String c nm +:+ String "}" (String "}" rest)) in Hocc.
  apply (occurs_past_word name _ _ Hw) in Hocc. revert Hocc.
  unfold EmailService.placeholder. push_append.
  cbn [Js.occurs String.prefix].
  destruct (ascii_dec "{" "}"); [discriminate |]. cbn [orb].
  intros Hocc. destruct rest; exact Hocc.
Qed.

Lemma drop_past_match (nm rest : string) :
  Js.drop (4 + String.length nm - 1)
    (String "{" (nm +:+ String "}" (String "}" rest))) = rest.
Proof.
  change (4 + String.length nm - 1)%nat with (S (S (S (String.length nm)))).
  cbn [Js.drop]. induction nm as [|c nm IH]; [reflexivity |].
  push_append. exact IH.
Qed.

(** Every placeholder of a word that occurs in the text is captured. *)
Lemma variableMatches_complete (name : string) (s : string) :
  Js.isWord name = true ->
  forall skip,
    Js.occurs (EmailService.placeholder name) (Js.drop skip s) = true ->
    name ∈ EmailService.variableMatches skip s.
Proof.
  intros Hname. induction s as [|c s IH]; intros skip.
  - destruct skip; cbn [Js.drop Js.occurs]; unfold EmailService.placeholder;
      push_append; cbn [String.prefix orb]; discriminate.
  - destruct skip as [|k]; cbn [Js.drop EmailService.variableMatches];
      [| apply IH].
    cbn [Js.occurs]. intros Hocc.
    destruct (EmailService.matchVariable (String c s)) as [[nm n]|] eqn:Hm.
    + destruct (matchVariable_inv _ _ _ Hm) as (Hw & -> & rest & Hs).
      apply orb_true_iff in Hocc as [Hpre|Hocc].
      * apply prefix_inv in Hpre as [r Hr].
        unfold EmailService.placeholder in Hr. rewrite !append_assoc in Hr.
        rewrite Hr, (matchVariable_at name r Hname) in Hm.
        injection Hm as <- _. apply list_elem_of_here.
      * apply list_elem_of_further. apply IH.
        revert Hs. push_append. intros [= -> ->].
        rewrite drop_past_match.
        apply (occurs_past_match name nm rest Hw). push_append. exact Hocc.
    + apply orb_true_iff in Hocc as [Hpre|Hocc]; [| now apply (IH O)].
      apply prefix_inv in Hpre as [r Hr].
      unfold EmailService.placeholder in Hr. rewrite !append_assoc in Hr.
      rewrite Hr, (matchVariable_at name r Hname) in Hm. discriminate.
Qed.

Lemma setAdd_fold (l : list string) :
  forall acc,
    NoDup acc ->
    NoDup (fold_left EmailService.setAdd l acc)
    /\ forall x, x ∈ fold_left EmailService.setAdd l acc <-> x ∈ acc \/ x ∈ l.
Proof.
  induction l as [|a l IH]; intros acc Hnd; cbn [fold_left].
  - split; [exact Hnd |]. intros x. rewrite elem_of_nil. tauto.
  - unfold EmailService.setAdd at 2 4. case_bool_decide as Ha.
    + destruct (IH acc Hnd) as [H1 H2]. split; [exact H1 |].
      intros x. rewrite H2, elem_of_cons. split; [tauto |].
      intros [?|[->|?]]; tauto.
    + assert (Hnd' : NoDup (acc ++ [a])).
      { apply NoDup_app. split; [exact Hnd |]. split; [| apply NoDup_singleton].
        intros x Hx ->%list_elem_of_singleton. contradiction. }
      destruct (IH _ Hnd') as [H1 H2]. split; [exact H1 |].
      intros x. rewrite H2, elem_of_app, list_elem_of_singleton, elem_of_cons. tauto.
Qed.

(** [extractVariablesFromTemplate] lists, without repetition, exactly the
    words whose placeholder occurs in the body followed by the subject. *)
Theorem extractVariables_exact (body subject : string) :
  NoDup (EmailService.extractVariablesFromTemplate body subject)
  /\ forall name,
       name ∈ EmailService.extractVariablesFromTemplate body subject
       <-> Js.isWord name = true
           /\ Js.occurs (EmailService.placeholder name) (body +:+ subject) = true.
Proof.
  unfold EmailService.extractVariablesFromTemplate.
  destruct (setAdd_fold (EmailService.variableMatches O (body +:+ subject)) []
              NoDup_nil_2) as [Hnd Hin].
  split; [exact Hnd |]. intros name. rewrite Hin, elem_of_nil. split.
  - intros [[]|H]. exact (variableMatches_sound _ _ _ H).
  - intros [Hw Hocc]. right. now apply variableMatches_complete.
Qed.

(** ** Clicks and replies *)


Lemma alter_same {A} (f : A -> A) (i : nat) (l : list A) :
  (forall x, f x = x) -> alter f i l = l.
Proof.
  intros Hf. apply list_eq. intros j. destruct (decide (j = i)) as [->|Hj].
  - rewrite list_lookup_alter_eq. destruct (l !! i); [cbn; now rewrite Hf | reflexivity].
  - now rewrite list_lookup_alter_ne by congruence.
Qed.

(** What the update document of [trackingClick] writes. *)
Lemma click_update_effect (i : nat) (d : Date) (link : string) (c : Campaign.t) :
  let c' :=
    applyUpdate (Some i)
      [Modifier "$inc" [("emailsClicked", VNum 1)];
       Modifier "$set"
         [("emails.$.clickedAt", VDate d); ("emails.$.clickLinks", VStr link)];
       Modifier "$addToSet" [("email.$.clickLinks", VStr link)]] c in
  Campaign.emails c' = alter (CampaignEmail.set_clickedAt (Some d)) i (Campaign.emails c)
  /\ Campaign.emailsClicked c' = Campaign.emailsClicked c + 1
  /\ Campaign.status c' = Campaign.status c.
Proof.
  split; [| split; reflexivity].
  cbn. apply alter_same. reflexivity.
Qed.

(** A click for a stored recipient is recorded with success: the campaign
    counts one more click and the recipient gets the time of the click.  The
    recipient's status and click count stay as they were, and the other
    recipients are not written. *)
Theorem trackingClick_records (w : World) (trackingId link cid addr : string)
    (c : Campaign.t) (i : nat) :
  TrackingService.parseTrackingId trackingId = Ok (cid, addr) ->
  isObjectId cid = true ->
  campaignModel w !! cid = Some c ->
  positionOf addr (Campaign.emails c) = Some i ->
  exists w' c',
    TrackingService.trackingClick trackingId link w = (Ok (mkTrackResult true), w')
    /\ campaignModel w' = <[cid := c']> (campaignModel w)
    /\ Campaign.emails c'
       = alter (CampaignEmail.set_clickedAt (Some (now w))) i (Campaign.emails c)
    /\ CampaignEmail.status <$> Campaign.emails c' !! i
       = CampaignEmail.status <$> Campaign.emails c !! i
    /\ CampaignEmail.clickCount <$> Campaign.emails c' !! i
       = CampaignEmail.clickCount <$> Campaign.emails c !! i
    /\ Campaign.emailsClicked c' = Campaign.emailsClicked c + 1
    /\ Campaign.status c' = Campaign.status c
    /\ logger w' = (logger w ++ [LinkClicked link addr cid])%list.
Proof.
  intros Hparse Hoid Hc Hi.
  unfold TrackingService.trackingClick, castObjectId, CampaignModel.updateOne,
    CampaignModel.findOneAndUpdate, CampaignModel.findOne.
  mrun. rewrite Hparse. mrun. rewrite Hoid. mrun.
  rewrite checkUpdate_known by reflexivity. mrun.
  unfold TrackingService.recipientFilter.
  rewrite (select_recipient _ _ _ _ _ Hc Hi). mrun.
  unfold CampaignModel.position. cbn [CampaignModel.by_email CampaignModel.by_id].
  rewrite Hi. eexists _, _. split; [reflexivity |]. world_fields.
  split; [reflexivity |].
  destruct (click_update_effect i (now w) link c) as (Hemails & Hclicked & Hstatus).
  destruct (positionOf_lookup _ _ _ Hi) as (e & He & _).
  split; [exact Hemails |].
  split; [rewrite Hemails, list_lookup_alter_eq, He; reflexivity |].
  split; [rewrite Hemails, list_lookup_alter_eq, He; reflexivity |].
  split; [exact Hclicked |]. split; [exact Hstatus | reflexivity].
Qed.

Lemma trackingClick_records_witness :
  exists w' c',
    TrackingService.trackingClick "64b0000000000000000000c1_ann@example.com_5000"
      "https://example.com/offer"
      (Sample.world
         (Campaign.set_emails [Sample.recipient "ann@example.com" "sent"]
            (Sample.draft None []))
         (Sample.config 500 0 None) Sample.accepting 7000 true)
    = (Ok (mkTrackResult true), w')
    /\ campaignModel w' !! Sample.campaignId = Some c'
    /\ Campaign.emailsClicked c' = 1
    /\ map CampaignEmail.status (Campaign.emails c') = ["sent"].
Proof.
  destruct (trackingClick_records
              (Sample.world
                 (Campaign.set_emails [Sample.recipient "ann@example.com" "sent"]
                    (Sample.draft None []))
                 (Sample.config 500 0 None) Sample.accepting 7000 true)
              "64b0000000000000000000c1_ann@example.com_5000"
              "https://example.com/offer" Sample.campaignId "ann@example.com"
              (Campaign.set_emails [Sample.recipient "ann@example.com" "sent"]
                 (Sample.draft None []))
              O eq_refl eq_refl eq_refl eq_refl)
    as (w' & c' & Hrun & Hstore & Hemails & _ & _ & Hclicked & _).
  exists w', c'. split; [exact Hrun |].
  split; [rewrite Hstore; apply lookup_insert_eq |].
  split; [exact Hclicked | now rewrite Hemails].
Defined.



(** One reply on a stored recipient. *)
Lemma trackReply_step (w : World) (email cid : string) (c : Campaign.t) (i : nat) :
  isObjectId cid = true ->
  campaignModel w !! cid = Some c ->
  positionOf email (Campaign.emails c) = Some i ->
  exists w' c',
    TrackingService.trackReply email cid w = (Ok tt, w')
    /\ campaignModel w' = <[cid := c']> (campaignModel w)
    /\ Campaign.emails c'
       = alter (CampaignEmail.set_status "replied") i (Campaign.emails c)
    /\ Campaign.emailsReplied c' = Campaign.emailsReplied c + 1
    /\ logger w' = logger w.
Proof.
  intros Hoid Hc Hi.
  unfold TrackingService.trackReply, castObjectId, CampaignModel.updateOne,
    CampaignModel.findOneAndUpdate, CampaignModel.findOne.
  mrun. rewrite Hoid. mrun.
  rewrite checkUpdate_known by reflexivity. mrun.
  unfold TrackingService.recipientFilter.
  rewrite (select_recipient _ _ _ _ _ Hc Hi). mrun.
  unfold CampaignModel.position. cbn [CampaignModel.by_email CampaignModel.by_id].
  rewrite Hi. eexists _, _. split; [reflexivity |]. world_fields.
  repeat split.
Qed.

(** A reply sets the recipient to [replied] whatever its status was and
    counts one more reply; a second report of the same reply is counted
    again. *)
Theorem trackReply_counts_every_report (w : World) (email cid : string)
    (c : Campaign.t) (i : nat) :
  isObjectId cid = true ->
  campaignModel w !! cid = Some c ->
  positionOf email (Campaign.emails c) = Some i ->
  exists w1 c1 w2 c2,
    TrackingService.trackReply email cid w = (Ok tt, w1)
    /\ campaignModel w1 !! cid = Some c1
    /\ CampaignEmail.status <$> Campaign.emails c1 !! i = Some "replied"
    /\ (forall j, j <> i -> Campaign.emails c1 !! j = Campaign.emails c !! j)
    /\ Campaign.emailsReplied c1 = Campaign.emailsReplied c + 1
    /\ TrackingService.trackReply email cid w1 = (Ok tt, w2)
    /\ campaignModel w2 !! cid = Some c2
    /\ Campaign.emails c2 = Campaign.emails c1
    /\ Campaign.emailsReplied c2 = Campaign.emailsReplied c + 2.
Proof.
  intros Hoid Hc Hi.
  destruct (trackReply_step w email cid c i Hoid Hc Hi)
    as (w1 & c1 & Hrun1 & Hstore1 & Hemails1 & Hcount1 & _).
  assert (Hc1 : campaignModel w1 !! cid = Some c1)
    by (rewrite Hstore1; apply lookup_insert_eq).
  assert (Hi1 : positionOf email (Campaign.emails c1) = Some i)
    by (rewrite Hemails1; now rewrite positionOf_alter by reflexivity).
  destruct (trackReply_step w1 email cid c1 i Hoid Hc1 Hi1)
    as (w2 & c2 & Hrun2 & Hstore2 & Hemails2 & Hcount2 & _).
  destruct (positionOf_lookup _ _ _ Hi) as (e & He & _).
  exists w1, c1, w2, c2.
  split; [exact Hrun1 |]. split; [exact Hc1 |].
  split; [rewrite Hemails1, list_lookup_alter_eq, He; reflexivity |].
  split; [intros j Hj; rewrite Hemails1; now rewrite list_lookup_alter_ne by congruence |].
  split; [exact Hcount1 |]. split; [exact Hrun2 |].
  split; [rewrite Hstore2; apply lookup_insert_eq |].
  split; [| lia].
  rewrite Hemails2, Hemails1. apply list_eq. intros j.
  destruct (decide (j = i)) as [->|Hj].
  - rewrite !list_lookup_alter_eq, He. reflexivity.
  - now rewrite !list_lookup_alter_ne by congruence.
Qed.

Lemma trackReply_counts_every_report_witness :
  exists w1 w2 c2,
    TrackingService.trackReply "ann@example.com" Sample.campaignId
      (Sample.world
         (Campaign.set_emails [Sample.recipient "ann@example.com" "bounced"]
            (Sample.draft None []))
         (Sample.config 500 0 None) Sample.accepting 7000 true)
    = (Ok tt, w1)
    /\ TrackingService.trackReply "ann@example.com" Sample.campaignId w1 = (Ok tt, w2)
    /\ campaignModel w2 !! Sample.campaignId = Some c2
    /\ Campaign.emailsReplied c2 = 2.
Proof.
  destruct (trackReply_counts_every_report
              (Sample.world
                 (Campaign.set_emails [Sample.recipient "ann@example.com" "bounced"]
                    (Sample.draft None []))
                 (Sample.config 500 0 None) Sample.accepting 7000 true)
              "ann@example.com" Sample.campaignId
              (Campaign.set_emails [Sample.recipient "ann@example.com" "bounced"]
                 (Sample.draft None []))
              O eq_refl eq_refl eq_refl)
    as (w1 & c1 & w2 & c2 & Hrun1 & _ & _ & _ & _ & Hrun2 & Hc2 & _ & Hcount).
  exists w1, w2, c2. split; [exact Hrun1 |]. split; [exact Hrun2 |].
  split; [exact Hc2 | exact Hcount].
Defined.

(** A campaign id that is no ObjectId: the reply endpoint raises, while an
    open or a click with such an id in its token is answered
    [{ success: false }].  Nothing is written but the log. *)
Theorem tracking_bad_campaign_id (w : World)
    (trackingId link email cid addr : string) :
  isObjectId cid = false ->
  TrackingService.parseTrackingId trackingId = Ok (cid, addr) ->
  (exists e, TrackingController.trackReply email cid w = (Throw e, w))
  /\ (exists msg,
        TrackingController.trackOpen trackingId w
        = (Ok (mkTrackResult false),
           set_logger (logger w ++ [OpenTrackingFailed msg]) w))
  /\ (exists msg,
        TrackingController.trackClick trackingId link w
        = (Ok (mkTrackResult false),
           set_logger (logger w ++ [ClickTrackingFailed msg]) w)).
Proof.
  intros Hoid Hparse. split; [| split].
  - unfold TrackingController.trackReply, TrackingService.trackReply, castObjectId.
    mrun. rewrite Hoid. eexists. reflexivity.
  - unfold TrackingController.trackOpen, TrackingService.trackOpen, castObjectId.
    mrun. rewrite Hparse. mrun. rewrite Hoid. eexists. reflexivity.
  - unfold TrackingController.trackClick, TrackingService.trackingClick, castObjectId.
    mrun. rewrite Hparse. mrun. rewrite Hoid. eexists. reflexivity.
Qed.

Lemma tracking_bad_campaign_id_witness :
  exists e,
    TrackingController.trackReply "ann@example.com" "campaign-7"
      (Sample.world (Sample.draft None ["ann@example.com"])
         (Sample.config 500 0 None) Sample.accepting 7000 true)
    = (Throw e,
       Sample.world (Sample.draft None ["ann@example.com"])
         (Sample.config 500 0 None) Sample.accepting 7000 true).
Proof.
  exact (proj1 (tracking_bad_campaign_id
                  (Sample.world (Sample.draft None ["ann@example.com"])
                     (Sample.config 500 0 None) Sample.accepting 7000 true)
                  "campaign-7_ann@example.com_5000" EmptyString "ann@example.com"
                  "campaign-7" "ann@example.com" eq_refl eq_refl)).
Defined.

(** ** Admission and delivery *)

Theorem sendEmail_accepted (w : World) (id : string) (opts : EmailOptions)
    (cfg : SMTPConfig.t) (mid resp : string) :
  smtpConfigModel w !! id = Some cfg ->
  SMTPConfig._id cfg = id ->
  isObjectId id = true ->
  SMTPConfig.isActive cfg = true ->
  EmailService.dailyLimitReached cfg = false ->
  (0 <? SMTPConfig.hourlyRateLimit cfg)
  && (SMTPConfig.hourlyRateLimit cfg <=? EmailService.hourlyCount id w) = false ->
  (EmailService.cacheKey cfg ∈ transportCache w \/ verify (smtp w) cfg = None) ->
  sendMail (smtp w) (now w) (EmailService.mailOptions cfg opts) = Accepted mid resp ->
  exists w',
    EmailService.sendEmail id opts w
    = (Ok (mkSendEmailResult true (Some mid) None "sent" (Some resp)), w')
    /\ delivered w' = (delivered w ++ [EmailService.mailOptions cfg opts])%list
    /\ EmailService.cacheKey cfg ∈ transportCache w'
    /\ last (logger w') = Some (EmailSent (to opts) 0 mid).
Proof.
  intros Hcfg Hid Hoid Hactive Hdaily Hhourly Hconn Hsend.
  pose proof (objectId_not_empty _ Hoid) as Hne.
  unfold_send. mrun. rewrite Hoid. mrun. rewrite Hcfg. mrun.
  rewrite Hactive, Hid, Hoid, Hdaily. cbn [negb].
  unfold EmailService.hourlyCount in *.
  destruct (EmailService.isNewDay cfg (now w)); mrun;
    rewrite ?checkUpdate_known by reflexivity; mrun; world_fields.
  all: rewrite Hhourly; mrun; world_fields.
  all: case_bool_decide as Hcached; mrun; world_fields.
  all: try (destruct Hconn as [Hin|Hverify]; [contradiction |]; rewrite Hverify;
            mrun; world_fields).
  all: rewrite Hsend; mrun; world_fields.
  all: rewrite checkUpdate_known by reflexivity; mrun; world_fields.
  all: eexists; split; [reflexivity |]; world_fields.
  all: rewrite Z.sub_diag, last_snoc.
  all: repeat split; try reflexivity; try assumption; set_solver.
Qed.

Lemma sendEmail_accepted_witness :
  exists w',
    EmailService.sendEmail Sample.smtpConfigId
      (mkEmailOptions "ann@example.com" "Hello" (Some "<p>Hello</p>") None None None None)
      (Sample.world (Sample.draft None ["ann@example.com"])
         (Sample.config 0 900 (Some 1000)) Sample.accepting 5000 true)
    = (Ok (mkSendEmailResult true (Some "<ann@example.com>") None "sent"
             (Some "250 OK")), w')
    /\ map mo_to (delivered w') = ["ann@example.com"].
Proof.
  destruct (sendEmail_accepted
              (Sample.world (Sample.draft None ["ann@example.com"])
                 (Sample.config 0 900 (Some 1000)) Sample.accepting 5000 true)
              Sample.smtpConfigId
              (mkEmailOptions "ann@example.com" "Hello" (Some "<p>Hello</p>")
                 None None None None)
              (Sample.config 0 900 (Some 1000)) "<ann@example.com>" "250 OK"
              eq_refl eq_refl eq_refl eq_refl eq_refl eq_refl
              (or_intror eq_refl) eq_refl) as (w' & Hrun & Hdelivered & _).
  exists w'. split; [exact Hrun | now rewrite Hdelivered].
Defined.

(** Once the bucket of the hour has reached the hourly limit of a
    configuration, a call is refused with the hourly message before any
    connection is made; the bucket does not move, so the next call within
    the hour meets the same bucket. *)
Theorem hourly_limit_refuses (w : World) (id : string) (opts : EmailOptions)
    (cfg : SMTPConfig.t) :
  smtpConfigModel w !! id = Some cfg ->
  SMTPConfig._id cfg = id ->
  isObjectId id = true ->
  SMTPConfig.isActive cfg = true ->
  EmailService.dailyLimitReached cfg = false ->
  0 < SMTPConfig.hourlyRateLimit cfg <= EmailService.hourlyCount id w ->
  exists w',
    EmailService.sendEmail id opts w
    = (Ok (mkSendEmailResult false None
             (Some (EmailService.hourlyLimitMessage cfg)) "failed" None), w')
    /\ delivered w' = delivered w
    /\ transportCache w' = transportCache w
    /\ EmailService.hourlyCount id w' = EmailService.hourlyCount id w
    /\ now w' = now w.
Proof.
  intros Hcfg Hid Hoid Hactive Hdaily [Hpos Hreached].
  pose proof (objectId_not_empty _ Hoid) as Hne.
  assert (Hhourly :
    (0 <? SMTPConfig.hourlyRateLimit cfg)
    && (SMTPConfig.hourlyRateLimit cfg <=? EmailService.hourlyCount id w) = true).
  { apply andb_true_iff. split; [now apply Z.ltb_lt | now apply Z.leb_le]. }
  unfold_send. mrun. rewrite Hoid. mrun. rewrite Hcfg. mrun.
  rewrite Hactive, Hid, Hoid, Hdaily, Hne. cbn [negb].
  destruct (EmailService.isNewDay cfg (now w)); mrun;
    rewrite ?checkUpdate_known by reflexivity; mrun; world_fields.
  all: unfold EmailService.hourlyCount at 1; world_fields.
  all: fold (EmailService.hourlyCount id w); rewrite Hhourly; mrun; world_fields.
  all: rewrite ?checkUpdate_known by reflexivity; mrun; world_fields.
  all: eexists; split; [reflexivity |]; world_fields.
  all: split; [reflexivity |]; split; [reflexivity |]; split; [| reflexivity].
  all: unfold EmailService.hourlyCount at 1; world_fields.
  all: now rewrite hourlyCount_insert_failed.
Qed.

Lemma hourly_limit_refuses_witness :
  exists w',
    EmailService.sendEmail Sample.smtpConfigId
      (mkEmailOptions "ann@example.com" "Hello" None None None None None)
      (set_dailyStats
         {[EmailService.hourlyKey Sample.smtpConfigId 5000 := mkStats 100 0]}
         (Sample.world (Sample.draft None ["ann@example.com"])
            (Sample.config 500 100 (Some 1000)) Sample.accepting 5000 true))
    = (Ok (mkSendEmailResult false None
             (Some "Hourly rate limit (100) exceeded for main") "failed" None), w')
    /\ delivered w' = [].
Proof.
  destruct (hourly_limit_refuses
              (set_dailyStats
                 {[EmailService.hourlyKey Sample.smtpConfigId 5000 := mkStats 100 0]}
                 (Sample.world (Sample.draft None ["ann@example.com"])
                    (Sample.config 500 100 (Some 1000)) Sample.accepting 5000 true))
              Sample.smtpConfigId
              (mkEmailOptions "ann@example.com" "Hello" None None None None None)
              (Sample.config 500 100 (Some 1000))
              eq_refl eq_refl eq_refl eq_refl eq_refl)
    as (w' & Hrun & Hdelivered & _).
  - vm_compute. split; [reflexivity | discriminate].
  - exists w'. split; [exact Hrun | exact Hdelivered].
Defined.



(** A configuration id that is no ObjectId: with the empty id [sendEmail]
    returns a failed result and counts nothing; with any other such id the
    counting in its [catch] block raises, so the call raises instead of
    returning a result.  Either way the failure is logged and nothing else
    is written. *)
Theorem sendEmail_bad_id (w : World) (id : string) (opts : EmailOptions) :
  isObjectId id = false ->
  exists msg e,
    let w' := set_logger (logger w ++ [EmailSendFailed (to opts) msg]) w in
    EmailService.sendEmail id opts w
    = (if String.eqb id EmptyString
       then Ok (mkSendEmailResult false None (Some msg) "failed" None)
       else Throw e, w').
Proof.
  intros Hoid. unfold_send. mrun. rewrite Hoid. mrun.
  destruct (String.eqb id EmptyString); mrun;
    [eexists _, (JsError EmptyString) | eexists _, _]; reflexivity.
Qed.

Lemma sendEmail_bad_id_witness :
  exists msg e,
    EmailService.sendEmail "primary"
      (mkEmailOptions "ann@example.com" "Hello" None None None None None)
      (Sample.world (Sample.draft None ["ann@example.com"])
         (Sample.config 500 0 None) Sample.accepting 5000 true)
    = (Throw e,
       set_logger [EmailSendFailed "ann@example.com" msg]
         (Sample.world (Sample.draft None ["ann@example.com"])
            (Sample.config 500 0 None) Sample.accepting 5000 true)).
Proof.
  exact (sendEmail_bad_id
           (Sample.world (Sample.draft None ["ann@example.com"])
              (Sample.config 500 0 None) Sample.accepting 5000 true)
           "primary"
           (mkEmailOptions "ann@example.com" "Hello" None None None None None)
           eq_refl).
Defined.

(** ** The transporter cache *)

(** A verified connection is cached under host, port and user name: after
    it, any configuration with the same three is served from the cache, with
    neither a handshake nor a log entry, whatever the server would answer
    for it.  A failed handshake raises its error and caches nothing, and the
    close handler removes the entry. *)
Theorem transporter_cached_by_host_port_user (w : World) (cfg cfg' : SMTPConfig.t) :
  EmailService.cacheKey cfg' = EmailService.cacheKey cfg ->
  (verify (smtp w) cfg = None ->
   (EmailService.getTransporter cfg w).1 = Ok tt
   /\ EmailService.getTransporter cfg' (exec (EmailService.getTransporter cfg) w)
      = (Ok tt, exec (EmailService.getTransporter cfg) w))
  /\ (forall msg,
        verify (smtp w) cfg = Some msg ->
        EmailService.cacheKey cfg ∉ transportCache w ->
        (EmailService.getTransporter cfg w).1 = Throw (JsError msg)
        /\ transportCache (exec (EmailService.getTransporter cfg) w)
           = transportCache w)
  /\ EmailService.cacheKey cfg'
     ∉ transportCache
         (EmailService.onClose cfg (exec (EmailService.getTransporter cfg) w)).
Proof.
  intros Hkey. split; [| split].
  - intros Hverify. unfold EmailService.getTransporter. mrun. rewrite Hkey.
    case_bool_decide as Hcached; mrun.
    + split; [reflexivity |]. now rewrite bool_decide_true.
    + rewrite Hverify. mrun. world_fields. split; [reflexivity |].
      rewrite bool_decide_true by set_solver. reflexivity.
  - intros msg Hverify Hcached. unfold EmailService.getTransporter. mrun.
    rewrite bool_decide_false by exact Hcached. mrun. rewrite Hverify. mrun.
    split; reflexivity.
  - unfold EmailService.onClose. world_fields. rewrite Hkey.
    intros [_ Hout]%elem_of_difference. apply Hout. now apply elem_of_singleton.
Qed.

Lemma transporter_cached_by_host_port_user_witness :
  let w :=
    Sample.world (Sample.draft None ["ann@example.com"])
      (Sample.config 500 0 None)
      (mkTransport
         (fun c => if String.eqb (SMTPConfig.name c) "main" then None
                   else Some "535 authentication failed")
         (sendMail Sample.accepting))
      5000 true in
  let other :=
    SMTPConfig.mk "64b0000000000000000000f2" "second" "smtp.example.com" 587 "mailer"
      "sales@example.com" "Sales" 10 0 None 0 0 true 100 in
  (EmailService.getTransporter other w).1 = Throw (JsError "535 authentication failed")
  /\ EmailService.getTransporter other
       (exec (EmailService.getTransporter (Sample.config 500 0 None)) w)
     = (Ok tt, exec (EmailService.getTransporter (Sample.config 500 0 None)) w).
Proof.
  intros w other.
  destruct (transporter_cached_by_host_port_user w (Sample.config 500 0 None) other
              eq_refl) as [Hreuse _].
  split; [reflexivity | exact (proj2 (Hreuse eq_refl))].
Defined.

(** ** Guards of the campaign operations *)


Lemma select_owned (w : World) (cid uid : string) (st : option string)
    (c : Campaign.t) :
  campaignModel w !! cid = Some c ->
  Campaign.userId c = uid ->
  CampaignModel.select (CampaignModel.mkFilter cid (Some uid) st None) w
  = if CampaignModel.holds st (Campaign.status c) then Some c else None.
Proof.
  intros Hc <-. unfold CampaignModel.select, CampaignModel.matches.
  cbn [CampaignModel.by_id CampaignModel.by_userId CampaignModel.by_status
       CampaignModel.by_email].
  rewrite Hc. cbn [CampaignModel.holds]. rewrite String.eqb_refl.
  cbn [andb]. now rewrite andb_true_r.
Qed.

Ltac unfold_campaign_ops :=
  unfold CampaignService.startCampaign, CampaignService.pauseCampaign,
    CampaignService.resumeCampaign, CampaignService.updateCampaign,
    CampaignService.deleteCampaign, CampaignModel.findByIdAndUpdate,
    CampaignModel.findOneAndUpdate, CampaignModel.findOne, castObjectId.



(** The status guards: a campaign that is neither draft nor paused cannot
    be started, only a running one can be paused, only a paused one
    resumed, and a running one cannot be updated.  A refused operation
    writes nothing. *)
Theorem campaign_status_guards (others : list (World -> World))
    (campaignId userId : string) (set : Campaign.t -> Campaign.t)
    (c : Campaign.t) (w : World) :
  isObjectId campaignId = true ->
  isObjectId userId = true ->
  campaignModel w !! campaignId = Some c ->
  Campaign.userId c = userId ->
  (Campaign.status c <> "draft" -> Campaign.status c <> "paused" ->
   CampaignService.startCampaign others campaignId userId w
   = (Throw (HttpException
               ("Campaign cannot be started from " +:+ Campaign.status c +:+ " status")
               400), w))
  /\ (Campaign.status c <> "running" ->
      CampaignService.pauseCampaign campaignId userId w
      = (Throw (HttpException "Campaign not found or not running" 404), w))
  /\ (Campaign.status c <> "paused" ->
      CampaignService.resumeCampaign others campaignId userId w
      = (Throw (HttpException "Campaign not found or not paused" 404), w))
  /\ (Campaign.status c = "running" ->
      CampaignService.updateCampaign campaignId userId set w
      = (Throw (HttpException "Cannot update a running campaign" 400), w)).
Proof.
  intros Hcid Huid Hc Howner.
  unfold_campaign_ops. rewrite Hcid, Huid. mrun.
  rewrite ?checkUpdate_known by reflexivity. mrun.
  rewrite !(select_owned w campaignId userId _ c Hc Howner).
  cbn [CampaignModel.holds].
  split; [| split; [| split]].
  - intros Hd Hp. apply String.eqb_neq in Hd, Hp. rewrite Hd, Hp. reflexivity.
  - intros Hr. apply String.eqb_neq in Hr. rewrite Hr. reflexivity.
  - intros Hp. apply String.eqb_neq in Hp. rewrite Hp. reflexivity.
  - intros ->. reflexivity.
Qed.

Lemma campaign_status_guards_witness :
  CampaignService.startCampaign [] Sample.campaignId Sample.userId
    (Sample.world (Sample.running None ["ann@example.com"])
       (Sample.config 500 0 None) Sample.accepting 5000 true)
  = (Throw (HttpException "Campaign cannot be started from running status" 400),
     Sample.world (Sample.running None ["ann@example.com"])
       (Sample.config 500 0 None) Sample.accepting 5000 true).
Proof.
  refine (proj1 (campaign_status_guards [] Sample.campaignId Sample.userId
                   (fun c => c) (Sample.running None ["ann@example.com"])
                   (Sample.world (Sample.running None ["ann@example.com"])
                      (Sample.config 500 0 None) Sample.accepting 5000 true)
                   eq_refl eq_refl eq_refl eq_refl) _ _); discriminate.
Defined.

(** ** Pausing and deleting *)

(** Pausing a running campaign of the user writes its status and nothing
    else; deleting a campaign of the user removes its document and nothing
    else. *)
Lemma pause_and_delete_effect (campaignId userId : string) (c : Campaign.t)
    (w : World) :
  isObjectId campaignId = true ->
  isObjectId userId = true ->
  campaignModel w !! campaignId = Some c ->
  Campaign.userId c = userId ->
  (Campaign.status c = "running" ->
   CampaignService.pauseCampaign campaignId userId w
   = (Ok tt,
      set_campaignModel
        (<[campaignId := Campaign.set_status "paused" c]> (campaignModel w)) w))
  /\ CampaignService.deleteCampaign campaignId userId w
     = (Ok tt, set_campaignModel (delete campaignId (campaignModel w)) w).
Proof.
  intros Hcid Huid Hc Howner.
  unfold_campaign_ops. rewrite Hcid, Huid. mrun.
  rewrite ?checkUpdate_known by reflexivity. mrun.
  rewrite !(select_owned w campaignId userId _ c Hc Howner).
  cbn [CampaignModel.holds]. split; [| reflexivity].
  intros ->. reflexivity.
Qed.

(** A continuation that is already scheduled outlives a pause and a delete
    of its campaign: neither cancels the timer, and when it comes due it
    still attempts the pending recipients of the document it captured, up to
    the cap, although the stored campaign is paused, or gone. *)
Theorem continuation_survives_pause_and_delete (others : list (World -> World))
    (campaignId userId : string) (stored captured : Campaign.t)
    (cfg : SMTPConfig.t) (due : Date) (later : list (Date * Campaign.t))
    (w : World) :
  isObjectId campaignId = true ->
  isObjectId userId = true ->
  campaignModel w !! campaignId = Some stored ->
  Campaign.userId stored = userId ->
  Campaign.status stored = "running" ->
  timers w = (due, captured) :: later ->
  Forall keepsLog others ->
  smtpConfigModel w !! Campaign.smtpConfigId captured = Some cfg ->
  isObjectId (SMTPConfig._id cfg) = true ->
  0 <= Js.or_number
         (Settings.maxEmailsPerHour
            (default Settings.empty (Campaign.settings captured))) 100 ->
  let batch :=
    map CampaignEmail.email
      (take (Z.to_nat
               (Js.or_number
                  (Settings.maxEmailsPerHour
                     (default Settings.empty (Campaign.settings captured))) 100))
         (List.filter CampaignService.isPending (Campaign.emails captured))) in
  (exists w1 w2,
     CampaignService.pauseCampaign campaignId userId w = (Ok tt, w1)
     /\ Campaign.status <$> campaignModel w1 !! campaignId = Some "paused"
     /\ CampaignService.fireTimer others w1 = (Ok tt, w2)
     /\ attempts (logger w2) = (attempts (logger w) ++ batch)%list)
  /\ (exists w1 w2,
        CampaignService.deleteCampaign campaignId userId w = (Ok tt, w1)
        /\ campaignModel w1 !! campaignId = None
        /\ CampaignService.fireTimer others w1 = (Ok tt, w2)
        /\ attempts (logger w2) = (attempts (logger w) ++ batch)%list).
Proof.
  intros Hcid Huid Hstored Howner Hrunning Htimers Hquiet Hcfg Hoid Hcap batch.
  destruct (pause_and_delete_effect campaignId userId stored w Hcid Huid Hstored
              Howner) as [Hpause Hdelete].
  specialize (Hpause Hrunning). split.
  - destruct (pass_attempts_capped others captured cfg
                (set_now (Z.max (now w) due)
                   (set_timers later
                      (set_campaignModel
                         (<[campaignId := Campaign.set_status "paused" stored]>
                            (campaignModel w)) w)))
                Hquiet Hcfg Hoid Hcap) as (w2 & Hrun & Hatt).
    eexists _, w2. split; [exact Hpause |].
    split; [world_fields; now rewrite lookup_insert_eq |].
    split; [| exact Hatt].
    unfold CampaignService.fireTimer. mrun. world_fields. rewrite Htimers. mrun.
    exact Hrun.
  - destruct (pass_attempts_capped others captured cfg
                (set_now (Z.max (now w) due)
                   (set_timers later
                      (set_campaignModel (delete campaignId (campaignModel w)) w)))
                Hquiet Hcfg Hoid Hcap) as (w2 & Hrun & Hatt).
    eexists _, w2. split; [exact Hdelete |].
    split; [world_fields; apply lookup_delete_eq |].
    split; [| exact Hatt].
    unfold CampaignService.fireTimer. mrun. world_fields. rewrite Htimers. mrun.
    exact Hrun.
Qed.

Lemma continuation_survives_pause_and_delete_witness :
  let captured :=
    Sample.running (Some (Settings.mk None (Some 1)))
      ["ann@example.com"; "bob@example.com"] in
  let stored :=
    Campaign.set_emails
      [Sample.recipient "ann@example.com" "sent";
       Sample.recipient "bob@example.com" "pending"] captured in
  let w :=
    set_timers [(3600000, captured)]
      (Sample.world stored (Sample.config 500 1 (Some 1000)) Sample.accepting
         6000 true) in
  exists w1 w2,
    CampaignService.deleteCampaign Sample.campaignId Sample.userId w = (Ok tt, w1)
    /\ campaignModel w1 !! Sample.campaignId = None
    /\ CampaignService.fireTimer [] w1 = (Ok tt, w2)
    /\ attempts (logger w2) = ["ann@example.com"].
Proof.
  intros captured stored w.
  destruct (continuation_survives_pause_and_delete [] Sample.campaignId
              Sample.userId stored captured (Sample.config 500 1 (Some 1000))
              3600000 [] w eq_refl eq_refl eq_refl eq_refl eq_refl eq_refl
              (Forall_nil_2 _) eq_refl eq_refl) as [_ Hdelete].
  - vm_compute. discriminate.
  - exact Hdelete.
Defined.

(** ** Starting and resuming *)

Lemma select_by_id (w : World) (cid : string) (c : Campaign.t) :
  campaignModel w !! cid = Some c ->
  CampaignModel.select (CampaignModel.byId cid) w = Some c.
Proof.
  intros Hc. unfold CampaignModel.select, CampaignModel.byId. cbn. now rewrite Hc.
Qed.

(** A start (from draft or paused) and a resume (from paused) work on the
    stored document: the pass they begin attempts the recipients that are
    pending in the store, in order, up to the cap. *)
Theorem start_and_resume_attempt_stored_pending (others : list (World -> World))
    (campaignId userId : string) (c : Campaign.t) (cfg : SMTPConfig.t) (w : World) :
  isObjectId campaignId = true ->
  isObjectId userId = true ->
  campaignModel w !! campaignId = Some c ->
  Campaign.userId c = userId ->
  Forall keepsLog others ->
  smtpConfigModel w !! Campaign.smtpConfigId c = Some cfg ->
  isObjectId (SMTPConfig._id cfg) = true ->
  0 <= Js.or_number
         (Settings.maxEmailsPerHour
            (default Settings.empty (Campaign.settings c))) 100 ->
  let batch :=
    map CampaignEmail.email
      (take (Z.to_nat
               (Js.or_number
                  (Settings.maxEmailsPerHour
                     (default Settings.empty (Campaign.settings c))) 100))
         (List.filter CampaignService.isPending (Campaign.emails c))) in
  (Campaign.status c = "draft" \/ Campaign.status c = "paused" ->
   exists w',
     CampaignService.startCampaign others campaignId userId w = (Ok tt, w')
     /\ attempts (logger w') = (attempts (logger w) ++ batch)%list)
  /\ (Campaign.status c = "paused" ->
      exists w',
        CampaignService.resumeCampaign others campaignId userId w = (Ok tt, w')
        /\ attempts (logger w') = (attempts (logger w) ++ batch)%list).
Proof.
  intros Hcid Huid Hc Howner Hquiet Hcfg Hoid Hcap batch. split.
  - intros Hstatus.
    unfold_campaign_ops. rewrite Hcid, Huid. mrun.
    rewrite (select_owned w campaignId userId _ c Hc Howner).
    cbn [CampaignModel.holds].
    replace (negb (Campaign.status c =? "draft")%string
             && negb (Campaign.status c =? "paused")%string) with false
      by (destruct Hstatus as [-> | ->]; reflexivity).
    rewrite checkUpdate_known by reflexivity. mrun.
    rewrite (select_by_id w campaignId c Hc). mrun.
    set (c' := applyUpdate None
                 [Plain "status" (VStr "running"); Plain "startedAt" (VDate (now w))]
                 c).
    destruct (pass_attempts_capped others c' cfg
                (set_campaignModel (<[campaignId := c']> (campaignModel w)) w)
                Hquiet Hcfg Hoid Hcap) as (w' & Hrun & Hatt).
    exists w'. split; [exact Hrun | exact Hatt].
  - intros Hstatus.
    unfold_campaign_ops. rewrite Hcid, Huid. mrun.
    rewrite checkUpdate_known by reflexivity. mrun.
    rewrite (select_owned w campaignId userId _ c Hc Howner).
    cbn [CampaignModel.holds]. rewrite Hstatus. mrun.
    set (c' := applyUpdate None [Plain "status" (VStr "running")] c).
    destruct (pass_attempts_capped others c' cfg
                (set_campaignModel (<[campaignId := c']> (campaignModel w)) w)
                Hquiet Hcfg Hoid Hcap) as (w' & Hrun & Hatt).
    exists w'. split; [exact Hrun | exact Hatt].
Qed.

Lemma start_and_resume_attempt_stored_pending_witness :
  let stored :=
    Campaign.set_status "paused"
      (Campaign.set_emails
         [Sample.recipient "ann@example.com" "sent";
          Sample.recipient "bob@example.com" "pending"]
         (Sample.draft (Some (Settings.mk None (Some 1))) [])) in
  exists w',
    CampaignService.resumeCampaign [] Sample.campaignId Sample.userId
      (Sample.world stored (Sample.config 500 1 (Some 1000)) Sample.accepting
         6000 true)
    = (Ok tt, w')
    /\ attempts (logger w') = ["bob@example.com"].
Proof.
  intros stored.
  destruct (start_and_resume_attempt_stored_pending [] Sample.campaignId
              Sample.userId stored (Sample.config 500 1 (Some 1000))
              (Sample.world stored (Sample.config 500 1 (Some 1000))
                 Sample.accepting 6000 true)
              eq_refl eq_refl eq_refl eq_refl (Forall_nil_2 _) eq_refl eq_refl)
    as [_ Hresume].
  - vm_compute. discriminate.
  - exact (Hresume eq_refl).
Defined.

(** ** The pass and the store *)

Lemma updateOne_recipient (cid addr : string) (u : Update) (w : World) :
  unknownModifier u = None ->
  exists w',
    CampaignModel.updateOne (CampaignModel.mkFilter cid None None (Some addr)) u w
    = (Ok tt, w')
    /\ campaignModel w' = writeRecipient cid addr u (campaignModel w)
    /\ smtpConfigModel w' = smtpConfigModel w
    /\ timers w' = timers w /\ now w' = now w /\ logger w' = logger w
    /\ delivered w' = delivered w.
Proof.
  intros Hu. unfold CampaignModel.updateOne, CampaignModel.findOneAndUpdate,
    CampaignModel.findOne. mrun. rewrite (checkUpdate_known _ _ Hu). mrun.
  unfold CampaignModel.select, CampaignModel.matches, CampaignModel.position,
    writeRecipient.
  cbn [CampaignModel.by_id CampaignModel.by_userId CampaignModel.by_status
       CampaignModel.by_email CampaignModel.holds andb].
  destruct (campaignModel w !! cid) as [c|]; [| eexists; repeat split].
  destruct (positionOf addr (Campaign.emails c)) as [p|] eqn:Hp.
  - rewrite bool_decide_true by eauto. mrun. rewrite Hp.
    eexists. repeat split.
  - rewrite bool_decide_false by (intros [? [=]]). eexists. repeat split.
Qed.

Lemma complete_run (cid : string) (w : World) :
  exists w',
    CampaignService.complete cid w = (Ok tt, w')
    /\ campaignModel w' = writeCompleted cid (now w) (campaignModel w)
    /\ timers w' = timers w /\ now w' = now w /\ logger w' = logger w.
Proof.
  unfold CampaignService.complete, CampaignModel.findByIdAndUpdate,
    CampaignModel.findOneAndUpdate, CampaignModel.findOne. mrun.
  rewrite checkUpdate_known by reflexivity. mrun.
  unfold CampaignModel.select, CampaignModel.byId, writeCompleted.
  cbn [CampaignModel.by_id]. 
  destruct (campaignModel w !! cid) as [c|]; eexists; repeat split.
Qed.

(** One iteration: what it writes, whatever [sendEmail] does. *)
Lemma processOne_run (campaign : Campaign.t) (template : option EmailTemplate.t)
    (smtpConfig : SMTPConfig.t) (delay k : Z) (email : CampaignEmail.t) (w : World) :
  exists r w1 n w',
    EmailService.sendEmail (SMTPConfig._id smtpConfig)
      (CampaignService.emailOptionsFor campaign template email (now w)) w = (r, w1)
    /\ CampaignService.processOne campaign template smtpConfig delay k email w
       = (Ok n, w')
    /\ timers w' = timers w
    /\ smtpConfigModel w' = smtpConfigModel w1
    /\ match r with
       | Ok res =>
           n = k + 1
           /\ campaignModel w'
              = writeRecipient (Campaign._id campaign) (CampaignEmail.email email)
                  (CampaignService.resultUpdate res (now w)) (campaignModel w)
           /\ now w' = now w + pauseAfterSend delay
       | Throw e =>
           n = k
           /\ campaignModel w'
              = writeRecipient (Campaign._id campaign) (CampaignEmail.email email)
                  (CampaignService.failureUpdate e) (campaignModel w)
           /\ now w' = now w
       end.
Proof.
  unfold CampaignService.processOne. mrun.
  destruct (sendEmail_attempt (SMTPConfig._id smtpConfig)
              (CampaignService.emailOptionsFor campaign template email (now w)) w)
    as (r & w1 & Hrun & (Hcm & _ & Htim & _ & _ & Hnow) & _).
  rewrite Hrun. exists r, w1. destruct r as [res|e].
  - destruct (updateOne_recipient (Campaign._id campaign) (CampaignEmail.email email)
                (CampaignService.resultUpdate res (now w1)) w1
                (resultUpdate_known _ _))
      as (w2 & Hupd & Hcm2 & Hcfg2 & Htim2 & Hnow2 & _).
    unfold CampaignService.recipientFilter. rewrite Hupd.
    unfold pauseAfterSend.
    destruct (0 <? delay); mrun; eexists _, _; (split; [reflexivity |]);
      (split; [reflexivity |]); world_fields;
      rewrite ?Htim2, ?Hcfg2, ?Hcm2, ?Hnow2, ?Hcm, ?Hnow, ?Z.add_0_r; repeat split;
      assumption.
  - destruct (updateOne_recipient (Campaign._id campaign) (CampaignEmail.email email)
                (CampaignService.failureUpdate e)
                (set_logger
                   (logger w1 ++ [ProcessEmailFailed (CampaignEmail.email email)
                                    (message e)]) w1)
                (failureUpdate_known _))
      as (w2 & Hupd & Hcm2 & Hcfg2 & Htim2 & Hnow2 & _).
    unfold CampaignService.recipientFilter. rewrite Hupd.
    eexists _, _. split; [reflexivity |]. split; [reflexivity |].
    revert Hcm2 Hcfg2 Htim2 Hnow2. world_fields. intros -> -> -> ->.
    rewrite Hcm. repeat split; assumption.
Qed.

(** The two updates of the loop rewrite one recipient in place: its address
    stays, it is no longer pending, and nothing else of the recipients or of
    the campaign status changes. *)
Lemma loop_update_frame (u : Update) (p : nat) (c : Campaign.t) :
  (exists res d, u = CampaignService.resultUpdate res d)
  \/ (exists e, u = CampaignService.failureUpdate e) ->
  (forall j, j <> p ->
     Campaign.emails (applyUpdate (Some p) u c) !! j = Campaign.emails c !! j)
  /\ (forall a, positionOf a (Campaign.emails (applyUpdate (Some p) u c))
                = positionOf a (Campaign.emails c))
  /\ Campaign.status (applyUpdate (Some p) u c) = Campaign.status c
  /\ (forall e, Campaign.emails c !! p = Some e ->
        exists e', Campaign.emails (applyUpdate (Some p) u c) !! p = Some e'
                   /\ CampaignEmail.email e' = CampaignEmail.email e
                   /\ CampaignService.isPending e' = false).
Proof.
  intros [(res & d & ->)|(e & ->)].
  - destruct res as [ok mid err st resp]. destruct ok, mid, err; cbn.
    all: split; [intros j Hj; now rewrite !list_lookup_alter_ne by congruence |].
    all: split; [intros a; now rewrite !positionOf_alter by reflexivity |].
    all: split; [reflexivity |].
    all: intros e He; rewrite !list_lookup_alter_eq, He; cbn.
    all: eexists; repeat split.
  - cbn.
    split; [intros j Hj; now rewrite !list_lookup_alter_ne by congruence |].
    split; [intros a; now rewrite !positionOf_alter by reflexivity |].
    split; [reflexivity |].
    intros e0 He; rewrite !list_lookup_alter_eq, He; cbn.
    eexists; repeat split.
Qed.

(** A recipient that stands behind another one with the same address is
    out of reach of the loop's updates. *)
Lemma writeRecipient_skips_duplicate (cid addr : string) (u : Update)
    (m : gmap string Campaign.t) (stored : Campaign.t) (i j : nat)
    (ej : CampaignEmail.t) :
  (exists res d, u = CampaignService.resultUpdate res d)
  \/ (exists e, u = CampaignService.failureUpdate e) ->
  m !! cid = Some stored ->
  Campaign.emails stored !! j = Some ej ->
  positionOf (CampaignEmail.email ej) (Campaign.emails stored) = Some i ->
  i <> j ->
  exists stored',
    writeRecipient cid addr u m !! cid = Some stored'
    /\ Campaign.emails stored' !! j = Some ej
    /\ positionOf (CampaignEmail.email ej) (Campaign.emails stored') = Some i
    /\ Campaign.status stored' = Campaign.status stored.
Proof.
  intros Hu Hm Hj Hi Hij. unfold writeRecipient. rewrite Hm.
  destruct (positionOf addr (Campaign.emails stored)) as [p|] eqn:Hp;
    [| exists stored; repeat split; assumption].
  assert (Hpj : j <> p).
  { intros ->. destruct (positionOf_lookup _ _ _ Hp) as (e & He & Haddr).
    rewrite Hj in He. injection He as <-. rewrite Haddr, Hp in Hi. congruence. }
  destruct (loop_update_frame u p stored Hu) as (Hothers & Hpos & Hstatus & _).
  eexists. split; [apply lookup_insert_eq |].
  split; [now rewrite (Hothers j Hpj) |].
  split; [now rewrite Hpos | exact Hstatus].
Qed.

Lemma hd_keeps {P : (World -> World) -> Prop} (others : list (World -> World)) :
  P id -> Forall P others -> P (hd id others) /\ Forall P (tl others).
Proof. intros Hid [|f fs Hf Hfs]; split; try assumption; constructor. Qed.

Lemma dispatch_skips_duplicate (campaign : Campaign.t)
    (template : option EmailTemplate.t) (smtpConfig : SMTPConfig.t)
    (delay maxPerHour : Z) (i j : nat) (ej : CampaignEmail.t) (st : string)
    (pendingEmails : list CampaignEmail.t) :
  i <> j ->
  forall (others : list (World -> World)) (k : Z) (w : World),
    Forall keepsCampaigns others ->
    (exists stored,
       campaignModel w !! Campaign._id campaign = Some stored
       /\ Campaign.emails stored !! j = Some ej
       /\ positionOf (CampaignEmail.email ej) (Campaign.emails stored) = Some i
       /\ Campaign.status stored = st) ->
    exists w',
      CampaignService.dispatch others campaign template smtpConfig delay
        maxPerHour k pendingEmails w = (Ok tt, w')
      /\ exists stored',
           campaignModel w' !! Campaign._id campaign = Some stored'
           /\ Campaign.emails stored' !! j = Some ej
           /\ positionOf (CampaignEmail.email ej) (Campaign.emails stored') = Some i
           /\ Campaign.status stored' = st.
Proof.
  intros Hij.
  induction pendingEmails as [|email rest IH]; intros others k w Hquiet Hinv.
  - exists w. split; [reflexivity | exact Hinv].
  - cbn [CampaignService.dispatch].
    destruct (maxPerHour <=? k).
    + mrun. eexists. split; [reflexivity | exact Hinv].
    + mrun.
      destruct (processOne_run campaign template smtpConfig delay k email w)
        as (r & w1 & n & w' & _ & -> & _ & _ & Hr).
      destruct (hd_keeps (P := keepsCampaigns) others (fun _ => eq_refl) Hquiet)
        as [Hhd Htl].
      apply (IH (tl others) n (hd id others w') Htl).
      rewrite (Hhd w').
      destruct Hinv as (stored & Hm & Hj & Hi & Hst).
      destruct r as [res|e]; destruct Hr as (_ & -> & _).
      * destruct (writeRecipient_skips_duplicate (Campaign._id campaign)
                    (CampaignEmail.email email)
                    (CampaignService.resultUpdate res (now w)) _ stored i j ej
                    (or_introl (ex_intro _ res (ex_intro _ (now w) eq_refl)))
                    Hm Hj Hi Hij) as (stored' & H1 & H2 & H3 & H4).
        exists stored'. rewrite H4. repeat split; assumption.
      * destruct (writeRecipient_skips_duplicate (Campaign._id campaign)
                    (CampaignEmail.email email)
                    (CampaignService.failureUpdate e) _ stored i j ej
                    (or_intror (ex_intro _ e eq_refl))
                    Hm Hj Hi Hij) as (stored' & H1 & H2 & H3 & H4).
        exists stored'. rewrite H4. repeat split; assumption.
Qed.

Lemma filter_pending_member (es : list CampaignEmail.t) (j : nat)
    (e : CampaignEmail.t) :
  es !! j = Some e -> CampaignService.isPending e = true ->
  List.filter CampaignService.isPending es <> [].
Proof.
  intros Hj Hp Hnil.
  assert (Hin : In e (List.filter CampaignService.isPending es)).
  { apply filter_In. split; [| exact Hp].
    apply list_elem_of_In. now apply (list_elem_of_lookup_2 _ j). }
  rewrite Hnil in Hin. exact Hin.
Qed.

(** Two recipients with the same address: every result for the address is
    written to the first of them, so the later one stays pending in the
    store through a whole pass, whatever the pass does, and the pass does
    not complete the campaign. *)
Theorem duplicate_address_never_completes (others : list (World -> World))
    (campaign : Campaign.t) (i j : nat) (ej : CampaignEmail.t) (w : World) :
  Forall keepsCampaigns others ->
  campaignModel w !! Campaign._id campaign = Some campaign ->
  Campaign.emails campaign !! j = Some ej ->
  CampaignService.isPending ej = true ->
  positionOf (CampaignEmail.email ej) (Campaign.emails campaign) = Some i ->
  i <> j ->
  exists stored',
    campaignModel (exec (CampaignService.processCampaignEmails others campaign) w)
    !! Campaign._id campaign = Some stored'
    /\ Campaign.emails stored' !! j = Some ej
    /\ Campaign.status stored' = Campaign.status campaign.
Proof.
  intros Hquiet Hstored Hj Hpending Hi Hij.
  unfold exec, CampaignService.processCampaignEmails.
  pose proof (filter_pending_member _ _ _ Hj Hpending) as Hne.
  destruct (List.filter CampaignService.isPending (Campaign.emails campaign))
    as [|e1 rest]; [contradiction |].
  assert (Hinv : exists stored,
            campaignModel w !! Campaign._id campaign = Some stored
            /\ Campaign.emails stored !! j = Some ej
            /\ positionOf (CampaignEmail.email ej) (Campaign.emails stored) = Some i
            /\ Campaign.status stored = Campaign.status campaign)
    by (exists campaign; repeat split; assumption).
  unfold SmtpConfigModel.findById, EmailTemplateModel.findById. mrun.
  destruct (Campaign.templateId campaign) as [tid|]; mrun.
  all: destruct (smtpConfigModel w !! Campaign.smtpConfigId campaign) as [cfg|];
    [| exists campaign; repeat split; assumption].
  1: destruct (dispatch_skips_duplicate campaign (emailTemplateModel w !! tid) cfg
                 (Js.or_number (Settings.delayBetweenEmails
                    (default Settings.empty (Campaign.settings campaign))) 1000)
                 (Js.or_number (Settings.maxEmailsPerHour
                    (default Settings.empty (Campaign.settings campaign))) 100)
                 i j ej (Campaign.status campaign) (e1 :: rest) Hij others 0 w
                 Hquiet Hinv)
       as (w1 & -> & stored' & Hm' & Hj' & _ & Hst').
  2: destruct (dispatch_skips_duplicate campaign None cfg
                 (Js.or_number (Settings.delayBetweenEmails
                    (default Settings.empty (Campaign.settings campaign))) 1000)
                 (Js.or_number (Settings.maxEmailsPerHour
                    (default Settings.empty (Campaign.settings campaign))) 100)
                 i j ej (Campaign.status campaign) (e1 :: rest) Hij others 0 w
                 Hquiet Hinv)
       as (w1 & -> & stored' & Hm' & Hj' & _ & Hst').
  all: unfold CampaignModel.findById, CampaignModel.findOne; mrun.
  all: rewrite (select_by_id w1 _ stored' Hm').
  all: pose proof (filter_pending_member _ _ _ Hj' Hpending) as Hne'.
  all: destruct (List.filter CampaignService.isPending (Campaign.emails stored'));
    [contradiction |].
  all: exists stored'; repeat split; assumption.
Qed.

Lemma duplicate_address_never_completes_witness :
  let campaign :=
    Sample.running None ["ann@example.com"; "bob@example.com"; "ann@example.com"] in
  exists stored',
    campaignModel
      (exec (CampaignService.processCampaignEmails [] campaign)
         (Sample.world campaign (Sample.config 500 0 (Some 1000)) Sample.accepting
            5000 true))
    !! Sample.campaignId = Some stored'
    /\ Campaign.emails stored' !! 2%nat
       = Some (Sample.recipient "ann@example.com" "pending")
    /\ Campaign.status stored' = "running".
Proof.
  intros campaign.
  exact (duplicate_address_never_completes [] campaign 0 2
           (Sample.recipient "ann@example.com" "pending")
           (Sample.world campaign (Sample.config 500 0 (Some 1000)) Sample.accepting
              5000 true)
           (Forall_nil_2 _) eq_refl eq_refl eq_refl eq_refl (O_S 1)).
Defined.

(** ** The hourly cap of the loop *)

Lemma startOfNextHour_bounds (t : Date) :
  t < startOfNextHour t <= t + msPerHour.
Proof.
  unfold startOfNextHour, msPerHour.
  pose proof (Z.mul_div_le t 3600000 eq_refl).
  pose proof (Z.mul_succ_div_gt t 3600000 eq_refl). lia.
Qed.

(** With a configuration id that is an ObjectId, one iteration counts one
    message, pauses for the delay and schedules nothing. *)
Lemma processOne_clock (campaign : Campaign.t) (template : option EmailTemplate.t)
    (smtpConfig : SMTPConfig.t) (delay k : Z) (email : CampaignEmail.t) (w : World) :
  isObjectId (SMTPConfig._id smtpConfig) = true ->
  exists w',
    CampaignService.processOne campaign template smtpConfig delay k email w
    = (Ok (k + 1), w')
    /\ timers w' = timers w
    /\ now w' = now w + pauseAfterSend delay.
Proof.
  intros Hoid.
  destruct (processOne_run campaign template smtpConfig delay k email w)
    as (r & w1 & n & w' & Hsend & Hrun & Htimers & _ & Hr).
  destruct (sendEmail_returns (SMTPConfig._id smtpConfig)
              (CampaignService.emailOptionsFor campaign template email (now w))
              w Hoid) as (res & w1' & Hsend').
  rewrite Hsend' in Hsend. injection Hsend as <- <-.
  destruct Hr as (-> & _ & Hnow). exists w'. repeat split; assumption.
Qed.

Lemma dispatch_timers (campaign : Campaign.t) (template : option EmailTemplate.t)
    (smtpConfig : SMTPConfig.t) (delay maxPerHour : Z)
    (pendingEmails : list CampaignEmail.t) :
  isObjectId (SMTPConfig._id smtpConfig) = true ->
  forall (others : list (World -> World)) (k : Z) (w : World),
    Forall keepsTimers others ->
    Forall keepsClock others ->
    k <= maxPerHour ->
    exists w',
      CampaignService.dispatch others campaign template smtpConfig delay
        maxPerHour k pendingEmails w = (Ok tt, w')
      /\ timers w'
         = (timers w
            ++ if maxPerHour - k <? Z.of_nat (length pendingEmails)
               then [(startOfNextHour
                        (now w + (maxPerHour - k) * pauseAfterSend delay),
                      campaign)]
               else [])%list.
Proof.
  intros Hoid.
  induction pendingEmails as [|email rest IH]; intros others k w Htim Hclk Hcap.
  - exists w. split; [reflexivity |].
    cbn [length]. destruct (Z.ltb_spec (maxPerHour - k) (Z.of_nat 0)); [lia |].
    now rewrite app_nil_r.
  - cbn [CampaignService.dispatch].
    destruct (Z.leb_spec maxPerHour k) as [Hle|Hlt].
    + mrun. eexists. split; [reflexivity |]. world_fields.
      replace (maxPerHour - k) with 0 by lia. rewrite Z.mul_0_l, Z.add_0_r.
      destruct (Z.ltb_spec 0 (Z.of_nat (length (email :: rest))));
        [| cbn [length] in *; lia].
      do 3 f_equal. lia.
    + mrun.
      destruct (processOne_clock campaign template smtpConfig delay k email w Hoid)
        as (w1 & -> & Htimers & Hnow).
      destruct (hd_keeps (P := keepsTimers) others (fun _ => eq_refl) Htim)
        as [Hhd Htl].
      destruct (hd_keeps (P := keepsClock) others (fun _ => eq_refl) Hclk)
        as [Hhd' Htl'].
      destruct (IH (tl others) (k + 1) (hd id others w1) Htl Htl')
        as (w2 & Hrun & Htimers2); [lia |].
      exists w2. split; [exact Hrun |].
      rewrite Htimers2, (Hhd w1), (Hhd' w1), Htimers, Hnow.
      replace (now w + pauseAfterSend delay
               + (maxPerHour - (k + 1)) * pauseAfterSend delay)
        with (now w + (maxPerHour - k) * pauseAfterSend delay) by ring.
      cbn [length].
      destruct (Z.ltb_spec (maxPerHour - (k + 1)) (Z.of_nat (length rest)));
        destruct (Z.ltb_spec (maxPerHour - k) (Z.of_nat (S (length rest))));
        try lia; reflexivity.
Qed.

(** A pass schedules a continuation exactly when the campaign it was handed
    has more pending recipients than the cap, and then one only: for the
    start of the next hour after the last pause of the loop, with the
    document the pass was handed.  The due time is later than that moment,
    by an hour at most. *)
Theorem pass_schedules_one_continuation (others : list (World -> World))
    (campaign : Campaign.t) (cfg : SMTPConfig.t) (w : World) :
  Forall keepsTimers others ->
  Forall keepsClock others ->
  smtpConfigModel w !! Campaign.smtpConfigId campaign = Some cfg ->
  isObjectId (SMTPConfig._id cfg) = true ->
  let settings := default Settings.empty (Campaign.settings campaign) in
  let cap := Js.or_number (Settings.maxEmailsPerHour settings) 100 in
  let delay := Js.or_number (Settings.delayBetweenEmails settings) 1000 in
  let pending := List.filter CampaignService.isPending (Campaign.emails campaign) in
  let reached := now w + cap * pauseAfterSend delay in
  0 <= cap ->
  (exists w',
     CampaignService.processCampaignEmails others campaign w = (Ok tt, w')
     /\ timers w'
        = (timers w
           ++ if cap <? Z.of_nat (length pending)
              then [(startOfNextHour reached, campaign)] else [])%list)
  /\ reached < startOfNextHour reached <= reached + msPerHour.
Proof.
  intros Htim Hclk Hcfg Hoid settings cap delay pending reached Hcap.
  split; [| apply startOfNextHour_bounds].
  unfold CampaignService.processCampaignEmails. fold pending.
  destruct pending as [|e1 rest] eqn:Hpending.
  - destruct (complete_run (Campaign._id campaign) w) as (w' & -> & _ & Htimers & _).
    exists w'. split; [reflexivity |]. rewrite Htimers. cbn [length].
    destruct (Z.ltb_spec cap (Z.of_nat 0)); [lia | now rewrite app_nil_r].
  - unfold SmtpConfigModel.findById, EmailTemplateModel.findById. mrun.
    fold settings. fold delay. fold cap.
    destruct (Campaign.templateId campaign) as [tid|]; mrun; rewrite Hcfg.
    1: destruct (dispatch_timers campaign (emailTemplateModel w !! tid) cfg delay
                   cap (e1 :: rest) Hoid others 0 w Htim Hclk Hcap)
         as (w1 & -> & Htimers).
    2: destruct (dispatch_timers campaign None cfg delay cap (e1 :: rest) Hoid
                   others 0 w Htim Hclk Hcap) as (w1 & -> & Htimers).
    all: rewrite Z.sub_0_r in Htimers; fold reached in Htimers.
    all: unfold CampaignModel.findById, CampaignModel.findOne; mrun.
    all: destruct (CampaignModel.select _ w1) as [updated|];
      [| exists w1; split; [reflexivity | exact Htimers]].
    all: destruct (List.filter CampaignService.isPending (Campaign.emails updated));
      [| exists w1; split; [reflexivity | exact Htimers]].
    all: destruct (complete_run (Campaign._id campaign) w1)
      as (w' & -> & _ & Htimers' & _).
    all: exists w'; split; [reflexivity | now rewrite Htimers'].
Qed.

Lemma pass_schedules_one_continuation_witness :
  let campaign :=
    Sample.running (Some (Settings.mk (Some 2000) (Some 1)))
      ["ann@example.com"; "bob@example.com"] in
  exists w',
    CampaignService.processCampaignEmails [] campaign
      (Sample.world campaign (Sample.config 500 0 (Some 1000)) Sample.accepting
         5000 true)
    = (Ok tt, w')
    /\ timers w' = [(3600000, campaign)].
Proof.
  intros campaign.
  destruct (pass_schedules_one_continuation [] campaign
              (Sample.config 500 0 (Some 1000))
              (Sample.world campaign (Sample.config 500 0 (Some 1000))
                 Sample.accepting 5000 true)
              (Forall_nil_2 _) (Forall_nil_2 _) eq_refl eq_refl) as [Hpass _].
  - vm_compute. discriminate.
  - exact Hpass.
Defined.

(** ** Completion *)

(** [sendEmail] keeps a stored configuration stored, under its id. *)
Lemma sendEmail_keeps_config (id : string) (opts : EmailOptions) (w : World)
    (cfg : SMTPConfig.t) :
  smtpConfigModel w !! id = Some cfg ->
  SMTPConfig._id cfg = id ->
  exists cfg',
    smtpConfigModel (EmailService.sendEmail id opts w).2 !! id = Some cfg'
    /\ SMTPConfig._id cfg' = id.
Proof.
  intros Hcfg Hid. unfold_send. mrun.
  destruct (isObjectId id); mrun; rewrite ?Hcfg, ?Hid; run_cases.
  all: world_fields; rewrite ?lookup_alter_eq, ?Hcfg; cbn [fmap option_fmap option_map].
  all: eexists; split; [reflexivity |]; exact Hid.
Qed.

Lemma distinct_positions (es : list CampaignEmail.t) :
  NoDup (map CampaignEmail.email es) ->
  forall q e, es !! q = Some e -> positionOf (CampaignEmail.email e) es = Some q.
Proof.
  induction es as [|e0 es IH]; intros Hnd q e Hq; [discriminate |].
  apply NoDup_cons in Hnd as [Hnotin Hnd].
  destruct q as [|q]; cbn [positionOf].
  - injection Hq as ->. now rewrite String.eqb_refl.
  - cbn in Hq. destruct (String.eqb_spec (CampaignEmail.email e0)
                           (CampaignEmail.email e)) as [Heq|_].
    + exfalso. apply Hnotin. rewrite Heq. apply list_elem_of_fmap.
      exists e. split; [reflexivity | now apply (list_elem_of_lookup_2 _ q)].
    + now rewrite (IH Hnd q e Hq).
Qed.

Lemma filter_nil_none (es : list CampaignEmail.t) :
  List.filter CampaignService.isPending es = [] <->
  forall q e, es !! q = Some e -> CampaignService.isPending e = false.
Proof.
  split.
  - intros Hnil q e Hq. destruct (CampaignService.isPending e) eqn:Hp; [| reflexivity].
    now destruct (filter_pending_member _ _ _ Hq Hp).
  - intros Hnone. induction es as [|e es IH]; [reflexivity |].
    cbn [List.filter]. rewrite (Hnone O e eq_refl). apply IH.
    intros q e' Hq. exact (Hnone (S q) e' Hq).
Qed.

Lemma pending_member (es : list CampaignEmail.t) (e : CampaignEmail.t) :
  e ∈ List.filter CampaignService.isPending es <->
  e ∈ es /\ CampaignService.isPending e = true.
Proof. rewrite !list_elem_of_In. apply filter_In. Qed.

(** The state of the loop on a campaign of distinct addresses: every
    recipient that is still pending in the store is still to be processed. *)
Lemma dispatch_completes (campaign : Campaign.t) (template : option EmailTemplate.t)
    (smtpConfig : SMTPConfig.t) (delay maxPerHour : Z)
    (pendingEmails : list CampaignEmail.t) :
  isObjectId (SMTPConfig._id smtpConfig) = true ->
  forall (others : list (World -> World)) (k : Z) (w : World) (stored : Campaign.t),
    Forall keepsCampaigns others ->
    Forall keepsConfigs others ->
    k + Z.of_nat (length pendingEmails) <= maxPerHour ->
    campaignModel w !! Campaign._id campaign = Some stored ->
    (forall q e, Campaign.emails stored !! q = Some e ->
       positionOf (CampaignEmail.email e) (Campaign.emails stored) = Some q) ->
    (forall q e, Campaign.emails stored !! q = Some e ->
       CampaignService.isPending e = true ->
       CampaignEmail.email e ∈ map CampaignEmail.email pendingEmails) ->
    (forall e, e ∈ pendingEmails ->
       is_Some (positionOf (CampaignEmail.email e) (Campaign.emails stored))) ->
    (exists cfg, smtpConfigModel w !! SMTPConfig._id smtpConfig = Some cfg
                 /\ SMTPConfig._id cfg = SMTPConfig._id smtpConfig) ->
    exists w' stored',
      CampaignService.dispatch others campaign template smtpConfig delay
        maxPerHour k pendingEmails w = (Ok tt, w')
      /\ campaignModel w' !! Campaign._id campaign = Some stored'
      /\ (forall q e, Campaign.emails stored' !! q = Some e ->
            CampaignService.isPending e = false)
      /\ Campaign.status stored' = Campaign.status stored
      /\ Campaign.totalEmails stored' = Campaign.totalEmails stored
      /\ Campaign.emailsSent stored'
         = Campaign.emailsSent stored + Z.of_nat (length pendingEmails)
      /\ Campaign.emailsDelivered stored' + Campaign.emailsFailed stored'
         = Campaign.emailsDelivered stored + Campaign.emailsFailed stored
           + Z.of_nat (length pendingEmails).
Proof.
  intros Hoid.
  induction pendingEmails as [|email rest IH];
    intros others k w stored Hcamp Hconf Hcap Hm Hdistinct Hpending Hrest Hcfg.
  - exists w, stored. split; [reflexivity |]. split; [exact Hm |].
    split.
    { intros q e Hq. destruct (CampaignService.isPending e) eqn:Hp; [| reflexivity].
      specialize (Hpending q e Hq Hp). now apply elem_of_nil in Hpending. }
    cbn [length]. repeat split; lia.
  - cbn [CampaignService.dispatch]. cbn [length] in Hcap.
    destruct (Z.leb_spec maxPerHour k) as [Hle|Hlt]; [lia |].
    destruct (Hrest email (list_elem_of_here _ _)) as [i Hi].
    destruct Hcfg as (cfg & Hcfg & Hid).
    destruct (processOne_records campaign stored template smtpConfig cfg delay k
                email i w Hm Hi Hcfg Hid Hoid)
      as (res & w1 & w' & Hsend & Hrun & Hcm & Hsm & _).
    mrun. rewrite Hrun.
    destruct (sendEmail_keeps_config (SMTPConfig._id smtpConfig)
                (CampaignService.emailOptionsFor campaign template email (now w))
                w cfg Hcfg Hid) as (cfg1 & Hcfg1 & Hid1).
    rewrite Hsend in Hcfg1. cbn [snd] in Hcfg1.
    destruct (hd_keeps (P := keepsCampaigns) others (fun _ => eq_refl) Hcamp)
      as [Hhd Htl].
    destruct (hd_keeps (P := keepsConfigs) others (fun _ => eq_refl) Hconf)
      as [Hhd' Htl'].
    set (stored1 := applyUpdate (Some i)
                      (CampaignService.resultUpdate res (now w)) stored) in *.
    destruct (positionOf_lookup _ _ _ Hi) as (ei & Hei & Haddr).
    destruct (loop_update_frame (CampaignService.resultUpdate res (now w)) i stored
                (or_introl (ex_intro _ res (ex_intro _ (now w) eq_refl))))
      as (Hothers & Hpos & Hstatus & Hat).
    fold stored1 in Hothers, Hpos, Hstatus, Hat.
    destruct (Hat ei Hei) as (ei' & Hei' & Haddr' & Hdone).
    destruct (resultUpdate_effect i res (now w) stored ei Hei)
      as (_ & _ & _ & Htotal & Hsent & Hdelivered & Hfailed).
    fold stored1 in Htotal, Hsent, Hdelivered, Hfailed.
    destruct (IH (tl others) (k + 1) (hd id others w') stored1 Htl Htl')
      as (w2 & stored' & Hrun2 & Hm2 & Hnone & Hstatus2 & Htotal2 & Hsent2 & Hsum2).
    + lia.
    + rewrite (Hhd w'), Hcm. apply lookup_insert_eq.
    + intros q e Hq. rewrite Hpos. destruct (decide (q = i)) as [->|Hqi].
      * rewrite Hei' in Hq. injection Hq as <-. rewrite Haddr'.
        exact (Hdistinct i ei Hei).
      * rewrite (Hothers q Hqi) in Hq. exact (Hdistinct q e Hq).
    + intros q e Hq Hp. destruct (decide (q = i)) as [->|Hqi].
      * rewrite Hei' in Hq. injection Hq as <-. congruence.
      * rewrite (Hothers q Hqi) in Hq.
        specialize (Hpending q e Hq Hp). cbn [map] in Hpending.
        apply elem_of_cons in Hpending as [Heq|Hin]; [| exact Hin].
        exfalso. apply Hqi.
        pose proof (Hdistinct q e Hq) as Hq'. rewrite Heq, Hi in Hq'. congruence.
    + intros e He. rewrite Hpos. apply Hrest. now apply list_elem_of_further.
    + exists cfg1. rewrite (Hhd' w'), Hsm. split; [exact Hcfg1 | exact Hid1].
    + exists w2, stored'. split; [exact Hrun2 |]. split; [exact Hm2 |].
      split; [exact Hnone |].
      cbn [length]. destruct (success res); repeat split; try congruence; lia.
Qed.

(** An undisturbed pass over the stored campaign, when the addresses are
    distinct, the configuration is stored and the pending recipients fit
    under the cap: every pending recipient is processed, none is left
    pending, and the campaign is completed at the end of the pass.
    [emailsSent] has grown by the number of recipients processed, and so
    has [emailsDelivered] and [emailsFailed] together. *)
Theorem undisturbed_pass_completes (others : list (World -> World))
    (campaign : Campaign.t) (cfg : SMTPConfig.t) (w : World) :
  Forall keepsCampaigns others ->
  Forall keepsConfigs others ->
  campaignModel w !! Campaign._id campaign = Some campaign ->
  NoDup (map CampaignEmail.email (Campaign.emails campaign)) ->
  smtpConfigModel w !! Campaign.smtpConfigId campaign = Some cfg ->
  SMTPConfig._id cfg = Campaign.smtpConfigId campaign ->
  isObjectId (Campaign.smtpConfigId campaign) = true ->
  let pending := List.filter CampaignService.isPending (Campaign.emails campaign) in
  Z.of_nat (length pending)
  <= Js.or_number
       (Settings.maxEmailsPerHour
          (default Settings.empty (Campaign.settings campaign))) 100 ->
  exists w' final,
    CampaignService.processCampaignEmails others campaign w = (Ok tt, w')
    /\ campaignModel w' !! Campaign._id campaign = Some final
    /\ Campaign.status final = "completed"
    /\ Campaign.completedAt final = Some (now w')
    /\ (forall q e, Campaign.emails final !! q = Some e ->
          CampaignService.isPending e = false)
    /\ Campaign.emailsSent final
       = Campaign.emailsSent campaign + Z.of_nat (length pending)
    /\ Campaign.emailsDelivered final + Campaign.emailsFailed final
       = Campaign.emailsDelivered campaign + Campaign.emailsFailed campaign
         + Z.of_nat (length pending).
Proof.
  intros Hcamp Hconf Hstored Hnd Hcfg Hid Hoid pending Hcap.
  pose proof (distinct_positions _ Hnd) as Hdistinct.
  assert (Hfinish : forall w1 stored',
    campaignModel w1 !! Campaign._id campaign = Some stored' ->
    (forall q e, Campaign.emails stored' !! q = Some e ->
       CampaignService.isPending e = false) ->
    exists w' final,
      CampaignService.complete (Campaign._id campaign) w1 = (Ok tt, w')
      /\ campaignModel w' !! Campaign._id campaign = Some final
      /\ Campaign.status final = "completed"
      /\ Campaign.completedAt final = Some (now w')
      /\ Campaign.emails final = Campaign.emails stored'
      /\ Campaign.emailsSent final = Campaign.emailsSent stored'
      /\ Campaign.emailsDelivered final = Campaign.emailsDelivered stored'
      /\ Campaign.emailsFailed final = Campaign.emailsFailed stored').
  { intros w1 stored' Hm1 _.
    destruct (complete_run (Campaign._id campaign) w1)
      as (w' & Hrun & Hcm & _ & Hnow & _).
    exists w'. eexists. split; [exact Hrun |].
    rewrite Hcm, Hnow. unfold writeCompleted. rewrite Hm1.
    split; [apply lookup_insert_eq |]. repeat split. }
  unfold CampaignService.processCampaignEmails. fold pending.
  destruct pending as [|e1 rest] eqn:Hpending.
  - assert (Hnone : forall q e, Campaign.emails campaign !! q = Some e ->
                      CampaignService.isPending e = false)
      by now apply filter_nil_none.
    destruct (Hfinish w campaign Hstored Hnone)
      as (w' & final & Hrun & Hm & Hst & Hat & Hemails & Hsent & Hdel & Hfail).
    exists w', final. split; [exact Hrun |]. split; [exact Hm |].
    split; [exact Hst |]. split; [exact Hat |].
    split; [now rewrite Hemails |]. cbn [length]. split; lia.
  - unfold SmtpConfigModel.findById, EmailTemplateModel.findById. mrun.
    assert (Hinv2 : forall q e, Campaign.emails campaign !! q = Some e ->
              CampaignService.isPending e = true ->
              CampaignEmail.email e ∈ map CampaignEmail.email (e1 :: rest)).
    { intros q e Hq Hp. apply list_elem_of_fmap. exists e. split; [reflexivity |].
      rewrite <- Hpending. apply pending_member.
      split; [now apply (list_elem_of_lookup_2 _ q) | exact Hp]. }
    assert (Hinv3 : forall e, e ∈ e1 :: rest ->
              is_Some (positionOf (CampaignEmail.email e) (Campaign.emails campaign))).
    { intros e He. rewrite <- Hpending in He. apply pending_member in He as [He _].
      apply list_elem_of_lookup_1 in He as [q Hq]. exists q. now apply Hdistinct. }
    assert (Hinv4 : exists cfg0,
              smtpConfigModel w !! SMTPConfig._id cfg = Some cfg0
              /\ SMTPConfig._id cfg0 = SMTPConfig._id cfg).
    { exists cfg. rewrite Hid. split; [exact Hcfg | reflexivity]. }
    assert (Hoid' : isObjectId (SMTPConfig._id cfg) = true) by now rewrite Hid.
    destruct (Campaign.templateId campaign) as [tid|]; mrun; rewrite Hcfg.
    1: destruct (dispatch_completes campaign (emailTemplateModel w !! tid) cfg
                   (Js.or_number (Settings.delayBetweenEmails
                      (default Settings.empty (Campaign.settings campaign))) 1000)
                   _ (e1 :: rest) Hoid' others 0 w campaign Hcamp Hconf Hcap Hstored
                   Hdistinct Hinv2 Hinv3 Hinv4)
         as (w1 & stored' & -> & Hm1 & Hnone & _ & _ & Hsent1 & Hsum1).
    2: destruct (dispatch_completes campaign None cfg
                   (Js.or_number (Settings.delayBetweenEmails
                      (default Settings.empty (Campaign.settings campaign))) 1000)
                   _ (e1 :: rest) Hoid' others 0 w campaign Hcamp Hconf Hcap Hstored
                   Hdistinct Hinv2 Hinv3 Hinv4)
         as (w1 & stored' & -> & Hm1 & Hnone & _ & _ & Hsent1 & Hsum1).
    all: unfold CampaignModel.findById, CampaignModel.findOne; mrun.
    all: rewrite (select_by_id w1 _ stored' Hm1).
    all: rewrite (proj2 (filter_nil_none _) Hnone).
    all: destruct (Hfinish w1 stored' Hm1 Hnone)
      as (w' & final & Hrun & Hm & Hst & Hat & Hemails & Hsent & Hdel & Hfail).
    all: exists w', final; split; [exact Hrun |]; split; [exact Hm |].
    all: split; [exact Hst |]; split; [exact Hat |].
    all: split; [now rewrite Hemails |]; split; lia.
Qed.

Lemma undisturbed_pass_completes_witness :
  let campaign := Sample.running None ["ann@example.com"; "bob@example.com"] in
  exists w' final,
    CampaignService.processCampaignEmails [] campaign
      (Sample.world campaign (Sample.config 500 0 (Some 1000)) Sample.refusing
         5000 true)
    = (Ok tt, w')
    /\ campaignModel w' !! Sample.campaignId = Some final
    /\ Campaign.status final = "completed"
    /\ Campaign.emailsSent final = 2.
Proof.
  intros campaign.
  destruct (undisturbed_pass_completes [] campaign
              (Sample.config 500 0 (Some 1000))
              (Sample.world campaign (Sample.config 500 0 (Some 1000))
                 Sample.refusing 5000 true)
              (Forall_nil_2 _) (Forall_nil_2 _) eq_refl)
    as (w' & final & Hrun & Hm & Hst & _ & _ & Hsent & _).
  - apply (bool_decide_unpack _). vm_compute. exact I.
  - reflexivity.
  - reflexivity.
  - reflexivity.
  - vm_compute. discriminate.
  - exists w', final. repeat split; assumption.
Defined.

(** ** The single-recipient path of [EmailService] *)



(** ** Headers and duration *)

(** The message handed to the server carries the token of the dispatch
    loop as its tracking header, and the campaign id the token starts
    with as its campaign header; the sender falls back to the name and
    address of the configuration when the options give none. *)
Theorem mail_headers_name_the_campaign (cfg : SMTPConfig.t) (opts : EmailOptions)
    (campaignId email : string) (issued : Date) :
  trackingId opts = Some (EmailService.trackingIdOf campaignId email issued) ->
  Js.has_char "_" campaignId = false ->
  mo_trackingId (EmailService.mailOptions cfg opts)
  = Some (EmailService.trackingIdOf campaignId email issued)
  /\ mo_campaignId (EmailService.mailOptions cfg opts) = Some campaignId
  /\ (from opts = None ->
      mo_from (EmailService.mailOptions cfg opts)
      = Js.dquote +:+ SMTPConfig.fromName cfg +:+ Js.dquote +:+ " <"
        +:+ SMTPConfig.fromEmail cfg +:+ ">").
Proof.
  intros Ht Hc. unfold EmailService.mailOptions. rewrite Ht.
  cbn [mo_trackingId mo_campaignId mo_from].
  assert (Hne : String.eqb (EmailService.trackingIdOf campaignId email issued)
                  EmptyString = false).
  { unfold EmailService.trackingIdOf. destruct campaignId; reflexivity. }
  rewrite Hne. split; [reflexivity |]. split.
  - unfold EmailService.trackingIdOf. push_append.
    rewrite (split_first_part _ _ _ Hc). reflexivity.
  - intros ->. reflexivity.
Qed.

Lemma mail_headers_name_the_campaign_witness :
  mo_campaignId
    (EmailService.mailOptions (Sample.config 500 0 None)
       (CampaignService.emailOptionsFor (Sample.running None ["ann@example.com"])
          None (Sample.recipient "ann@example.com" "pending") 5000))
  = Some Sample.campaignId.
Proof.
  exact (proj1 (proj2 (mail_headers_name_the_campaign (Sample.config 500 0 None)
                         (CampaignService.emailOptionsFor
                            (Sample.running None ["ann@example.com"])
                            None (Sample.recipient "ann@example.com" "pending") 5000)
                         Sample.campaignId "ann@example.com" 5000
                         eq_refl eq_refl))).
Defined.

Lemma dispatch_clock (campaign : Campaign.t) (template : option EmailTemplate.t)
    (smtpConfig : SMTPConfig.t) (delay maxPerHour : Z)
    (pendingEmails : list CampaignEmail.t) :
  isObjectId (SMTPConfig._id smtpConfig) = true ->
  forall (others : list (World -> World)) (k : Z) (w : World),
    Forall keepsClock others ->
    k <= maxPerHour ->
    exists w',
      CampaignService.dispatch others campaign template smtpConfig delay
        maxPerHour k pendingEmails w = (Ok tt, w')
      /\ now w'
         = now w + Z.min (maxPerHour - k) (Z.of_nat (length pendingEmails))
                   * pauseAfterSend delay.
Proof.
  intros Hoid.
  induction pendingEmails as [|email rest IH]; intros others k w Hclk Hcap.
  - exists w. split; [reflexivity |]. cbn [length].
    replace (Z.min (maxPerHour - k) (Z.of_nat 0)) with 0 by lia. lia.
  - cbn [CampaignService.dispatch].
    destruct (Z.leb_spec maxPerHour k) as [Hle|Hlt].
    + mrun. eexists. split; [reflexivity |]. world_fields.
      replace (Z.min (maxPerHour - k) (Z.of_nat (length (email :: rest)))) with 0
        by lia. lia.
    + mrun.
      destruct (processOne_clock campaign template smtpConfig delay k email w Hoid)
        as (w1 & -> & _ & Hnow).
      destruct (hd_keeps (P := keepsClock) others (fun _ => eq_refl) Hclk)
        as [Hhd Htl].
      destruct (IH (tl others) (k + 1) (hd id others w1) Htl)
        as (w2 & Hrun & Hnow2); [lia |].
      exists w2. split; [exact Hrun |].
      rewrite Hnow2, (Hhd w1), Hnow.
      replace (Z.min (maxPerHour - k) (Z.of_nat (length (email :: rest))))
        with (1 + Z.min (maxPerHour - (k + 1)) (Z.of_nat (length rest)))
        by (cbn [length]; lia).
      change (@eq Date) with (@eq Z). ring.
Qed.

(** A pass pauses after every send, the last one included: with the
    clock left alone by the other handlers, it ends the delay times the
    number of recipients it processed after it began.  A delay of 0 in
    the settings counts as the default of one second. *)
Theorem pass_pauses_after_every_send (others : list (World -> World))
    (campaign : Campaign.t) (cfg : SMTPConfig.t) (w : World) :
  Forall keepsClock others ->
  smtpConfigModel w !! Campaign.smtpConfigId campaign = Some cfg ->
  isObjectId (SMTPConfig._id cfg) = true ->
  let settings := default Settings.empty (Campaign.settings campaign) in
  let cap := Js.or_number (Settings.maxEmailsPerHour settings) 100 in
  let delay := Js.or_number (Settings.delayBetweenEmails settings) 1000 in
  let pending := List.filter CampaignService.isPending (Campaign.emails campaign) in
  0 <= cap ->
  (exists w',
     CampaignService.processCampaignEmails others campaign w = (Ok tt, w')
     /\ now w'
        = now w + Z.min cap (Z.of_nat (length pending)) * pauseAfterSend delay)
  /\ (Settings.delayBetweenEmails settings = Some 0 -> pauseAfterSend delay = 1000).
Proof.
  intros Hclk Hcfg Hoid settings cap delay pending Hcap.
  split; [| intros Hzero; unfold delay; now rewrite Hzero].
  unfold CampaignService.processCampaignEmails. fold pending.
  destruct pending as [|e1 rest] eqn:Hpending.
  - destruct (complete_run (Campaign._id campaign) w) as (w' & -> & _ & _ & Hnow & _).
    exists w'. split; [reflexivity |]. rewrite Hnow. cbn [length].
    replace (Z.min cap (Z.of_nat 0)) with 0 by lia. lia.
  - unfold SmtpConfigModel.findById, EmailTemplateModel.findById. mrun.
    fold settings. fold delay. fold cap.
    destruct (Campaign.templateId campaign) as [tid|]; mrun; rewrite Hcfg.
    1: destruct (dispatch_clock campaign (emailTemplateModel w !! tid) cfg delay
                   cap (e1 :: rest) Hoid others 0 w Hclk Hcap)
         as (w1 & -> & Hnow).
    2: destruct (dispatch_clock campaign None cfg delay cap (e1 :: rest) Hoid
                   others 0 w Hclk Hcap) as (w1 & -> & Hnow).
    all: rewrite Z.sub_0_r in Hnow.
    all: unfold CampaignModel.findById, CampaignModel.findOne; mrun.
    all: destruct (CampaignModel.select _ w1) as [updated|];
      [| exists w1; split; [reflexivity | exact Hnow]].
    all: destruct (List.filter CampaignService.isPending (Campaign.emails updated));
      [| exists w1; split; [reflexivity | exact Hnow]].
    all: destruct (complete_run (Campaign._id campaign) w1)
      as (w' & -> & _ & _ & Hnow' & _).
    all: exists w'; split; [reflexivity | now rewrite Hnow'].
Qed.

Lemma pass_pauses_after_every_send_witness :
  let campaign :=
    Sample.running (Some (Settings.mk (Some 0) None))
      ["ann@example.com"; "bob@example.com"] in
  exists w',
    CampaignService.processCampaignEmails [] campaign
      (Sample.world campaign (Sample.config 500 0 (Some 1000)) Sample.accepting
         5000 true)
    = (Ok tt, w')
    /\ now w' = 7000.
Proof.
  intros campaign.
  destruct (pass_pauses_after_every_send [] campaign
              (Sample.config 500 0 (Some 1000))
              (Sample.world campaign (Sample.config 500 0 (Some 1000))
                 Sample.accepting 5000 true)
              (Forall_nil_2 _) eq_refl eq_refl) as [Hpass _].
  - vm_compute. discriminate.
  - exact Hpass.
Defined.
